(** * Verification of processing/interpolate_scaled_offset_field.py

    A shallow embedding of the interpolation module of the AST repository:
    the control-file loader, the KNN control-point regressor, the dataset
    combiner, the query adapter and the k-fold cross-validation harness.

    Conventions of the embedding.
    - A finite Python float is the rational it denotes ([Q]); a missing
      value (NaN) in a VAL column is [None].  The float arithmetic the module
      itself performs (the averaging of the fold scores) rounds as binary64
      does ([binary64]); the numerics inside the library calls are taken as
      exact, and no statement below rests on their rounding.
    - A Python call is a computation of type [py A]: it threads the
      observable world (log records, the mutable DataFrame objects that are
      shared by reference, the files readable by [pd.read_csv]) and ends by
      returning, by [sys.exit] or with an uncaught exception.
    - The scikit-learn and scipy entry points the module calls
      ([KFold], [KNeighborsRegressor], [mean_squared_error],
      [LinearNDInterpolator]) are library code; each one is modelled from
      its documented contract, next to the place it is used. *)

From Stdlib Require Import QArith Qround Qabs.
From stdpp Require Import base strings list gmap pretty.

Open Scope Q_scope.
Open Scope string_scope.
Open Scope list_scope.
Open Scope nat_scope.

(* ================================================================== *)
(** * Python runtime: outcomes, the world, the [py] monad             *)
(* ================================================================== *)

Inductive exn :=
| KeyError (key : string)
| KeyErrorNotInIndex (missing : list string)
| IndexError
| TypeError
| AttributeError
| ZeroDivisionError
| NameError (name : string)
| ValueError (what : string)
| FileNotFoundError (path : string).

(** What a library routine that does not touch the world hands back. *)
Inductive result (A : Type) :=
| Ok (a : A)
| Err (e : exn).
Arguments Ok {A} a.
Arguments Err {A} e.

(** How a call ends: [return a], [sys.exit(code)] (SystemExit is not an
    [Exception], so no [except Exception] clause catches it), or an
    exception that propagates to the caller. *)
Inductive outcome (A : Type) :=
| Ret (a : A)
| Exit (code : Z)
| Raise (e : exn).
Arguments Ret {A} a.
Arguments Exit {A} code.
Arguments Raise {A} e.

(** A tabular cell as [pd.read_csv] delivers it. *)
Inductive cell :=
| NaN
| Num (q : Q)
| Str (s : string).

(** A DataFrame with arbitrary (possibly repeated) column labels; every row
    is aligned with [columns]. *)
Record DataFrame := mkDataFrame {
  columns : list string;
  rows : list (list cell)
}.

(** A row of a canonical LON/LAT/VAL frame, the shape the two loaders
    return and every later stage expects.  Coordinates are always present;
    VAL may be missing. *)
Record Point := mkPoint {
  LON : Q;
  LAT : Q;
  VAL : option Q
}.

Abbreviation PointFrame := (list Point).

(** Log records of [utilities.log] and lines written by [print], tagged by
    the call site with the values formatted into the message. *)
Inductive level := INFO | WARN | ERROR | PRINT.

Inductive message :=
| NoControlFile
| ControlHeadersMissing (fname : string) (cols : list string)
| KnnRows (before after : nat)
| KnnEstimated (nearest_neighbors total : nat)
| KnnMean (values : list Q)
| KnnStd (values : list Q)
| Combining (n : nat)
| FailedConcat (ex : exn)
| NoModel
| CvStart (cv_splits nearest_neighbors : nat)
| CvNanRemoval (init after : nat)
| FoldLine (fold : nat)
| CvNumFrames (n : nat)
| NoValidInterpolationType (got : string) (avail : list string)
| FitRows (before after : nat)
| FitFailed (ex : exn)
| FitFinished.

Definition loc := positive.

Record world := mkWorld {
  log : list (level * message);
  heap : gmap loc PointFrame;
  fs : gmap string DataFrame
}.

Definition py (A : Type) : Type := world -> outcome A * world.

Definition ret {A} (a : A) : py A := fun w => (Ret a, w).

Definition bind {A B} (m : py A) (k : A -> py B) : py B :=
  fun w =>
    match m w with
    | (Ret a, w') => k a w'
    | (Exit c, w') => (Exit c, w')
    | (Raise e, w') => (Raise e, w')
    end.

Definition raise {A} (e : exn) : py A := fun w => (Raise e, w).

Definition sys_exit {A} (code : Z) : py A := fun w => (Exit code, w).

Definition lift {A} (r : result A) : py A :=
  match r with
  | Ok a => ret a
  | Err e => raise e
  end.

(** [try: body except Exception as ex: handler(ex)]. *)
Definition try_except {A} (body : py A) (handler : exn -> py A) : py A :=
  fun w =>
    match body w with
    | (Raise e, w') => handler e w'
    | r => r
    end.

Definition emit (lv : level) (m : message) : py unit :=
  fun w => (Ret tt, mkWorld (log w ++ [(lv, m)]) (heap w) (fs w)).

Definition load (l : loc) : py PointFrame :=
  fun w =>
    match heap w !! l with
    | Some f => (Ret f, w)
    | None => (Raise (NameError "dangling reference"), w)
    end.

Definition store (l : loc) (f : PointFrame) : py unit :=
  fun w => (Ret tt, mkWorld (log w) (<[l := f]> (heap w)) (fs w)).

Declare Scope py_scope.
Delimit Scope py_scope with py.
Notation "'let!' x ':=' m 'in' k" := (bind m (fun x => k))
  (at level 10, x pattern, m at level 100, k at level 200) : py_scope.
Notation "m ';;;' k" := (bind m (fun _ => k))
  (at level 100, k at level 200, right associativity) : py_scope.
Open Scope py_scope.

(** [for x in xs: s = body(x, s)] *)
Fixpoint for_each {A S} (xs : list A) (body : A -> S -> py S) (s : S) : py S :=
  match xs with
  | [] => ret s
  | x :: xs' => let! s' := body x s in for_each xs' body s'
  end.

(** [seq[i]] on a Python list with a non-negative index. *)
Definition getitem {A} (l : list A) (i : nat) : py A :=
  match l !! i with
  | Some v => ret v
  | None => raise IndexError
  end.

(** [d[key]] on a dict with string keys. *)
Definition dict_getitem {A} (d : gmap string A) (key : string) : py A :=
  match d !! key with
  | Some v => ret v
  | None => raise (KeyError key)
  end.

(* ================================================================== *)
(** * Query adapter: [interpolation_model_transform]                  *)
(* ================================================================== *)

(** A fitted model is a callable on one (lon, lat) pair; [.item(0)] takes
    the single value it produces. *)
Definition Model := Q -> Q -> Q.

Definition interpolation_model_transform
    (adc_combined : gmap string (list Q)) (model : option Model)
    (input_grid_type : string) : py PointFrame :=
  match model with
  | None => emit ERROR NoModel ;;; sys_exit 1
  | Some model =>
      let! gridx := dict_getitem adc_combined "LON" in
      let! gridy := dict_getitem adc_combined "LAT" in
      let d := [] in
      let xl := length gridx in
      let yl := length gridy in
      if String.eqb input_grid_type "grid" then
        for_each (seq 0 yl) (fun y d =>
          let! gy := getitem gridy y in
          for_each (seq 0 xl) (fun x d =>
            let! gx := getitem gridx x in
            let zval := model gx gy in
            ret (d ++ [mkPoint gx gy (Some zval)])) d) d
      else
        for_each (seq 0 yl) (fun y d =>
          let! gy := getitem gridy y in
          let! gx := getitem gridx y in
          let zval := model gx gy in
          ret (d ++ [mkPoint gx gy (Some zval)])) d
  end.

(* ================================================================== *)
(** * Strings and generic DataFrames                                  *)
(* ================================================================== *)

Definition space : Ascii.ascii := Ascii.ascii_of_N 32.

(** [s.replace(' ', '')] *)
Fixpoint str_remove_spaces (s : string) : string :=
  match s with
  | EmptyString => EmptyString
  | String c s' =>
      if Ascii.eqb c space then str_remove_spaces s'
      else String c (str_remove_spaces s')
  end.

(** [s.upper()] on ASCII text.  A Rocq string is a sequence of bytes, and
    bytes above 127 are left alone, whereas Python upper-cases some
    non-ASCII characters into ASCII letters (U+017F to S, U+0131 to I).
    None of them upper-cases to a letter of LON, LAT or VAL; where other
    names are compared (STATIONID, the interpolant names) the statements
    are about ASCII text, [is_ascii]. *)
Definition upper_ascii (c : Ascii.ascii) : Ascii.ascii :=
  let n := Ascii.N_of_ascii c in
  if ((97 <=? n) && (n <=? 122))%N then Ascii.ascii_of_N (n - 32) else c.

Fixpoint str_upper (s : string) : string :=
  match s with
  | EmptyString => EmptyString
  | String c s' => String (upper_ascii c) (str_upper s')
  end.

(** [s.isascii()] *)
Fixpoint is_ascii (s : string) : bool :=
  match s with
  | EmptyString => true
  | String c s' => (Ascii.N_of_ascii c <? 128)%N && is_ascii s'
  end.

Definition mem (x : string) (l : list string) : bool :=
  existsb (String.eqb x) l.

(** Positions of the columns labelled [name], counted from [i]. *)
Fixpoint positions (name : string) (cols : list string) (i : nat) : list nat :=
  match cols with
  | [] => []
  | c :: cols' =>
      if String.eqb c name then i :: positions name cols' (S i)
      else positions name cols' (S i)
  end.

(** [df[[n1, n2, ...]]]: every requested label must exist, otherwise pandas
    raises KeyError naming the labels that are not in the index; a repeated
    label selects each column that carries it. *)
Definition getitem_columns (df : DataFrame) (names : list string) : py DataFrame :=
  let missing := List.filter (fun n => negb (mem n (columns df))) names in
  match missing with
  | _ :: _ => raise (KeyErrorNotInIndex missing)
  | [] =>
      let idxs := flat_map (fun n => positions n (columns df) 0) names in
      ret (mkDataFrame
             (map (fun i => nth i (columns df) "") idxs)
             (map (fun r => map (fun i => nth i r NaN) idxs) (rows df)))
  end.

(** [df.rename(columns = {old: new})] *)
Definition rename_columns (df : DataFrame) (old new : string) : DataFrame :=
  mkDataFrame
    (map (fun c => if String.eqb c old then new else c) (columns df))
    (rows df).

(** [df.columns = labels] *)
Definition set_columns (df : DataFrame) (labels : list string) : DataFrame :=
  mkDataFrame labels (rows df).

(** [pd.read_csv(fname, header=0)] *)
Definition read_csv (fname : string) : py DataFrame :=
  fun w =>
    match fs w !! fname with
    | Some df => (Ret df, w)
    | None => (Raise (FileNotFoundError fname), w)
    end.

Definition index_of (name : string) (cols : list string) : option nat :=
  head (positions name cols 0).

Definition reindex_row (from : list string) (r : list cell) (to : list string)
    : list cell :=
  map (fun c => match index_of c from with
                | Some i => nth i r NaN
                | None => NaN
                end) to.

Definition union_columns (dfs : list DataFrame) : list string :=
  fold_left
    (fun acc df =>
       acc ++ List.filter (fun c => negb (mem c acc)) (columns df))
    dfs [].

Fixpoint nodupb (l : list string) : bool :=
  match l with
  | [] => true
  | x :: l' => negb (mem x l') && nodupb l'
  end.

Definition same_columns (a b : list string) : bool :=
  bool_decide (a = b).

(** [pd.concat(frames, ignore_index=True)]: nothing to concatenate is a
    ValueError; frames with one and the same label list are stacked; frames
    whose labels are unique are aligned on the union of the labels, absent
    cells becoming NaN; otherwise pandas cannot reindex. *)
Definition pd_concat (frames : list DataFrame) : py DataFrame :=
  match frames with
  | [] => raise (ValueError "No objects to concatenate")
  | f0 :: _ =>
      if forallb (fun f => same_columns (columns f) (columns f0)) frames then
        ret (mkDataFrame (columns f0) (flat_map rows frames))
      else if forallb (fun f => nodupb (columns f)) frames then
        let cols := union_columns frames in
        ret (mkDataFrame cols
               (flat_map
                  (fun f => map (fun r => reindex_row (columns f) r cols) (rows f))
                  frames))
      else raise (ValueError "Reindexing only valid with uniquely valued Index objects")
  end.

(* ================================================================== *)
(** * Point dataset loader: [get_lon_lat_control_values]              *)
(* ================================================================== *)

Definition is_control_header (item : string) : bool :=
  String.eqb item "LON" || String.eqb item "LAT" || String.eqb item "VAL".

Definition get_lon_lat_control_values
    (fname : option string) (header_data : string) : py DataFrame :=
  match fname with
  | None => emit ERROR NoControlFile ;;; sys_exit 1
  | Some fname =>
      let! df := read_csv fname in
      let df := rename_columns df header_data "val" in
      let df := set_columns df (map str_remove_spaces (columns df)) in
      let df := set_columns df (map str_upper (columns df)) in
      let col_headers :=
        fold_left
          (fun col_headers item =>
             if is_control_header item then col_headers ++ [item]
             else col_headers)
          (columns df) [] in
      if negb (length col_headers =? 3) then
        emit INFO (ControlHeadersMissing fname (columns df)) ;;; sys_exit 1
      else getitem_columns df ["LON"; "LAT"; "VAL"]
  end.

(* ================================================================== *)
(** * Dataset combiner: [combine_datasets_for_interpolation]          *)
(* ================================================================== *)

(** The names bound at the top level of the module: its imports and its
    function definitions.  No statement of the module binds [template]. *)
Definition module_globals : list string :=
  [ "sys"; "os"; "pd"; "np"; "utilities"; "KNeighborsRegressor"; "KFold";
    "mean_squared_error"; "sci"; "get_lon_lat_control_values";
    "get_station_values"; "randomly_select_dataframe_rows";
    "knn_fit_control_points"; "combine_datasets_for_interpolation";
    "interpolation_model_fit"; "interpolation_model_transform";
    "generic_grid"; "test_interpolation_fit"; "main" ].

(** Reading a name that the function never assigns: a global lookup. *)
Definition global_name (name : string) : py unit :=
  if mem name module_globals then ret tt else raise (NameError name).

Definition combine_datasets_for_interpolation (list_dfs : list DataFrame)
    : py DataFrame :=
  emit INFO (Combining (length list_dfs)) ;;;
  let! filtered_dataframes :=
    try_except
      (for_each list_dfs
         (fun df filtered_dataframes =>
            let! projected := getitem_columns df ["LON"; "LAT"; "VAL"] in
            ret (filtered_dataframes ++ [projected]))
         [])
      (fun ex =>
         global_name "template" ;;;
         emit WARN (FailedConcat ex) ;;;
         sys_exit 1) in
  pd_concat filtered_dataframes.

(* ================================================================== *)
(** * Canonical point frames and the scikit-learn routines            *)
(* ================================================================== *)

Definition has_val (p : Point) : bool :=
  match VAL p with
  | Some _ => true
  | None => false
  end.

(** [df.dropna()] on a LON/LAT/VAL frame. *)
Definition dropna (df : PointFrame) : PointFrame := List.filter has_val df.

Definition coords (p : Point) : Q * Q := (LON p, LAT p).

(** A numpy column of floats, NaN being [None]; [present] is the check
    scikit-learn runs on its inputs ("Input contains NaN"). *)
Fixpoint present (a : list (option Q)) : option (list Q) :=
  match a with
  | [] => Some []
  | None :: _ => None
  | Some v :: a' =>
      match present a' with
      | Some vs => Some (v :: vs)
      | None => None
      end
  end.

Definition Qsum (l : list Q) : Q := fold_left Qplus l 0%Q.

Definition Qnat (n : nat) : Q := inject_Z (Z.of_nat n).

Definition sqdist (a b : Q * Q) : Q :=
  ((a.1 - b.1) * (a.1 - b.1) + (a.2 - b.2) * (a.2 - b.2))%Q.

(** Training samples ordered by distance to the query [q]; samples at the
    same distance keep their order in the training set (which of them the
    k-d tree reports first is the library's choice). *)
Fixpoint insert_by_dist (q : Q * Q) (x : (Q * Q) * Q) (l : list ((Q * Q) * Q))
    : list ((Q * Q) * Q) :=
  match l with
  | [] => [x]
  | y :: l' =>
      if Qle_bool (sqdist q x.1) (sqdist q y.1) then x :: y :: l'
      else y :: insert_by_dist q x l'
  end.

Definition sort_by_dist (q : Q * Q) (l : list ((Q * Q) * Q))
    : list ((Q * Q) * Q) :=
  fold_right (insert_by_dist q) [] l.

(** [KNeighborsRegressor(n_neighbors=k, algorithm='kd_tree',
    weights='uniform')] after [fit(X, y)]. *)
Record KNeighborsRegressor := mkKNN {
  n_neighbors : nat;
  fit_samples : list ((Q * Q) * Q)
}.

(** [neigh.fit(X, y)]: the inputs are validated (no NaN, at least one
    sample, as many targets as samples, a positive neighbor count) and
    stored. *)
Definition KNeighborsRegressor_fit
    (k : nat) (X : list (Q * Q)) (y : list (option Q))
    : result KNeighborsRegressor :=
  match present y with
  | None => Err (ValueError "Input y contains NaN")
  | Some ys =>
      if length X =? 0 then Err (ValueError "Found array with 0 sample(s)")
      else if negb (length X =? length ys) then
        Err (ValueError "Found input variables with inconsistent numbers of samples")
      else if k =? 0 then Err (ValueError "Expected n_neighbors > 0")
      else Ok (mkKNN k (zip X ys))
  end.

(** The prediction for one query: the plain mean of the targets of its
    [n_neighbors] nearest training samples.  The mean is the exact one;
    the library's binary64 mean can differ from it in the last place. *)
Definition predict_one (neigh : KNeighborsRegressor) (q : Q * Q) : Q :=
  (Qsum (map snd (take (n_neighbors neigh) (sort_by_dist q (fit_samples neigh))))
   / Qnat (n_neighbors neigh))%Q.

(** [neigh.predict(Xq)]: asking for more neighbors than there are fitted
    samples is a ValueError ("Expected n_neighbors <= n_samples_fit"). *)
Definition KNeighborsRegressor_predict
    (neigh : KNeighborsRegressor) (Xq : list (Q * Q)) : result (list Q) :=
  if length Xq =? 0 then Err (ValueError "Found array with 0 sample(s)")
  else if length (fit_samples neigh) <? n_neighbors neigh then
    Err (ValueError "Expected n_neighbors <= n_samples_fit")
  else Ok (map (predict_one neigh) Xq).

(** [df['VAL'] = values] *)
Definition setitem_VAL (df : PointFrame) (values : list Q) : result PointFrame :=
  if length df =? length values then
    Ok (zip_with (fun p v => mkPoint (LON p) (LAT p) (Some v)) df values)
  else Err (ValueError "Length of values does not match length of index").

(** [sklearn.metrics.mean_squared_error(y_true, y_pred)] *)
Definition mean_squared_error (y_true y_pred : list (option Q)) : result Q :=
  if negb (length y_true =? length y_pred) then
    Err (ValueError "Found input variables with inconsistent numbers of samples")
  else if length y_true =? 0 then Err (ValueError "Found array with 0 sample(s)")
  else
    match present y_true, present y_pred with
    | Some t, Some p =>
        Ok (Qsum (zip_with (fun a b => ((a - b) * (a - b))%Q) t p)
            / Qnat (length t))%Q
    | _, _ => Err (ValueError "Input contains NaN")
    end.

(** [KFold(n_splits=k)] without shuffling. *)
Record KFold := mkKFold { n_splits : nat }.

Definition KFold_init (k : nat) : result KFold :=
  if k <? 2 then Err (ValueError "k-fold cross-validation requires at least one train/test split")
  else Ok (mkKFold k).

Definition get_n_splits (kf : KFold) : nat := n_splits kf.

(** The first [n mod k] folds hold [n / k + 1] samples, the others [n / k]. *)
Definition fold_sizes (n k : nat) : list nat :=
  map (fun i => if i <? n mod k then n / k + 1 else n / k) (seq 0 k).

(** [start, stop = current, current + fold_size; yield indices[start:stop]] *)
Fixpoint test_ranges (current : nat) (sizes : list nat) : list (list nat) :=
  match sizes with
  | [] => []
  | fold_size :: sizes' =>
      seq current fold_size :: test_ranges (current + fold_size) sizes'
  end.

Definition memb (i : nat) (l : list nat) : bool := existsb (Nat.eqb i) l.

(** [kf.split(X)] with [n = len(X)]: the (train_index, test_index) pairs in
    the order they are yielded. *)
Definition KFold_split (kf : KFold) (n : nat) : result (list (list nat * list nat)) :=
  if n <? n_splits kf then
    Err (ValueError "Cannot have number of splits greater than the number of samples")
  else
    Ok (map (fun test_index =>
               (List.filter (fun i => negb (memb i test_index)) (seq 0 n),
                test_index))
            (test_ranges 0 (fold_sizes n (n_splits kf)))).

(** [df.iloc[index]] with a list of positions. *)
Fixpoint iloc (df : PointFrame) (index : list nat) : result PointFrame :=
  match index with
  | [] => Ok []
  | i :: index' =>
      match df !! i with
      | None => Err IndexError
      | Some p =>
          match iloc df index' with
          | Ok f => Ok (p :: f)
          | Err e => Err e
          end
      end
  end.

(* ================================================================== *)
(** * Control-point regressor: [knn_fit_control_points]               *)
(* ================================================================== *)

(** [df_controls] is the caller's DataFrame object, held by reference. *)
Definition knn_fit_control_points
    (df_source : PointFrame) (df_controls : loc) (nearest_neighbors : nat)
    : py loc :=
  let before_missing := length df_source in
  let df_drop := dropna df_source in
  let after_missing := length df_drop in
  emit INFO (KnnRows before_missing after_missing) ;;;
  let source_coords := map coords df_drop in
  let source_values := map VAL df_drop in
  let! controls := load df_controls in
  let control_coords := map coords controls in
  let! neigh := lift (KNeighborsRegressor_fit nearest_neighbors source_coords source_values) in
  let! control_values := lift (KNeighborsRegressor_predict neigh control_coords) in
  let! controls := load df_controls in
  let! updated := lift (setitem_VAL controls control_values) in
  store df_controls updated ;;;
  emit INFO (KnnEstimated nearest_neighbors (length source_values)) ;;;
  emit INFO (KnnMean control_values) ;;;
  emit INFO (KnnStd control_values) ;;;
  ret df_controls.

(* ================================================================== *)
(** * Score dictionaries                                              *)
(* ================================================================== *)

(** ** Float arithmetic of the module itself

    [binary64 q] is the binary64 number nearest to [q], ties going to the
    even significand: 53 significant bits, the least quantum 2^-1074.
    Overflow to infinity is not modelled.  A float operation is the exact
    operation followed by this rounding. *)
Definition Qlog2_floor (q : Q) : Z :=
  let c := (Z.log2 (Qnum q) - Z.log2 (Zpos (Qden q)))%Z in
  if Qle_bool (2 ^ c) q then c else (c - 1)%Z.

Definition binary64 (q : Q) : Q :=
  if Qeq_bool q 0 then 0%Q
  else
    let e := Z.max (Qlog2_floor (Qabs q) - 52) (-1074) in
    let s := (q / 2 ^ e)%Q in
    let fl := Qfloor s in
    let r := (s - inject_Z fl)%Q in
    let m :=
      if Qeq_bool r (1 # 2) then (if Z.even fl then fl else fl + 1)%Z
      else if Qle_bool r (1 # 2) then fl else (fl + 1)%Z in
    Qred (inject_Z m * 2 ^ e).

(** [a + b] and [a / b] on floats, and [float(n)]. *)
Definition float_add (a b : Q) : Q := binary64 (a + b).
Definition float_div (a b : Q) : Q := binary64 (a / b).
Definition float_of_nat (n : nat) : Q := binary64 (inject_Z (Z.of_nat n)).

(** The values the score dictionaries hold: a list of floats (the scores
    appended for a fold) or a float (a summary). *)
Inductive pyval :=
| PList (l : list Q)
| PFloat (q : Q).

(** A Python dict keeps its keys in insertion order, which is the order
    [values()] is iterated in. *)
Abbreviation pydict := (list (string * pyval)).

Fixpoint dict_get (d : pydict) (key : string) : option pyval :=
  match d with
  | [] => None
  | (k, v) :: d' => if String.eqb k key then Some v else dict_get d' key
  end.

(** [d[key] = v]: an existing key keeps its place. *)
Fixpoint dict_set (d : pydict) (key : string) (v : pyval) : pydict :=
  match d with
  | [] => [(key, v)]
  | (k, v') :: d' =>
      if String.eqb k key then (k, v) :: d'
      else (k, v') :: dict_set d' key v
  end.

(** [dict(pairs)] *)
Definition dict_of (pairs : list (string * pyval)) : pydict :=
  fold_left (fun d kv => dict_set d kv.1 kv.2) pairs [].

(** [{**a, **b}] *)
Definition dict_merge (a b : pydict) : pydict :=
  fold_left (fun d kv => dict_set d kv.1 kv.2) b a.

Definition dict_values (d : pydict) : list pyval := map snd d.

(** [d[key].append(x)] *)
Definition dict_list_append (d : pydict) (key : string) (x : Q) : result pydict :=
  match dict_get d key with
  | None => Err (KeyError key)
  | Some (PList l) => Ok (dict_set d key (PList (l ++ [x])))
  | Some (PFloat _) => Err AttributeError
  end.

(** [d[key][0]] *)
Definition dict_list_first (d : pydict) (key : string) : result Q :=
  match dict_get d key with
  | None => Err (KeyError key)
  | Some (PList (x :: _)) => Ok x
  | Some (PList []) => Err IndexError
  | Some (PFloat _) => Err TypeError
  end.

(** [d[key]] read as a float operand *)
Definition dict_float (d : pydict) (key : string) : result Q :=
  match dict_get d key with
  | None => Err (KeyError key)
  | Some (PFloat q) => Ok q
  | Some (PList _) => Err TypeError
  end.

(** [a < b] on lists of floats: lexicographic. *)
Fixpoint list_lt (a b : list Q) : bool :=
  match a, b with
  | [], [] => false
  | [], _ :: _ => true
  | _ :: _, [] => false
  | x :: a', y :: b' =>
      if Qeq_bool x y then list_lt a' b' else negb (Qle_bool y x)
  end.

Definition pyval_lt (a b : pyval) : result bool :=
  match a, b with
  | PList la, PList lb => Ok (list_lt la lb)
  | PFloat x, PFloat y => Ok (negb (Qle_bool y x))
  | _, _ => Err TypeError
  end.

Fixpoint min_from (best : pyval) (vs : list pyval) : result pyval :=
  match vs with
  | [] => Ok best
  | v :: vs' =>
      match pyval_lt v best with
      | Ok true => min_from v vs'
      | Ok false => min_from best vs'
      | Err e => Err e
      end
  end.

(** The builtin [min(iterable)]: the first smallest item. *)
Definition py_min (vs : list pyval) : result pyval :=
  match vs with
  | [] => Err (ValueError "min() arg is an empty sequence")
  | v :: vs' => min_from v vs'
  end.

(** ["fold_%s" % i] and ["Cnrl_fold_%s" % i] *)
Definition fold_key (i : nat) : string := "fold_" +:+ pretty i.
Definition cnrl_fold_key (i : nat) : string := "Cnrl_fold_" +:+ pretty i.

(** The loop
    [d[total] = 0.0; for i in range(1, folds+1): d[total] += d[key(i)][0];
     d[total] /= float(folds)]. *)
Definition accumulate_average
    (d : pydict) (total : string) (key : nat -> string) (folds : nat)
    : py pydict :=
  let d := dict_set d total (PFloat 0) in
  let! d :=
    for_each (seq 1 folds)
      (fun i d =>
         let! acc := lift (dict_float d total) in
         let! x := lift (dict_list_first d (key i)) in
         ret (dict_set d total (PFloat (float_add acc x))))
      d in
  let! acc := lift (dict_float d total) in
  if folds =? 0 then raise ZeroDivisionError
  else ret (dict_set d total (PFloat (float_div acc (float_of_nat folds)))).

(* ================================================================== *)
(** * Cross-validation harness                                        *)
(* ================================================================== *)

(** An entry of [train_list]: a frame nobody else holds, or the shared
    land-control object. *)
Inductive obj :=
| Imm (f : PointFrame)
| Ref (l : loc).

Definition deref (o : obj) : py PointFrame :=
  match o with
  | Imm f => ret f
  | Ref l => load l
  end.

(** [pd.concat(objs, ignore_index=True)] on LON/LAT/VAL frames: the rows are
    read from the objects when the call is made. *)
Definition pd_concat_points (objs : list obj) : py PointFrame :=
  match objs with
  | [] => raise (ValueError "No objects to concatenate")
  | _ :: _ =>
      for_each objs (fun o acc => let! f := deref o in ret (acc ++ f)) []
  end.

(** Lines 322-335 of [test_interpolation_fit]: the training frame of one
    fold, and the object bound to [df_land_controls_test]. *)
Definition cv_training_set
    (df_source_train df_source_test : PointFrame)
    (df_land_controls : option loc) (df_water_controls : option PointFrame)
    (nearest_neighbors : nat) : py (PointFrame * option loc) :=
  let train_list := [] in
  let train_list := train_list ++ [Imm df_source_train] in
  let! (train_list, df_land_controls_test) :=
    match df_land_controls with
    | Some df_land_controls =>
        let! df_land_controls_train :=
          knn_fit_control_points df_source_train df_land_controls nearest_neighbors in
        let ktest :=
          if length df_source_test <? nearest_neighbors
          then length df_source_test else nearest_neighbors in
        let! df_land_controls_test :=
          knn_fit_control_points df_source_test df_land_controls ktest in
        ret (train_list ++ [Ref df_land_controls_train], Some df_land_controls_test)
    | None => ret (train_list, None)
    end in
  let train_list :=
    match df_water_controls with
    | Some water => train_list ++ [Imm water]
    | None => train_list
    end in
  emit INFO (CvNumFrames (length train_list)) ;;;
  let! df_Train := pd_concat_points train_list in
  ret (df_Train, df_land_controls_test).

Section Interpolation.

(** [scipy.interpolate.LinearNDInterpolator((X, Y), V, fill_value)] and
    [CloughTocher2DInterpolator]: the triangulating constructors, which
    either build a model or raise. *)
Variable LinearNDInterpolator :
  list Q -> list Q -> list (option Q) -> Q -> result Model.
Variable CloughTocher2DInterpolator :
  list Q -> list Q -> list (option Q) -> Q -> result Model.

Definition interpolation_model_fit
    (df_combined : PointFrame) (fill_value : Q) (interpolation_type : string)
    : py Model :=
  let model_choices := ["LINEARNDINTERPOLATOR"; "CLOUGHTOCHER2DINTERPOLATOR"] in
  let! interpolation_type :=
    if mem (str_upper interpolation_type) model_choices
    then ret (str_upper interpolation_type)
    else emit ERROR (NoValidInterpolationType interpolation_type model_choices) ;;;
         sys_exit 1 in
  let before_missing := length df_combined in
  let df_drop := dropna df_combined in
  let after_missing := length df_drop in
  emit INFO (FitRows before_missing after_missing) ;;;
  let X := map LON df_drop in
  let Y := map LAT df_drop in
  let V := map VAL df_drop in
  let! model :=
    try_except
      (if String.eqb interpolation_type "LINEARNDINTERPOLATOR"
       then lift (LinearNDInterpolator X Y V fill_value)
       else lift (CloughTocher2DInterpolator X Y V fill_value))
      (fun ex =>
         global_name "template" ;;;
         emit WARN (FitFailed ex) ;;;
         sys_exit 1) in
  emit INFO FitFinished ;;;
  ret model.

(** One pass of the loop over [kf.split(df_source_drop)]; the loop state is
    [(fold, kf_dict, kfcntl_dict)]. *)
Definition cv_fold
    (df_source_drop : PointFrame)
    (df_land_controls : option loc) (df_water_controls : option PointFrame)
    (nearest_neighbors : nat)
    (split : list nat * list nat) (st : nat * pydict * pydict)
    : py (nat * pydict * pydict) :=
  let '(train_index, test_index) := split in
  let '(fold, kf_dict, kfcntl_dict) := st in
  let fold := fold + 1 in
  emit PRINT (FoldLine fold) ;;;
  let! df_source_train := lift (iloc df_source_drop train_index) in
  let! df_source_test := lift (iloc df_source_drop test_index) in
  let! (df_Train, df_land_controls_test) :=
    cv_training_set df_source_train df_source_test
      df_land_controls df_water_controls nearest_neighbors in
  let df_Test := df_source_test in
  let! model := interpolation_model_fit df_Train 0 "LinearNDInterpolator" in
  let test_coords : gmap string (list Q) :=
    <["LAT" := map LAT df_Test]> (<["LON" := map LON df_Test]> ∅) in
  let! df_fit_test_coords :=
    interpolation_model_transform test_coords (Some model) "points" in
  let! test_mse :=
    lift (mean_squared_error (map VAL df_Test) (map VAL df_fit_test_coords)) in
  let! kf_dict := lift (dict_list_append kf_dict (fold_key fold) test_mse) in
  let! testcntl_mse :=
    match df_land_controls_test with
    | Some df_land_controls_test =>
        let! land := load df_land_controls_test in
        let land_coords : gmap string (list Q) :=
          <["LON" := map LON land]> (<["LAT" := map LAT land]> ∅) in
        let! df_fit_land_coords :=
          interpolation_model_transform land_coords (Some model) "points" in
        let! land := load df_land_controls_test in
        lift (mean_squared_error (map VAL land) (map VAL df_fit_land_coords))
    | None => ret (-99999)%Q
    end in
  let! kfcntl_dict :=
    lift (dict_list_append kfcntl_dict (cnrl_fold_key fold) testcntl_mse) in
  ret (fold, kf_dict, kfcntl_dict).

Definition test_interpolation_fit
    (df_source : PointFrame)
    (df_land_controls : option loc) (df_water_controls : option PointFrame)
    (cv_splits nearest_neighbors : nat) : py (pydict * pyval) :=
  emit INFO (CvStart cv_splits nearest_neighbors) ;;;
  let df_source_drop := dropna df_source in
  emit INFO (CvNanRemoval (length df_source) (length df_source_drop)) ;;;
  let! kf := lift (KFold_init cv_splits) in
  let folds := get_n_splits kf in
  let kf_dict := dict_of (map (fun i => (fold_key i, PList [])) (seq 1 folds)) in
  let kfcntl_dict :=
    dict_of (map (fun i => (cnrl_fold_key i, PList [])) (seq 1 folds)) in
  let fold := 0 in
  let! splits := lift (KFold_split kf (length df_source_drop)) in
  let! (fold, kf_dict, kfcntl_dict) :=
    for_each splits
      (cv_fold df_source_drop df_land_controls df_water_controls nearest_neighbors)
      (fold, kf_dict, kfcntl_dict) in
  let! best_score := lift (py_min (dict_values kf_dict)) in
  let! bestcntl_score := lift (py_min (dict_values kfcntl_dict)) in
  let kf_dict := dict_set kf_dict "best" best_score in
  let! kf_dict := accumulate_average kf_dict "avgMSE" fold_key folds in
  let kfcntl_dict := dict_set kfcntl_dict "best_cntl" bestcntl_score in
  let! kfcntl_dict :=
    accumulate_average kfcntl_dict "avgCnrlMSE" cnrl_fold_key folds in
  ret (dict_merge kf_dict kfcntl_dict, best_score).

End Interpolation.

(* ================================================================== *)
(** * Vocabulary of the statements                                    *)
(* ================================================================== *)

(** The row the adapter appends for one evaluated coordinate pair. *)
Definition grid_row (model : Model) (gx gy : Q) : Point :=
  mkPoint gx gy (Some (model gx gy)).

(** A two-key coordinate dict, as the callers of the adapter build it. *)
Definition lon_lat_dict (lon lat : list Q) : gmap string (list Q) :=
  <["LAT" := lat]> (<["LON" := lon]> ∅).

Definition world0 : world := mkWorld [] ∅ ∅.

(** A stand-in model for concrete runs: the sum of the coordinates. *)
Definition plane_model : Model := fun x y => (x + y)%Q.

(** The values the regressor computes for the control coordinates, or the
    error the library raises: the [fit] and [predict] calls of
    [knn_fit_control_points] in sequence. *)
Definition knn_values (df_source : PointFrame) (k : nat) (controls : PointFrame)
    : result (list Q) :=
  match KNeighborsRegressor_fit k
          (map coords (dropna df_source)) (map VAL (dropna df_source)) with
  | Ok neigh => KNeighborsRegressor_predict neigh (map coords controls)
  | Err e => Err e
  end.

(** A control frame with its VAL column replaced. *)
Definition with_VAL (controls : PointFrame) (values : list Q) : PointFrame :=
  zip_with (fun p v => mkPoint (LON p) (LAT p) (Some v)) controls values.

(** The world after a successful KNN fit of the object at [l]. *)
Definition knn_done (w : world) (df_source : PointFrame) (l : loc) (k : nat)
    (controls : PointFrame) (values : list Q) : world :=
  mkWorld
    (log w ++ [(INFO, KnnRows (length df_source) (length (dropna df_source)));
               (INFO, KnnEstimated k (length (dropna df_source)));
               (INFO, KnnMean values); (INFO, KnnStd values)])
    (<[l := with_VAL controls values]> (heap w))
    (fs w).

(** The world after a KNN fit that raised. *)
Definition knn_failed (w : world) (df_source : PointFrame) : world :=
  mkWorld
    (log w ++ [(INFO, KnnRows (length df_source) (length (dropna df_source)))])
    (heap w) (fs w).

(** The neighbor count the harness passes for the test fold. *)
Definition ktest_of (df_source_test : PointFrame) (nearest_neighbors : nat) : nat :=
  if length df_source_test <? nearest_neighbors
  then length df_source_test else nearest_neighbors.

(** Four stations on the unit square and one land control at (2, 2). *)
Definition stations4 : PointFrame :=
  [ mkPoint 0 0 (Some 1%Q); mkPoint 1 0 (Some 2%Q);
    mkPoint 0 1 (Some 3%Q); mkPoint 1 1 (Some 4%Q) ].

Definition land1 : PointFrame := [ mkPoint 2 2 None ].

(** A world whose only object is the land-control frame, at location 1. *)
Definition world_land : world := mkWorld [] (<[1%positive := land1]> ∅) ∅.

(** The first fold of a 2-fold split of [stations4]: positions 0, 1 are
    held out, positions 2, 3 train. *)
Definition fold1_test : PointFrame :=
  [ mkPoint 0 0 (Some 1%Q); mkPoint 1 0 (Some 2%Q) ].

Definition fold1_train : PointFrame :=
  [ mkPoint 0 1 (Some 3%Q); mkPoint 1 1 (Some 4%Q) ].

(** The rows a water-control argument contributes to the training frame. *)
Definition water_rows (df_water_controls : option PointFrame) : PointFrame :=
  match df_water_controls with
  | Some water => water
  | None => []
  end.

(** A frame with a longitude and a latitude column and no value column. *)
Definition frame_without_val : DataFrame :=
  mkDataFrame ["LON"; "LAT"] [[Num 0; Num 0]; [Num 1; Num 0]].

(** A frame lacks a required field when one of LON, LAT, VAL is not among
    its column labels. *)
Definition lacks_field (df : DataFrame) : Prop :=
  exists name, name ∈ ["LON"; "LAT"; "VAL"] /\ mem name (columns df) = false.

(** The world after the combiner has written its opening log record. *)
Definition combine_started (w : world) (n : nat) : world :=
  mkWorld (log w ++ [(INFO, Combining n)]) (heap w) (fs w).

(** The column labels after the renaming of the value column, the removal
    of spaces and the upper-casing. *)
Definition normalized_headers (header_data : string) (cols : list string)
    : list string :=
  map str_upper
    (map str_remove_spaces
       (map (fun c => if String.eqb c header_data then "val" else c) cols)).

(** The labels the loader recognizes, in their order, with repetitions. *)
Definition recognized (cols : list string) : list string :=
  List.filter is_control_header cols.

Definition count_label (name : string) (cols : list string) : nat :=
  length (List.filter (fun c => String.eqb c name) cols).

(** Each of LON, LAT, VAL labels exactly one column. *)
Definition each_once (cols : list string) : Prop :=
  count_label "LON" cols = 1 /\ count_label "LAT" cols = 1
  /\ count_label "VAL" cols = 1.

(** The world after the loader has reported the header it rejects. *)
Definition headers_rejected (w : world) (fname : string) (cols : list string)
    : world :=
  mkWorld (log w ++ [(INFO, ControlHeadersMissing fname cols)]) (heap w) (fs w).

(** A control file with the header [Lon, Lat]. *)
Definition csv_lon_lat : DataFrame :=
  mkDataFrame ["Lon"; " Lat"] [[Num 2; Num 2]].

Definition world_csv (df : DataFrame) : world :=
  mkWorld [] ∅ (<["controls.csv" := df]> ∅).

(** The entry of fold [i] once the scores [ss] of the first folds are in:
    a one-element list for a fold that has run, the empty list otherwise. *)
Definition fold_entry (ss : list Q) (i : nat) : pyval :=
  PList (match ss !! (i - 1) with
         | Some s => [s]
         | None => []
         end).

(** A score dictionary with the keys of folds 1..K, in that order. *)
Definition scored (key : nat -> string) (K : nat) (ss : list Q) : pydict :=
  map (fun i => (key i, fold_entry ss i)) (seq 1 K).

Definition dict_keys (d : pydict) : list string := map fst d.

(** A stand-in for the scipy constructors in concrete runs: the model
    returns the training value at a training coordinate and the fill value
    elsewhere. *)
Definition node_model (X Y : list Q) (V : list (option Q)) (fill_value : Q)
    : result Model :=
  Ok (fun x y =>
        match List.find (fun n => Qeq_bool n.1.1 x && Qeq_bool n.1.2 y)
                        (zip (zip X Y) V) with
        | Some (_, Some v) => v
        | _ => fill_value
        end).

(** The report of the 2-fold run over [stations4] with the land control of
    [world_land], one neighbor and [node_model] for the interpolant. *)
Definition report_2fold : pydict :=
  [ ("fold_1", PList [5 # 2]); ("fold_2", PList [25 # 2]);
    ("best", PList [5 # 2]); ("avgMSE", PFloat (15 # 2));
    ("Cnrl_fold_1", PList [0%Q]); ("Cnrl_fold_2", PList [0%Q]);
    ("best_cntl", PList [0%Q]); ("avgCnrlMSE", PFloat 0) ].


(** The constructor [interpolation_model_fit] calls for a type name. *)
Definition chosen_constructor
    (Linear Clough : list Q -> list Q -> list (option Q) -> Q -> result Model)
    (interpolation_type : string)
    : list Q -> list Q -> list (option Q) -> Q -> result Model :=
  if String.eqb (str_upper interpolation_type) "LINEARNDINTERPOLATOR"
  then Linear else Clough.

Definition valid_interpolation_type (interpolation_type : string) : bool :=
  mem (str_upper interpolation_type)
      ["LINEARNDINTERPOLATOR"; "CLOUGHTOCHER2DINTERPOLATOR"].

(** The world once the fit has logged its row counts. *)
Definition fit_started (w : world) (df_combined : PointFrame) : world :=
  mkWorld
    (log w ++ [(INFO, FitRows (length df_combined) (length (dropna df_combined)))])
    (heap w) (fs w).

Definition fit_finished (w : world) (df_combined : PointFrame) : world :=
  mkWorld
    (log w ++ [(INFO, FitRows (length df_combined) (length (dropna df_combined)));
               (INFO, FitFinished)])
    (heap w) (fs w).

(** A constructor that always raises, for concrete runs. *)
Definition raising_constructor (X Y : list Q) (V : list (option Q)) (fill_value : Q)
    : result Model :=
  Err (ValueError "QhullError").

(** The cell of row [r] of [df] under the first column labelled [name]. *)
Definition cell_at (df : DataFrame) (name : string) (r : list cell) : cell :=
  match index_of name (columns df) with
  | Some i => nth i r NaN
  | None => NaN
  end.

(** The rows of [df] cut down to their LON, LAT and VAL cells. *)
Definition projected_rows (df : DataFrame) : list (list cell) :=
  map (fun r => [cell_at df "LON" r; cell_at df "LAT" r; cell_at df "VAL" r])
      (rows df).

(** Two frames for concrete runs of the combiner: stations with an extra
    column, and controls with the columns in another order. *)
Definition frame_stations : DataFrame :=
  mkDataFrame ["NAME"; "LON"; "LAT"; "VAL"]
    [[Str "a"; Num 0; Num 0; Num 1]; [Str "b"; Num 1; Num 0; Num 2]].

Definition frame_controls : DataFrame :=
  mkDataFrame ["VAL"; "LAT"; "LON"] [[Num 0; Num 9; Num 8]].


(** The world once the harness has written its two opening records. *)
Definition cv_started (w : world) (df_source : PointFrame)
    (cv_splits nearest_neighbors : nat) : world :=
  mkWorld
    (log w ++ [(INFO, CvStart cv_splits nearest_neighbors);
               (INFO, CvNanRemoval (length df_source) (length (dropna df_source)))])
    (heap w) (fs w).

(** The sentinel the harness records as control score when no land
    controls are configured. *)
Definition no_control_score : Q := (-99999)%Q.

(** The size of the first fold of a split of [n] rows into [k] folds. *)
Definition first_fold_size (n k : nat) : nat :=
  if 0 <? n mod k then n / k + 1 else n / k.


(** The report of the 2-fold run over [stations4] with one water control,
    no land controls, three neighbors and [node_model] for the interpolant. *)
Definition report_2fold_no_land : pydict :=
  [ ("fold_1", PList [5 # 2]); ("fold_2", PList [25 # 2]);
    ("best", PList [5 # 2]); ("avgMSE", PFloat (15 # 2));
    ("Cnrl_fold_1", PList [(-99999)%Q]); ("Cnrl_fold_2", PList [(-99999)%Q]);
    ("best_cntl", PList [(-99999)%Q]); ("avgCnrlMSE", PFloat (-99999)) ].

Definition water1 : PointFrame := [ mkPoint 5 5 (Some 0%Q) ].


(* ================================================================== *)
(** * Station loader: [get_station_values]                            *)
(* ================================================================== *)

(** A frame one of whose former columns has become the index. *)
Record IndexedFrame := mkIndexed {
  index_name : string;
  index : list cell;
  body : DataFrame
}.

Section StationLoader.

(** Python's [str(x)] on a cell, which [astype(str)] applies cell by cell. *)
Variable py_str : cell -> string.

(** The two log records of [get_station_values] ("No station (averaging)
    data file assigned" and "station data file ... doesnt have all the
    needed headers"), which are left open here. *)
Variable no_station_file : message.
Variable station_headers_missing : string -> list string -> message.

(** [df[name] = df[name].astype(str)]: reading a label that no column
    carries is a KeyError. *)
Definition astype_str_column (df : DataFrame) (name : string) : py DataFrame :=
  match positions name (columns df) 0 with
  | [] => raise (KeyError name)
  | ps =>
      ret (mkDataFrame (columns df)
             (map (imap (fun i c => if memb i ps then Str (py_str c) else c))
                  (rows df)))
  end.

(** [df.set_index(name)]: the column leaves the columns and becomes the
    index; a label that several columns carry does not give a
    one-dimensional index. *)
Definition set_index (df : DataFrame) (name : string) : py IndexedFrame :=
  match positions name (columns df) 0 with
  | [] => raise (KeyError name)
  | [i] =>
      ret (mkIndexed name (map (fun r => nth i r NaN) (rows df))
             (mkDataFrame (delete i (columns df)) (map (delete i) (rows df))))
  | _ :: _ :: _ => raise (ValueError "Index data must be 1-dimensional")
  end.

Definition is_station_header (item : string) : bool :=
  String.eqb item "STATIONID" || String.eqb item "LON"
  || String.eqb item "LAT" || String.eqb item "VAL".

Definition get_station_values
    (fname : option string) (header_data : string) : py IndexedFrame :=
  match fname with
  | None => emit ERROR no_station_file ;;; sys_exit 1
  | Some fname =>
      let! df := read_csv fname in
      let df := rename_columns df header_data "val" in
      let! df := astype_str_column df "STATION" in
      let df := set_columns df (map str_remove_spaces (columns df)) in
      let df := set_columns df (map str_upper (columns df)) in
      let df := rename_columns df "STATION" "STATIONID" in
      let col_headers :=
        fold_left
          (fun col_headers item =>
             if is_station_header item then col_headers ++ [item]
             else col_headers)
          (columns df) [] in
      if negb (length col_headers =? 4) then
        emit INFO (station_headers_missing fname (columns df)) ;;; sys_exit 1
      else
        let! df := getitem_columns df ["STATIONID"; "LON"; "LAT"; "VAL"] in
        set_index df "STATIONID"
  end.

End StationLoader.

(** The column labels [get_station_values] tests: the value column renamed,
    spaces removed, upper-cased, and STATION renamed to STATIONID. *)
Definition station_headers (header_data : string) (cols : list string)
    : list string :=
  map (fun c => if String.eqb c "STATION" then "STATIONID" else c)
      (normalized_headers header_data cols).

(** The raw labels at the time the STATION column is converted. *)
Definition value_renamed (header_data : string) (cols : list string)
    : list string :=
  map (fun c => if String.eqb c header_data then "val" else c) cols.

Definition each_station_header_once (cols : list string) : Prop :=
  count_label "STATIONID" cols = 1 /\ count_label "LON" cols = 1
  /\ count_label "LAT" cols = 1 /\ count_label "VAL" cols = 1.

(** Stand-ins for concrete runs of the station loader. *)
Definition show_cell (c : cell) : string :=
  match c with
  | Str s => s
  | Num _ => "number"
  | NaN => "nan"
  end.

(** A station file whose id column is headed [ STATION], with a leading
    space, and one whose header is as the loader expects. *)
Definition csv_station_spaced : DataFrame :=
  mkDataFrame [" STATION"; "LON"; "LAT"; "mean"]
    [[Num 8410140; Num 1; Num 2; Num 3]].

Definition csv_station_plain : DataFrame :=
  mkDataFrame ["STATION"; " lon"; "Lat"; "mean"; "std"]
    [[Num 8410140; Num 1; Num 2; Num 3; Num 4]].


(** The average the harness stores: the fold scores added one by one to
    0.0 in fold order, the total then divided by [float(folds)], each
    operation rounding. *)
Definition float_mean (xs : list Q) (folds : nat) : Q :=
  float_div (fold_left float_add xs 0%Q) (float_of_nat folds).


(** Lines 355-368 of [test_interpolation_fit]: the summary entries, from
    the state the loop over the folds ends in. *)
Definition cv_summary (folds : nat) (st : nat * pydict * pydict)
    : py (pydict * pyval) :=
  let '(fold, kf_dict, kfcntl_dict) := st in
  let! best_score := lift (py_min (dict_values kf_dict)) in
  let! bestcntl_score := lift (py_min (dict_values kfcntl_dict)) in
  let kf_dict := dict_set kf_dict "best" best_score in
  let! kf_dict := accumulate_average kf_dict "avgMSE" fold_key folds in
  let kfcntl_dict := dict_set kfcntl_dict "best_cntl" bestcntl_score in
  let! kfcntl_dict :=
    accumulate_average kfcntl_dict "avgCnrlMSE" cnrl_fold_key folds in
  ret (dict_merge kf_dict kfcntl_dict, best_score).

(** What the model predicts at the coordinates of the rows of a frame. *)
Definition predictions (model : Model) (df : PointFrame) : list (option Q) :=
  map (fun p => Some (model (LON p) (LAT p))) df.

(** The two scores of the fold of a (train, test) pair: [s] is the mean
    squared error, over the held-out rows, of the model the linear
    constructor builds from a training frame that starts with the train
    rows; [c] is the sentinel without land controls, and with them the mean
    squared error of that model over the rows of the land-control object. *)
Definition fold_scored
    (Linear : list Q -> list Q -> list (option Q) -> Q -> result Model)
    (df_source_drop : PointFrame) (land : option loc)
    (split : list nat * list nat) (s c : Q) : Prop :=
  exists train test rest model,
    iloc df_source_drop split.1 = Ok train
    /\ iloc df_source_drop split.2 = Ok test
    /\ Linear (map LON (dropna (train ++ rest))) (map LAT (dropna (train ++ rest)))
         (map VAL (dropna (train ++ rest))) 0%Q = Ok model
    /\ mean_squared_error (map VAL test) (predictions model test) = Ok s
    /\ match land with
       | None => c = (-99999)%Q
       | Some _ =>
           exists fitted,
             mean_squared_error (map VAL fitted) (predictions model fitted) = Ok c
       end.

(** A control file with the header [lon, Lon, val]. *)
Definition csv_lon_twice : DataFrame :=
  mkDataFrame ["lon"; "Lon"; "val"] [[Num 2; Num 2; Num 0]].



(* ================================================================== *)
(** * Laws of the [py] monad and of loops                             *)
(* ================================================================== *)

Lemma bind_ret_l {A B} (a : A) (k : A -> py B) w : bind (ret a) k w = k a w.
Proof. reflexivity. Qed.

(** A computation that returns was composed of steps that returned. *)
Lemma bind_inv_Ret {A B} (m : py A) (k : A -> py B) w b w2 :
  bind m k w = (Ret b, w2) ->
  exists a w1, m w = (Ret a, w1) /\ k a w1 = (Ret b, w2).
Proof.
  unfold bind. destruct (m w) as [[a | c | e] w1]; intros H; try discriminate.
  now exists a, w1.
Qed.

Lemma for_each_ext {A T} (xs : list A) (f g : A -> T -> py T) s w :
  (forall x s w, f x s w = g x s w) ->
  for_each xs f s w = for_each xs g s w.
Proof.
  intros Hfg. revert s w. induction xs as [| x xs IH]; intros s w; simpl.
  - reflexivity.
  - unfold bind. rewrite Hfg. destruct (g x s w) as [[s' | c | e] w']; auto.
Qed.

(** Walking a list through its indices is walking the list. *)
Lemma getitem_middle {A} (pre l : list A) x :
  getitem (pre ++ x :: l) (length pre) = ret x.
Proof.
  unfold getitem. rewrite lookup_app_r by lia. now rewrite Nat.sub_diag.
Qed.

Lemma for_each_indexed_from {A T} (pre l : list A) (k : A -> T -> py T) s w :
  for_each (seq (length pre) (length l))
    (fun i s => let! x := getitem (pre ++ l) i in k x s) s w
  = for_each l k s w.
Proof.
  revert pre s w. induction l as [| x l IH]; intros pre s w; simpl.
  - reflexivity.
  - rewrite getitem_middle. unfold bind, ret.
    destruct (k x s w) as [[s' | c | e] w']; try reflexivity.
    specialize (IH (pre ++ [x]) s' w').
    rewrite length_app in IH. simpl in IH.
    rewrite Nat.add_1_r in IH. rewrite <- app_assoc in IH. exact IH.
Qed.

Lemma for_each_indexed {A T} (l : list A) (k : A -> T -> py T) s w :
  for_each (seq 0 (length l)) (fun i s => let! x := getitem l i in k x s) s w
  = for_each l k s w.
Proof. exact (for_each_indexed_from [] l k s w). Qed.

Lemma for_each_append {A B} (l : list A) (g : A -> B) (d : list B) w :
  for_each l (fun x d => ret (d ++ [g x])) d w = (Ret (d ++ map g l), w).
Proof.
  revert d. induction l as [| x l IH]; intros d; simpl.
  - now rewrite app_nil_r.
  - rewrite bind_ret_l, IH. now rewrite <- app_assoc.
Qed.

Lemma for_each_extend {A B} (l : list A) (g : A -> list B) (d : list B) w :
  for_each l (fun x d => ret (d ++ g x)) d w = (Ret (d ++ flat_map g l), w).
Proof.
  revert d. induction l as [| x l IH]; intros d; simpl.
  - now rewrite app_nil_r.
  - rewrite bind_ret_l, IH. now rewrite <- app_assoc.
Qed.

(* ================================================================== *)
(** * The query adapter                                               *)
(* ================================================================== *)

Lemma transform_grid_eq adc lon lat (model : Model) w :
  adc !! "LON" = Some lon -> adc !! "LAT" = Some lat ->
  interpolation_model_transform adc (Some model) "grid" w
  = (Ret (flat_map (fun gy => map (fun gx => grid_row model gx gy) lon) lat), w).
Proof.
  intros Hlon Hlat. unfold interpolation_model_transform, dict_getitem.
  rewrite Hlon, Hlat. rewrite !bind_ret_l. cbv zeta.
  rewrite String.eqb_refl. rewrite for_each_indexed.
  rewrite (for_each_ext lat _
             (fun gy d => ret (d ++ map (fun gx => grid_row model gx gy) lon))).
  - now rewrite for_each_extend.
  - intros gy d w0. rewrite for_each_indexed.
    apply (for_each_append lon (fun gx => grid_row model gx gy)).
Qed.

Lemma flat_map_rows_lookup {A B C} (f : A -> B -> C) (xs : list A) (ys : list B)
    x y gx gy :
  xs !! x = Some gx -> ys !! y = Some gy ->
  flat_map (fun b => map (fun a => f a b) xs) ys !! (y * length xs + x)
  = Some (f gx gy).
Proof.
  intros Hx. revert y. induction ys as [| b ys IH]; intros y Hy.
  - now rewrite lookup_nil in Hy.
  - destruct y as [| y]; simpl in *.
    + injection Hy as ->. rewrite lookup_app_l.
      * now rewrite list_lookup_fmap, Hx.
      * rewrite length_map. now apply lookup_lt_Some in Hx.
    + rewrite lookup_app_r by (rewrite length_map; lia).
      rewrite length_map.
      replace (length xs + y * length xs + x - length xs)
        with (y * length xs + x) by lia.
      now apply IH.
Qed.

Lemma flat_map_rows_length {A B C} (f : A -> B -> C) (xs : list A) (ys : list B) :
  length (flat_map (fun b => map (fun a => f a b) xs) ys)
  = length xs * length ys.
Proof.
  induction ys as [| b ys IH]; simpl.
  - lia.
  - rewrite length_app, length_map, IH. lia.
Qed.

(** C4: in grid mode the adapter returns nx*ny rows; row [y*nx + x] is
    (LON[x], LAT[y], model(LON[x], LAT[y])), so the latitude index is the
    outer loop and the longitude index the inner one. *)
Theorem transform_grid_latitude_major
    (adc : gmap string (list Q)) (lon lat : list Q) (model : Model) (w : world) :
  adc !! "LON" = Some lon -> adc !! "LAT" = Some lat ->
  exists d : PointFrame,
    interpolation_model_transform adc (Some model) "grid" w = (Ret d, w)
    /\ length d = length lon * length lat
    /\ d = flat_map (fun gy => map (fun gx => mkPoint gx gy (Some (model gx gy))) lon) lat
    /\ forall x y gx gy,
         lon !! x = Some gx -> lat !! y = Some gy ->
         d !! (y * length lon + x) = Some (mkPoint gx gy (Some (model gx gy))).
Proof.
  intros Hlon Hlat. eexists. split; [apply (transform_grid_eq adc lon lat); assumption |].
  split; [apply flat_map_rows_length |]. split; [reflexivity |].
  intros x y gx gy Hx Hy.
  apply (flat_map_rows_lookup (grid_row model) lon lat x y gx gy Hx Hy).
Qed.

Lemma transform_grid_latitude_major_witness :
  exists d : PointFrame,
    interpolation_model_transform (lon_lat_dict [1; 2; 3] [10; 20])%Q
      (Some plane_model) "grid" world0 = (Ret d, world0)
    /\ length d = length [1; 2; 3]%Q * length [10; 20]%Q
    /\ d = flat_map (fun gy => map (fun gx => mkPoint gx gy (Some (plane_model gx gy)))
                                   [1; 2; 3]%Q) [10; 20]%Q
    /\ forall x y gx gy,
         [1; 2; 3]%Q !! x = Some gx -> [10; 20]%Q !! y = Some gy ->
         d !! (y * length [1; 2; 3]%Q + x) = Some (mkPoint gx gy (Some (plane_model gx gy))).
Proof.
  apply (transform_grid_latitude_major
           (lon_lat_dict [1; 2; 3] [10; 20])%Q [1; 2; 3]%Q [10; 20]%Q
           plane_model world0); reflexivity.
Defined.

Lemma points_loop (model : Model) (lon pre lat : list Q) (d : PointFrame) w :
  length pre <= length lon ->
  for_each (seq (length pre) (length lat))
    (fun y d =>
       let! gy := getitem (pre ++ lat) y in
       let! gx := getitem lon y in
       let zval := model gx gy in
       ret (d ++ [mkPoint gx gy (Some zval)])) d w
  = if decide (length pre + length lat <= length lon)
    then (Ret (d ++ zip_with (grid_row model) (drop (length pre) lon) lat), w)
    else (Raise IndexError, w).
Proof.
  revert pre d. induction lat as [| gy lat IH]; intros pre d Hpre;
    cbn [for_each seq length].
  - rewrite decide_True by lia. rewrite zip_with_nil_r. now rewrite app_nil_r.
  - unfold bind at 1. unfold bind at 1. rewrite getitem_middle. unfold ret at 1.
    unfold bind at 1. unfold getitem at 1.
    destruct (lon !! length pre) as [gx |] eqn:Hgx.
    + unfold ret at 1. cbv zeta. unfold ret at 1.
      apply lookup_lt_Some in Hgx as Hlt.
      specialize (IH (pre ++ [gy]) (d ++ [mkPoint gx gy (Some (model gx gy))])).
      rewrite length_app in IH. simpl in IH. rewrite Nat.add_1_r in IH.
      rewrite <- app_assoc in IH. simpl in IH. rewrite IH by lia.
      rewrite (drop_S lon gx (length pre) Hgx). simpl.
      destruct (decide (length pre + S (length lat) <= length lon));
        [rewrite decide_True by lia | rewrite decide_False by lia]; try reflexivity.
      now rewrite <- app_assoc.
    + apply lookup_ge_None in Hgx. rewrite decide_False by lia. reflexivity.
Qed.

Lemma transform_points_eq adc lon lat (model : Model) mode w :
  adc !! "LON" = Some lon -> adc !! "LAT" = Some lat -> mode <> "grid" ->
  interpolation_model_transform adc (Some model) mode w
  = if decide (length lat <= length lon)
    then (Ret (zip_with (grid_row model) lon lat), w)
    else (Raise IndexError, w).
Proof.
  intros Hlon Hlat Hmode. unfold interpolation_model_transform, dict_getitem.
  rewrite Hlon, Hlat. rewrite !bind_ret_l. cbv zeta.
  apply String.eqb_neq in Hmode. rewrite Hmode.
  exact (points_loop model lon [] lat [] w (Nat.le_0_l _)).
Qed.

(** C10: in points mode the adapter walks the indices of LAT only.  When
    LON is at least as long as LAT it returns len(LAT) rows, row [i] being
    (LON[i], LAT[i], model(LON[i], LAT[i])), and the entries of LON from
    index len(LAT) on are never read; when LON is shorter than LAT the call
    ends with an uncaught IndexError, with nothing logged. *)
Theorem transform_points_walks_LAT
    (adc : gmap string (list Q)) (lon lat : list Q) (model : Model)
    (mode : string) (w : world) :
  adc !! "LON" = Some lon -> adc !! "LAT" = Some lat -> mode <> "grid" ->
  (length lat <= length lon ->
     exists d : PointFrame,
       interpolation_model_transform adc (Some model) mode w = (Ret d, w)
       /\ length d = length lat
       /\ (forall i gx gy,
             lon !! i = Some gx -> lat !! i = Some gy ->
             d !! i = Some (mkPoint gx gy (Some (model gx gy))))
       /\ forall extra : list Q,
            interpolation_model_transform
              (<["LON" := take (length lat) lon ++ extra]> adc)
              (Some model) mode w = (Ret d, w))
  /\ (length lon < length lat ->
        interpolation_model_transform adc (Some model) mode w = (Raise IndexError, w)).
Proof.
  intros Hlon Hlat Hmode. split; intros Hlen.
  - exists (zip_with (grid_row model) lon lat).
    rewrite (transform_points_eq adc lon lat) by assumption.
    rewrite decide_True by lia. split; [reflexivity |].
    split; [| split].
    + rewrite length_zip_with. lia.
    + intros i gx gy Hx Hy. rewrite lookup_zip_with, Hx. simpl. now rewrite Hy.
    + intros extra.
      rewrite (transform_points_eq _ (take (length lat) lon ++ extra) lat).
      * rewrite decide_True by (rewrite length_app, length_take; lia).
        f_equal. f_equal.
        rewrite <- (take_drop (length lat) lon) at 2.
        rewrite !zip_with_app_l. rewrite length_take.
        rewrite Nat.min_l by lia. rewrite drop_all. simpl.
        now rewrite !zip_with_nil_r.
      * apply lookup_insert_eq.
      * rewrite lookup_insert_ne by discriminate. assumption.
      * assumption.
  - rewrite (transform_points_eq adc lon lat) by assumption.
    now rewrite decide_False by lia.
Qed.

Lemma transform_points_walks_LAT_witness :
  (length [10; 20]%Q <= length [1; 2; 3]%Q ->
     exists d : PointFrame,
       interpolation_model_transform (lon_lat_dict [1; 2; 3] [10; 20])%Q
         (Some plane_model) "points" world0 = (Ret d, world0)
       /\ length d = length [10; 20]%Q
       /\ (forall i gx gy,
             [1; 2; 3]%Q !! i = Some gx -> [10; 20]%Q !! i = Some gy ->
             d !! i = Some (mkPoint gx gy (Some (plane_model gx gy))))
       /\ forall extra : list Q,
            interpolation_model_transform
              (<["LON" := take (length [10; 20]%Q) [1; 2; 3]%Q ++ extra]>
                 (lon_lat_dict [1; 2; 3] [10; 20])%Q)
              (Some plane_model) "points" world0 = (Ret d, world0))
  /\ (length [1; 2; 3]%Q < length [10; 20]%Q ->
        interpolation_model_transform (lon_lat_dict [1; 2; 3] [10; 20])%Q
          (Some plane_model) "points" world0 = (Raise IndexError, world0)).
Proof.
  apply (transform_points_walks_LAT
           (lon_lat_dict [1; 2; 3] [10; 20])%Q [1; 2; 3]%Q [10; 20]%Q
           plane_model "points" world0); [reflexivity | reflexivity | discriminate].
Defined.

(* ================================================================== *)
(** * The k-fold partition                                            *)
(* ================================================================== *)

Lemma fold_sizes_sum_min (q r k : nat) :
  list_sum (map (fun i => if i <? r then q + 1 else q) (seq 0 k))
  = k * q + Nat.min r k.
Proof.
  induction k as [| k IH].
  - simpl. lia.
  - rewrite seq_S, map_app, list_sum_app, IH. simpl.
    destruct (Nat.ltb_spec k r); lia.
Qed.

Lemma fold_sizes_sum (n k : nat) : 0 < k -> list_sum (fold_sizes n k) = n.
Proof.
  intros Hk. unfold fold_sizes. rewrite fold_sizes_sum_min.
  pose proof (Nat.mod_upper_bound n k ltac:(lia)).
  pose proof (Nat.div_mod_eq n k). lia.
Qed.

Lemma fold_sizes_length (n k : nat) : length (fold_sizes n k) = k.
Proof. unfold fold_sizes. now rewrite length_map, length_seq. Qed.

Lemma fold_sizes_positive (n k size : nat) :
  0 < k -> k <= n -> size ∈ fold_sizes n k -> 0 < size.
Proof.
  intros Hk Hkn Hin. unfold fold_sizes in Hin.
  apply list_elem_of_fmap in Hin as (i & -> & _).
  assert (0 < n / k) by (apply Nat.div_str_pos; lia).
  destruct (i <? n mod k); lia.
Qed.

Lemma test_ranges_concat (current : nat) (sizes : list nat) :
  concat (test_ranges current sizes) = seq current (list_sum sizes).
Proof.
  revert current. induction sizes as [| s sizes IH]; intros current; simpl.
  - reflexivity.
  - now rewrite IH, seq_app.
Qed.

Lemma test_ranges_length (current : nat) (sizes : list nat) :
  length (test_ranges current sizes) = length sizes.
Proof.
  revert current. induction sizes as [| s sizes IH]; intros current; simpl; auto.
Qed.

Lemma test_ranges_contiguous (current : nat) (sizes : list nat) f test :
  test_ranges current sizes !! f = Some test ->
  exists start size, sizes !! f = Some size /\ test = seq start size.
Proof.
  revert current f. induction sizes as [| s sizes IH]; intros current f; simpl.
  - now rewrite lookup_nil.
  - destruct f as [| f]; simpl.
    + intros [= <-]. now exists current, s.
    + apply IH.
Qed.

Lemma elem_of_concat {A} (ls : list (list A)) (x : A) :
  x ∈ concat ls <-> exists l, x ∈ l /\ l ∈ ls.
Proof.
  rewrite list_elem_of_In, in_concat. split; intros (l & H1 & H2); exists l.
  - now rewrite !list_elem_of_In.
  - now rewrite <- !list_elem_of_In.
Qed.

(** Blocks whose concatenation has no repetition do not overlap. *)
Lemma concat_NoDup_disjoint {A} (ls : list (list A)) i j a b x :
  NoDup (concat ls) -> i <> j ->
  ls !! i = Some a -> ls !! j = Some b -> x ∈ a -> x ∈ b -> False.
Proof.
  revert i j. induction ls as [| l ls IH]; intros i j Hnd Hij Hi Hj Ha Hb.
  - now rewrite lookup_nil in Hi.
  - simpl in Hnd. apply NoDup_app in Hnd as (Hl & Hcross & Hrest).
    destruct i as [| i], j as [| j]; simpl in Hi, Hj; try congruence.
    + injection Hi as ->. apply (Hcross x Ha).
      apply elem_of_concat. exists b. split; [exact Hb |].
      eapply list_elem_of_lookup_2; eauto.
    + injection Hj as ->. apply (Hcross x Hb).
      apply elem_of_concat. exists a. split; [exact Ha |].
      eapply list_elem_of_lookup_2; eauto.
    + apply (IH i j); auto.
Qed.

Lemma memb_elem_of (i : nat) (l : list nat) : memb i l = true <-> i ∈ l.
Proof.
  unfold memb. rewrite existsb_exists. split.
  - intros (x & Hin & Heq). apply Nat.eqb_eq in Heq as ->.
    now apply list_elem_of_In.
  - intros Hin. exists i. split; [now apply list_elem_of_In | apply Nat.eqb_refl].
Qed.

(** With N rows and 2 <= K <= N the splitter yields exactly K (train, test)
    pairs; every test fold is a non-empty run of consecutive positions, the
    test folds laid end to end are exactly 0, 1, ..., N-1, and a fold's
    train positions are the positions outside its test fold. *)
Lemma KFold_split_partition (df_source : PointFrame) (K : nat) :
  2 <= K -> K <= length (dropna df_source) ->
  exists kf splits,
    KFold_init K = Ok kf
    /\ KFold_split kf (length (dropna df_source)) = Ok splits
    /\ length splits = K
    /\ concat (map snd splits) = seq 0 (length (dropna df_source))
    /\ (forall f test, map snd splits !! f = Some test ->
          test <> [] /\ exists start, test = seq start (length test))
    /\ (forall i, i < length (dropna df_source) ->
          exists f test, map snd splits !! f = Some test /\ i ∈ test)
    /\ (forall f g tf tg i,
          f <> g -> map snd splits !! f = Some tf -> map snd splits !! g = Some tg ->
          i ∈ tf -> i ∉ tg)
    /\ (forall train test i,
          (train, test) ∈ splits ->
          (i ∈ train <-> i < length (dropna df_source) /\ i ∉ test)).
Proof.
  set (N := length (dropna df_source)). intros HK HN.
  exists (mkKFold K).
  exists (map (fun test_index =>
                 (List.filter (fun i => negb (memb i test_index)) (seq 0 N), test_index))
              (test_ranges 0 (fold_sizes N K))).
  assert (Hsnd : forall l : list (list nat),
             map snd (map (fun t => (List.filter (fun i => negb (memb i t)) (seq 0 N), t)) l) = l).
  { intros l. rewrite map_map. simpl. apply map_id. }
  assert (Hcat : concat (test_ranges 0 (fold_sizes N K)) = seq 0 N).
  { rewrite test_ranges_concat, fold_sizes_sum by lia. reflexivity. }
  split.
  { unfold KFold_init. destruct (Nat.ltb_spec K 2); [lia | reflexivity]. }
  split.
  { unfold KFold_split. simpl. destruct (Nat.ltb_spec N K); [lia | reflexivity]. }
  split.
  { now rewrite length_map, test_ranges_length, fold_sizes_length. }
  rewrite Hsnd. split; [exact Hcat |].
  split.
  { intros f test Hf.
    apply test_ranges_contiguous in Hf as (start & size & Hsize & ->).
    assert (0 < size).
    { apply (fold_sizes_positive N K); [lia | lia |].
      eapply list_elem_of_lookup_2; eauto. }
    split.
    - destruct size; [lia | discriminate].
    - exists start. now rewrite length_seq. }
  split.
  { intros i Hi.
    assert (Hin : i ∈ concat (test_ranges 0 (fold_sizes N K))).
    { rewrite Hcat. apply elem_of_seq. lia. }
    apply elem_of_concat in Hin as (test & Hit & Htest).
    apply list_elem_of_lookup_1 in Htest as (f & Hf). now exists f, test. }
  split.
  { intros f g tf tg i Hfg Hf Hg Hi Hi'.
    apply (concat_NoDup_disjoint (test_ranges 0 (fold_sizes N K)) f g tf tg i); auto.
    rewrite Hcat. apply NoDup_seq. }
  intros train test i Hin.
  apply list_elem_of_fmap in Hin as (t & [= -> ->] & _).
  rewrite list_elem_of_In, filter_In, <- list_elem_of_In, elem_of_seq.
  rewrite negb_true_iff, <- not_true_iff_false, memb_elem_of. intuition lia.
Qed.


(* ================================================================== *)
(** * The control-point regressor                                     *)
(* ================================================================== *)

Lemma present_dropna (df : PointFrame) :
  exists vs, present (map VAL (dropna df)) = Some vs
             /\ length vs = length (dropna df).
Proof.
  induction df as [| p df (vs & Hvs & Hlen)]; simpl.
  - now exists [].
  - unfold has_val. destruct (VAL p) as [v |] eqn:Hp; simpl.
    + rewrite Hp, Hvs. exists (v :: vs). simpl. auto.
    + now exists vs.
Qed.

(** An error is no answer, and the side condition fails as well. *)
Ltac never_answers :=
  split; [intros (? & [=]) | intros [? ?]; first [lia | congruence]].

Lemma knn_values_length src k controls vs :
  knn_values src k controls = Ok vs -> length vs = length controls.
Proof.
  unfold knn_values. destruct (KNeighborsRegressor_fit _ _ _) as [neigh | e];
    [| discriminate].
  unfold KNeighborsRegressor_predict.
  destruct (length (map coords controls) =? 0); [discriminate |].
  destruct (_ <? _); [discriminate |].
  intros [= <-]. now rewrite !length_map.
Qed.

(** The regressor answers exactly when the neighbor count lies between one
    and the number of complete training rows and there is a control row. *)
Lemma knn_values_Ok_iff src k controls :
  (exists vs, knn_values src k controls = Ok vs)
  <-> 1 <= k <= length (dropna src) /\ controls <> [].
Proof.
  unfold knn_values, KNeighborsRegressor_fit, KNeighborsRegressor_predict.
  destruct (present_dropna src) as (ys & -> & Hlen).
  rewrite !length_map.
  destruct (Nat.eqb_spec (length (dropna src)) 0) as [H0 | H0].
  { never_answers. }
  destruct (Nat.eqb_spec (length (dropna src)) (length ys)); [| congruence].
  simpl negb. cbv iota.
  destruct (Nat.eqb_spec k 0) as [Hk | Hk].
  { never_answers. }
  simpl n_neighbors. simpl fit_samples.
  rewrite length_zip, length_map, Hlen, Nat.min_id.
  destruct (Nat.eqb_spec (length controls) 0) as [Hc | Hc].
  { destruct controls; [never_answers | discriminate]. }
  destruct (Nat.ltb_spec (length (dropna src)) k).
  { never_answers. }
  split; [| eauto]. intros _. split; [lia |]. now destruct controls.
Qed.

Lemma knn_values_too_many src k controls :
  dropna src <> [] -> controls <> [] -> length (dropna src) < k ->
  knn_values src k controls = Err (ValueError "Expected n_neighbors <= n_samples_fit").
Proof.
  intros Hsrc Hc Hk.
  unfold knn_values, KNeighborsRegressor_fit, KNeighborsRegressor_predict.
  destruct (present_dropna src) as (ys & -> & Hlen).
  rewrite !length_map.
  destruct (Nat.eqb_spec (length (dropna src)) 0) as [H0 | H0].
  { destruct (dropna src); [congruence | discriminate]. }
  destruct (Nat.eqb_spec (length (dropna src)) (length ys)); [| congruence].
  simpl negb. cbv iota.
  destruct (Nat.eqb_spec k 0) as [Hk0 | Hk0]; [lia |].
  simpl n_neighbors. simpl fit_samples.
  rewrite length_zip, length_map, Hlen, Nat.min_id.
  destruct (Nat.eqb_spec (length controls) 0) as [Hc0 | Hc0].
  { destruct controls; [congruence | discriminate]. }
  destruct (Nat.ltb_spec (length (dropna src)) k); [reflexivity | lia].
Qed.

(** The regressor only reads the coordinates of the control rows. *)
Lemma knn_values_coords src k c1 c2 :
  map coords c1 = map coords c2 -> knn_values src k c1 = knn_values src k c2.
Proof. unfold knn_values. now intros ->. Qed.

Lemma with_VAL_coords controls values :
  length values = length controls ->
  map coords (with_VAL controls values) = map coords controls.
Proof.
  revert values. induction controls as [| p controls IH]; intros [| v values] Hlen;
    simpl in *; try discriminate; try reflexivity.
  f_equal. apply IH. lia.
Qed.

(** What one call of [knn_fit_control_points] does, in every case. *)
Lemma knn_fit_control_points_eq src l k w :
  knn_fit_control_points src l k w =
  match heap w !! l with
  | None => (Raise (NameError "dangling reference"), knn_failed w src)
  | Some controls =>
      match knn_values src k controls with
      | Ok values => (Ret l, knn_done w src l k controls values)
      | Err e => (Raise e, knn_failed w src)
      end
  end.
Proof.
  unfold knn_fit_control_points. cbv zeta.
  unfold bind at 1. unfold emit at 1.
  unfold bind at 1. unfold load at 1. cbn [heap].
  destruct (heap w !! l) as [controls |] eqn:Hl; [| reflexivity].
  pose proof (knn_values_length src k controls) as Hlen.
  unfold knn_values in *.
  unfold bind at 1.
  destruct (KNeighborsRegressor_fit _ _ _) as [neigh | e]; [| reflexivity].
  cbn [lift ret]. unfold bind at 1.
  destruct (KNeighborsRegressor_predict neigh _) as [values | e]; [| reflexivity].
  cbn [lift ret]. unfold bind at 1. unfold load at 1. cbn [heap]. rewrite Hl.
  unfold bind at 1. unfold setitem_VAL.
  rewrite (Hlen values eq_refl), Nat.eqb_refl. cbn [lift ret].
  unfold bind, store, emit, ret. cbn [log heap fs]. unfold knn_done, with_VAL.
  rewrite length_map. repeat rewrite <- app_assoc. reflexivity.
Qed.

Lemma with_VAL_with_VAL controls v1 v2 :
  length v1 = length controls ->
  with_VAL (with_VAL controls v1) v2 = with_VAL controls v2.
Proof.
  revert v1 v2. induction controls as [| p controls IH]; intros [| a v1] [| b v2] Hlen;
    simpl in *; try discriminate; try reflexivity.
  f_equal. apply IH. lia.
Qed.

Lemma knn_fit_returns src l k w l' w' :
  knn_fit_control_points src l k w = (Ret l', w') ->
  exists controls values,
    heap w !! l = Some controls
    /\ knn_values src k controls = Ok values
    /\ l' = l /\ w' = knn_done w src l k controls values.
Proof.
  rewrite knn_fit_control_points_eq.
  destruct (heap w !! l) as [controls |]; [| discriminate].
  destruct (knn_values src k controls) as [values | e] eqn:Hv; [| discriminate].
  intros [= <- <-]. now exists controls, values.
Qed.

Lemma knn_fit_overwrites_shared_object_aux
    (src1 src2 : PointFrame) (l l1 l2 : loc) (k1 k2 : nat) (w w1 w2 : world) :
  knn_fit_control_points src1 l k1 w = (Ret l1, w1) ->
  knn_fit_control_points src2 l k2 w1 = (Ret l2, w2) ->
  exists controls v1 v2,
    heap w !! l = Some controls
    /\ knn_values src1 k1 controls = Ok v1
    /\ knn_values src2 k2 controls = Ok v2
    /\ l1 = l /\ l2 = l
    /\ heap w1 = <[l := with_VAL controls v1]> (heap w)
    /\ heap w2 = <[l := with_VAL controls v2]> (heap w).
Proof.
  intros H1 H2.
  apply knn_fit_returns in H1 as (controls & v1 & Hl & Hv1 & -> & ->).
  apply knn_fit_returns in H2 as (controls' & v2 & Hl' & Hv2 & -> & ->).
  cbn [knn_done heap] in Hl'. rewrite lookup_insert_eq in Hl'.
  injection Hl' as <-.
  pose proof (knn_values_length _ _ _ _ Hv1) as Hlen.
  rewrite (knn_values_coords src2 k2 _ controls) in Hv2
    by now apply with_VAL_coords.
  exists controls, v1, v2. cbn [knn_done heap].
  rewrite with_VAL_with_VAL by assumption. rewrite insert_insert_eq. auto 10.
Qed.

(** C9: a call of [knn_fit_control_points] that returns hands back the very
    object it was given, with the VAL column of that object replaced by the
    fitted values and every other object untouched; after a second call on
    the same object the object holds the values of the second fit only, and
    both returned references read those values. *)
Theorem knn_fit_overwrites_shared_object
    (src1 src2 : PointFrame) (l l1 l2 : loc) (k1 k2 : nat) (w w1 w2 : world) :
  knn_fit_control_points src1 l k1 w = (Ret l1, w1) ->
  knn_fit_control_points src2 l k2 w1 = (Ret l2, w2) ->
  exists controls v1 v2,
    heap w !! l = Some controls
    /\ knn_values src1 k1 controls = Ok v1
    /\ knn_values src2 k2 controls = Ok v2
    /\ l1 = l /\ l2 = l
    /\ heap w1 = <[l := with_VAL controls v1]> (heap w)
    /\ heap w2 = <[l := with_VAL controls v2]> (heap w)
    /\ heap w2 !! l1 = Some (with_VAL controls v2)
    /\ heap w2 !! l2 = Some (with_VAL controls v2).
Proof.
  intros H1 H2.
  destruct (knn_fit_overwrites_shared_object_aux _ _ _ _ _ _ _ _ _ _ H1 H2)
    as (controls & v1 & v2 & Hl & Hv1 & Hv2 & -> & -> & Hw1 & Hw2).
  exists controls, v1, v2. rewrite Hw2, lookup_insert_eq. auto 10.
Qed.

Lemma knn_fit_overwrites_shared_object_witness :
  exists controls v1 v2,
    heap world_land !! 1%positive = Some controls
    /\ knn_values fold1_train 1 controls = Ok v1
    /\ knn_values fold1_test 1 controls = Ok v2
    /\ 1%positive = 1%positive /\ 1%positive = 1%positive
    /\ heap (knn_fit_control_points fold1_train 1%positive 1 world_land).2
       = <[1%positive := with_VAL controls v1]> (heap world_land)
    /\ heap (knn_fit_control_points fold1_test 1%positive 1
               (knn_fit_control_points fold1_train 1%positive 1 world_land).2).2
       = <[1%positive := with_VAL controls v2]> (heap world_land)
    /\ heap (knn_fit_control_points fold1_test 1%positive 1
               (knn_fit_control_points fold1_train 1%positive 1 world_land).2).2
         !! 1%positive = Some (with_VAL controls v2)
    /\ heap (knn_fit_control_points fold1_test 1%positive 1
               (knn_fit_control_points fold1_train 1%positive 1 world_land).2).2
         !! 1%positive = Some (with_VAL controls v2).
Proof.
  apply (knn_fit_overwrites_shared_object fold1_train fold1_test
           1%positive 1%positive 1%positive 1 1 world_land); vm_compute; reflexivity.
Defined.

(** C2, as the code has it: with a control frame at hand, the call returns
    exactly when 1 <= k <= the number of complete training rows; a count
    above that number is passed on unchanged and the regressor raises
    ValueError.  The cap min(|test|, k) is computed by the harness for its
    test-fold call, and with it that call returns for every non-empty fold
    without missing values and every k >= 1. *)
Theorem knn_fit_neighbor_count_bound
    (src : PointFrame) (l : loc) (k : nat) (w : world) (controls : PointFrame) :
  heap w !! l = Some controls -> controls <> [] ->
  ((exists w', knn_fit_control_points src l k w = (Ret l, w'))
     <-> 1 <= k <= length (dropna src))
  /\ (dropna src <> [] -> length (dropna src) < k ->
        knn_fit_control_points src l k w
        = (Raise (ValueError "Expected n_neighbors <= n_samples_fit"),
           knn_failed w src))
  /\ (dropna src = src -> src <> [] -> 1 <= k ->
        exists w', knn_fit_control_points src l (ktest_of src k) w = (Ret l, w')).
Proof.
  intros Hl Hc.
  assert (Hiff : forall k', (exists w', knn_fit_control_points src l k' w = (Ret l, w'))
                            <-> 1 <= k' <= length (dropna src)).
  { intros k'. rewrite knn_fit_control_points_eq, Hl. split.
    - intros (w' & Hw').
      destruct (knn_values src k' controls) as [vs |] eqn:Hv; [| discriminate].
      apply (knn_values_Ok_iff src k' controls). eauto.
    - intros Hk.
      destruct (proj2 (knn_values_Ok_iff src k' controls) (conj Hk Hc)) as (vs & ->).
      eauto. }
  split; [apply Hiff |]. split.
  - intros Hsrc Hk. rewrite knn_fit_control_points_eq, Hl.
    now rewrite knn_values_too_many.
  - intros Hdrop Hsrc Hk. apply Hiff. rewrite Hdrop. unfold ktest_of.
    assert (0 < length src) by (destruct src; [congruence | simpl; lia]).
    destruct (Nat.ltb_spec (length src) k); lia.
Qed.

Lemma knn_fit_neighbor_count_bound_witness :
  ((exists w', knn_fit_control_points fold1_test 1%positive 3 world_land
               = (Ret 1%positive, w'))
     <-> 1 <= 3 <= length (dropna fold1_test))
  /\ (dropna fold1_test <> [] -> length (dropna fold1_test) < 3 ->
        knn_fit_control_points fold1_test 1%positive 3 world_land
        = (Raise (ValueError "Expected n_neighbors <= n_samples_fit"),
           knn_failed world_land fold1_test))
  /\ (dropna fold1_test = fold1_test -> fold1_test <> [] -> 1 <= 3 ->
        exists w', knn_fit_control_points fold1_test 1%positive
                     (ktest_of fold1_test 3) world_land = (Ret 1%positive, w')).
Proof.
  apply (knn_fit_neighbor_count_bound fold1_test 1%positive 3 world_land land1);
    [reflexivity | discriminate].
Defined.

(** C2, as stated, fails: two complete training rows and a request for
    three neighbors end in ValueError, although the same call with the
    count capped to two returns. *)
Lemma knn_fit_uncapped_raises :
  length (dropna fold1_test) = 2
  /\ (knn_fit_control_points fold1_test 1%positive 3 world_land).1
     = Raise (ValueError "Expected n_neighbors <= n_samples_fit")
  /\ (knn_fit_control_points fold1_test 1%positive 2 world_land).1
     = Ret 1%positive.
Proof. repeat split; vm_compute; reflexivity. Qed.

(* ================================================================== *)
(** * The training frame of a fold                                    *)
(* ================================================================== *)

Lemma pd_concat_points_train_land train l water w fitted :
  heap w !! l = Some fitted ->
  pd_concat_points
    (match water with
     | Some rows => (([] ++ [Imm train]) ++ [Ref l]) ++ [Imm rows]
     | None => ([] ++ [Imm train]) ++ [Ref l]
     end) w
  = (Ret (train ++ fitted ++ water_rows water), w).
Proof.
  intros Hl. destruct water as [rows |]; cbn [app pd_concat_points for_each deref water_rows];
    unfold bind, ret, load; rewrite Hl; cbn [app];
    now rewrite ?app_nil_r, <- ?app_assoc.
Qed.

(** In every fold with land controls, the training frame that is handed to
    the interpolation fit carries the control values fitted from the test
    split with the capped neighbor count: by the time [pd.concat] reads the
    shared object, the second KNN call has overwritten the first. *)
Lemma cv_training_set_land train test l water k w df_Train o w' :
  cv_training_set train test (Some l) water k w = (Ret (df_Train, o), w') ->
  exists controls v_train v_test,
    heap w !! l = Some controls
    /\ knn_values train k controls = Ok v_train
    /\ knn_values test (ktest_of test k) controls = Ok v_test
    /\ df_Train = train ++ with_VAL controls v_test ++ water_rows water
    /\ o = Some l
    /\ heap w' = <[l := with_VAL controls v_test]> (heap w).
Proof.
  unfold cv_training_set. cbv zeta. intros H.
  apply bind_inv_Ret in H as ([train_list o'] & w1 & Hknn & Hrest).
  apply bind_inv_Ret in Hknn as (lt & wa & Hk1 & Hknn).
  apply bind_inv_Ret in Hknn as (lt' & wb & Hk2 & Hret).
  injection Hret as <- <- <-.
  pose proof (knn_fit_overwrites_shared_object_aux train test l lt lt' k
                (ktest_of test k) w wa wb Hk1 Hk2)
    as (controls & v1 & v2 & Hl & Hv1 & Hv2 & -> & -> & Hwa & Hwb).
  exists controls, v1, v2. repeat (split; [assumption |]).
  apply bind_inv_Ret in Hrest as ([] & w2 & Hemit & Hrest).
  injection Hemit as <-.
  apply bind_inv_Ret in Hrest as (frame & w3 & Hcat & Hret).
  injection Hret as <- <-.
  rewrite (pd_concat_points_train_land train l water _ (with_VAL controls v2))
    in Hcat by (cbn [heap]; rewrite Hwb; apply lookup_insert_eq).
  injection Hcat as <- <-.
  subst w'. cbn [heap]. auto.
Qed.

(** C1, evaluated on the first fold of a 2-fold run over four stations with
    one land control and one neighbor.  The train split fits the control to
    4, the held-out split fits it to 2, and the training frame handed to the
    interpolation fit carries 2: the value fitted from the held-out fold. *)
Theorem cv_training_set_carries_test_fit :
  KFold_split (mkKFold 2) (length (dropna stations4))
    = Ok [([2; 3], [0; 1]); ([0; 1], [2; 3])]
  /\ iloc (dropna stations4) [2; 3] = Ok fold1_train
  /\ iloc (dropna stations4) [0; 1] = Ok fold1_test
  /\ knn_values fold1_train 1 land1 = Ok [4%Q]
  /\ knn_values fold1_test (ktest_of fold1_test 1) land1 = Ok [2%Q]
  /\ (cv_training_set fold1_train fold1_test (Some 1%positive) None 1 world_land).1
     = Ret (fold1_train ++ [mkPoint 2 2 (Some 2%Q)], Some 1%positive)
  /\ fold1_train ++ [mkPoint 2 2 (Some 2%Q)]
     <> fold1_train ++ with_VAL land1 [4%Q].
Proof.
  repeat split; try (vm_compute; reflexivity).
  vm_compute. discriminate.
Qed.

(* ================================================================== *)
(** * The dataset combiner                                            *)
(* ================================================================== *)

Lemma getitem_columns_world df names w :
  (exists out, getitem_columns df names w = (Ret out, w))
  \/ (exists e, getitem_columns df names w = (Raise e, w)).
Proof.
  unfold getitem_columns. destruct (List.filter _ names); [left | right]; eauto.
Qed.

Lemma getitem_columns_lacking df w :
  lacks_field df ->
  exists e, getitem_columns df ["LON"; "LAT"; "VAL"] w = (Raise e, w).
Proof.
  intros (name & Hin & Hmem). unfold getitem_columns.
  destruct (List.filter _ _) as [| m ms] eqn:Hf; [| eauto].
  exfalso.
  assert (Hin' : In name (List.filter (fun n => negb (mem n (columns df)))
                            ["LON"; "LAT"; "VAL"])).
  { apply filter_In. split; [now apply list_elem_of_In | now rewrite Hmem]. }
  rewrite Hf in Hin'. destruct Hin'.
Qed.

(** The projection loop of the combiner raises as soon as a frame lacks a
    required field, and nothing it does before that changes the world. *)
Lemma combine_loop_raises (list_dfs : list DataFrame) acc w :
  (exists df, df ∈ list_dfs /\ lacks_field df) ->
  exists e,
    for_each list_dfs
      (fun df filtered_dataframes =>
         let! projected := getitem_columns df ["LON"; "LAT"; "VAL"] in
         ret (filtered_dataframes ++ [projected])) acc w
    = (Raise e, w).
Proof.
  revert acc. induction list_dfs as [| df dfs IH]; intros acc (bad & Hin & Hbad).
  - now apply elem_of_nil in Hin.
  - cbn [for_each].
    destruct (getitem_columns_world df ["LON"; "LAT"; "VAL"] w)
      as [(out & Hout) | (e & He)].
    + apply elem_of_cons in Hin as [-> | Hin].
      * destruct (getitem_columns_lacking df w Hbad) as (e & He). congruence.
      * unfold bind at 1. unfold bind at 1. rewrite Hout. cbn [ret].
        apply IH. eauto.
    + exists e. unfold bind at 1. unfold bind at 1. now rewrite He.
Qed.

(** Whenever an input frame lacks one of LON, LAT, VAL, the combiner ends
    with the uncaught NameError of the handler's first statement; the only
    log record it has written is its opening one. *)
Lemma combine_lacking_field_NameError (list_dfs : list DataFrame) w :
  (exists df, df ∈ list_dfs /\ lacks_field df) ->
  combine_datasets_for_interpolation list_dfs w
  = (Raise (NameError "template"), combine_started w (length list_dfs)).
Proof.
  intros Hbad. unfold combine_datasets_for_interpolation.
  unfold bind at 1. unfold emit at 1. unfold bind at 1. unfold try_except.
  destruct (combine_loop_raises list_dfs []
              (mkWorld (log w ++ [(INFO, Combining (length list_dfs))]) (heap w) (fs w))
              Hbad) as (e & ->).
  reflexivity.
Qed.

(** C6, evaluated on a single frame with the columns LON and LAT: the call
    ends with NameError('template') raised inside the except clause; the
    warning that names the violation is never logged, and [sys.exit(1)] is
    never reached. *)
Theorem combine_without_val_raises_NameError :
  lacks_field frame_without_val
  /\ combine_datasets_for_interpolation [frame_without_val] world0
     = (Raise (NameError "template"), mkWorld [(INFO, Combining 1)] ∅ ∅)
  /\ (forall ex, (WARN, FailedConcat ex)
                 ∉ log (combine_datasets_for_interpolation [frame_without_val] world0).2)
  /\ (combine_datasets_for_interpolation [frame_without_val] world0).1 <> Exit 1.
Proof.
  split.
  { exists "VAL". split; [set_solver | reflexivity]. }
  split; [reflexivity |]. split.
  - intros ex Hin. cbn in Hin. apply list_elem_of_singleton in Hin. discriminate.
  - discriminate.
Qed.

(* ================================================================== *)
(** * The control-file loader                                         *)
(* ================================================================== *)

Lemma collect_is_filter (p : string -> bool) (l acc : list string) :
  fold_left (fun col_headers item =>
               if p item then col_headers ++ [item] else col_headers) l acc
  = acc ++ List.filter p l.
Proof.
  revert acc. induction l as [| x l IH]; intros acc; simpl.
  - now rewrite app_nil_r.
  - rewrite IH. destruct (p x); [now rewrite <- app_assoc | reflexivity].
Qed.

Lemma recognized_length (cols : list string) :
  length (recognized cols)
  = count_label "LON" cols + count_label "LAT" cols + count_label "VAL" cols.
Proof.
  unfold recognized, count_label, is_control_header.
  induction cols as [| c cols IH]; [reflexivity |]. cbn [List.filter].
  destruct (String.eqb_spec c "LON") as [-> | ?];
    [cbn; lia |].
  destruct (String.eqb_spec c "LAT") as [-> | ?];
    [cbn; lia |].
  destruct (String.eqb_spec c "VAL") as [-> | ?]; cbn; lia.
Qed.

Lemma mem_count_label (name : string) (cols : list string) :
  mem name cols = true <-> 0 < count_label name cols.
Proof.
  unfold mem, count_label. induction cols as [| c cols IH]; simpl.
  - split; [discriminate | lia].
  - rewrite (String.eqb_sym name c). destruct (String.eqb c name); simpl.
    + split; [lia | reflexivity].
    + exact IH.
Qed.

Lemma positions_labels (name : string) (pre cols : list string) :
  map (fun i => nth i (pre ++ cols) "") (positions name cols (length pre))
  = replicate (count_label name cols) name.
Proof.
  unfold count_label. revert pre. induction cols as [| c cols IH]; intros pre.
  - reflexivity.
  - cbn [positions List.filter].
    specialize (IH (pre ++ [c])). rewrite length_app, Nat.add_1_r in IH.
    rewrite <- app_assoc in IH. cbn [app] in IH.
    destruct (String.eqb_spec c name) as [-> | Hne]; cbn [map length replicate].
    + rewrite IH. f_equal. rewrite app_nth2 by lia. now rewrite Nat.sub_diag.
    + exact IH.
Qed.

(** What the loader does with a file it can read. *)
Lemma get_lon_lat_control_values_eq fname header_data w df :
  fs w !! fname = Some df ->
  get_lon_lat_control_values (Some fname) header_data w
  = if negb (length (recognized (normalized_headers header_data (columns df))) =? 3)
    then (Exit 1, headers_rejected w fname (normalized_headers header_data (columns df)))
    else getitem_columns
           (mkDataFrame (normalized_headers header_data (columns df)) (rows df))
           ["LON"; "LAT"; "VAL"] w.
Proof.
  intros Hf. unfold get_lon_lat_control_values.
  unfold bind at 1. unfold read_csv. rewrite Hf. cbv zeta.
  cbn [set_columns rename_columns columns rows].
  rewrite collect_is_filter. cbn [app].
  fold (normalized_headers header_data (columns df)).
  fold (recognized (normalized_headers header_data (columns df))).
  destruct (negb _); reflexivity.
Qed.

Lemma getitem_columns_each_once cols rs w :
  each_once cols ->
  exists out, getitem_columns (mkDataFrame cols rs) ["LON"; "LAT"; "VAL"] w = (Ret out, w)
              /\ columns out = ["LON"; "LAT"; "VAL"].
Proof.
  intros (Hlon & Hlat & Hval). unfold getitem_columns. cbn [columns rows List.filter].
  rewrite (proj2 (mem_count_label "LON" cols)) by lia.
  rewrite (proj2 (mem_count_label "LAT" cols)) by lia.
  rewrite (proj2 (mem_count_label "VAL" cols)) by lia.
  cbn [negb]. eexists. split; [reflexivity |]. cbn [columns flat_map].
  rewrite app_nil_r, !map_app.
  rewrite !(positions_labels _ [] cols), Hlon, Hlat, Hval. reflexivity.
Qed.

Lemma getitem_columns_Ret_present cols rs w out w' :
  getitem_columns (mkDataFrame cols rs) ["LON"; "LAT"; "VAL"] w = (Ret out, w') ->
  0 < count_label "LON" cols /\ 0 < count_label "LAT" cols
  /\ 0 < count_label "VAL" cols.
Proof.
  unfold getitem_columns. cbn [columns List.filter]. rewrite <- !mem_count_label.
  destruct (mem "LON" cols), (mem "LAT" cols), (mem "VAL" cols);
    cbn [negb]; intros H; try discriminate H. auto.
Qed.

(** The loader returns exactly when each of LON, LAT, VAL labels one and
    only one column after normalization, and then the frame it returns has
    the columns LON, LAT, VAL and nothing is logged; whenever the number of
    recognized labels, counted with repetitions, is not three it logs the
    header and exits with status 1, which is the case of a header with one
    longitude and one latitude label and no value label. *)
Lemma control_headers_each_once
    (fname header_data : string) (w : world) (df : DataFrame) :
  fs w !! fname = Some df ->
  ((exists out w', get_lon_lat_control_values (Some fname) header_data w = (Ret out, w'))
     <-> each_once (normalized_headers header_data (columns df)))
  /\ (forall out w',
        get_lon_lat_control_values (Some fname) header_data w = (Ret out, w') ->
        columns out = ["LON"; "LAT"; "VAL"] /\ w' = w)
  /\ (length (recognized (normalized_headers header_data (columns df))) <> 3 ->
        get_lon_lat_control_values (Some fname) header_data w
        = (Exit 1, headers_rejected w fname (normalized_headers header_data (columns df))))
  /\ (count_label "LON" (normalized_headers header_data (columns df)) = 1 ->
      count_label "LAT" (normalized_headers header_data (columns df)) = 1 ->
      count_label "VAL" (normalized_headers header_data (columns df)) = 0 ->
        get_lon_lat_control_values (Some fname) header_data w
        = (Exit 1, headers_rejected w fname (normalized_headers header_data (columns df)))).
Proof.
  intros Hf. rewrite (get_lon_lat_control_values_eq fname header_data w df Hf).
  set (cols := normalized_headers header_data (columns df)).
  pose proof (recognized_length cols) as Hlen.
  assert (Hret : forall out w',
             (if negb (length (recognized cols) =? 3)
              then (Exit 1, headers_rejected w fname cols)
              else getitem_columns (mkDataFrame cols (rows df)) ["LON"; "LAT"; "VAL"] w)
             = (Ret out, w') -> each_once cols).
  { intros out w'. destruct (Nat.eqb_spec (length (recognized cols)) 3) as [H3 | H3];
      cbn [negb]; [| discriminate].
    intros H. apply getitem_columns_Ret_present in H. unfold each_once. lia. }
  split; [split |].
  - intros (out & w' & H). eauto.
  - intros Honce. pose proof Honce as (Hlon & Hlat & Hval).
    destruct (Nat.eqb_spec (length (recognized cols)) 3) as [H3 | H3]; [| lia].
    cbn [negb].
    destruct (getitem_columns_each_once cols (rows df) w Honce) as (out & -> & _).
    eauto.
  - split; [| split].
    + intros out w' H. pose proof (Hret out w' H) as Honce.
      pose proof Honce as (Hlon & Hlat & Hval).
      destruct (Nat.eqb_spec (length (recognized cols)) 3) as [H3 | H3]; [| lia].
      cbn [negb] in H.
      destruct (getitem_columns_each_once cols (rows df) w Honce) as (out' & Hout & Hc).
      rewrite Hout in H. now injection H as <- <-.
    + intros H3. destruct (Nat.eqb_spec (length (recognized cols)) 3); [lia | reflexivity].
    + intros Hlon Hlat Hval.
      destruct (Nat.eqb_spec (length (recognized cols)) 3); [lia | reflexivity].
Qed.

Lemma control_headers_each_once_witness :
  ((exists out w', get_lon_lat_control_values (Some "controls.csv") "val"
                     (world_csv csv_lon_lat) = (Ret out, w'))
     <-> each_once (normalized_headers "val" (columns csv_lon_lat)))
  /\ (forall out w',
        get_lon_lat_control_values (Some "controls.csv") "val" (world_csv csv_lon_lat)
        = (Ret out, w') ->
        columns out = ["LON"; "LAT"; "VAL"] /\ w' = world_csv csv_lon_lat)
  /\ (length (recognized (normalized_headers "val" (columns csv_lon_lat))) <> 3 ->
        get_lon_lat_control_values (Some "controls.csv") "val" (world_csv csv_lon_lat)
        = (Exit 1, headers_rejected (world_csv csv_lon_lat) "controls.csv"
                     (normalized_headers "val" (columns csv_lon_lat))))
  /\ (count_label "LON" (normalized_headers "val" (columns csv_lon_lat)) = 1 ->
      count_label "LAT" (normalized_headers "val" (columns csv_lon_lat)) = 1 ->
      count_label "VAL" (normalized_headers "val" (columns csv_lon_lat)) = 0 ->
        get_lon_lat_control_values (Some "controls.csv") "val" (world_csv csv_lon_lat)
        = (Exit 1, headers_rejected (world_csv csv_lon_lat) "controls.csv"
                     (normalized_headers "val" (columns csv_lon_lat)))).
Proof.
  apply (control_headers_each_once "controls.csv" "val" (world_csv csv_lon_lat)
           csv_lon_lat).
  reflexivity.
Defined.

(** The test of the loader counts the recognized labels.  A header that
    has three of them without having each of LON, LAT, VAL once passes the
    test; the projection that follows then raises KeyError for the labels
    that are absent, and the loader has neither logged the header nor
    exited. *)
Lemma control_headers_count_slip fname header_data w df :
  fs w !! fname = Some df ->
  length (recognized (normalized_headers header_data (columns df))) = 3 ->
  ~ each_once (normalized_headers header_data (columns df)) ->
  exists missing,
    missing <> []
    /\ (forall name,
          name ∈ missing
          <-> name ∈ ["LON"; "LAT"; "VAL"]
              /\ count_label name (normalized_headers header_data (columns df)) = 0)
    /\ get_lon_lat_control_values (Some fname) header_data w
       = (Raise (KeyErrorNotInIndex missing), w).
Proof.
  intros Hf H3 Hnot. rewrite (get_lon_lat_control_values_eq fname header_data w df Hf).
  set (cols := normalized_headers header_data (columns df)) in *.
  rewrite H3. cbn [Nat.eqb negb]. unfold getitem_columns. cbn [columns].
  set (missing := List.filter (fun n => negb (mem n cols)) ["LON"; "LAT"; "VAL"]).
  assert (Hmem : forall name,
             name ∈ missing
             <-> name ∈ ["LON"; "LAT"; "VAL"] /\ count_label name cols = 0).
  { intros name. unfold missing.
    rewrite list_elem_of_In, filter_In, <- list_elem_of_In.
    rewrite negb_true_iff, <- not_true_iff_false, mem_count_label. intuition lia. }
  exists missing. split; [| split; [exact Hmem |]].
  - intros Hnil. apply Hnot. pose proof (recognized_length cols) as Hlen.
    assert (Hpos : forall name, name ∈ ["LON"; "LAT"; "VAL"] ->
                                0 < count_label name cols).
    { intros name Hin. destruct (count_label name cols) eqn:Hc; [| lia].
      assert (Hin' : name ∈ missing) by (apply Hmem; auto).
      rewrite Hnil in Hin'. now apply elem_of_nil in Hin'. }
    pose proof (Hpos "LON" ltac:(rewrite !elem_of_cons; auto)).
    pose proof (Hpos "LAT" ltac:(rewrite !elem_of_cons; auto)).
    pose proof (Hpos "VAL" ltac:(rewrite !elem_of_cons; auto)).
    unfold each_once. lia.
  - destruct missing as [| m ms] eqn:Hm; [| reflexivity].
    exfalso. apply Hnot. pose proof (recognized_length cols) as Hlen.
    assert (Hpos : forall name, name ∈ ["LON"; "LAT"; "VAL"] ->
                                0 < count_label name cols).
    { intros name Hin. destruct (count_label name cols) eqn:Hc; [| lia].
      assert (Hin' : name ∈ @nil string) by (apply Hmem; auto).
      now apply elem_of_nil in Hin'. }
    pose proof (Hpos "LON" ltac:(rewrite !elem_of_cons; auto)).
    pose proof (Hpos "LAT" ltac:(rewrite !elem_of_cons; auto)).
    pose proof (Hpos "VAL" ltac:(rewrite !elem_of_cons; auto)).
    unfold each_once. lia.
Qed.

(** C7, evaluated on a control file with the header [lon, Lon, val].  After
    normalization the labels are LON, LON, VAL: three recognized labels, so
    the count test of the loader lets the file through although no column
    is labelled LAT; the projection on LON, LAT, VAL then raises KeyError.
    The loader ends with that uncaught exception, having logged nothing:
    the header is not rejected with the record and the exit status the
    loader has for a header that lacks a label. *)
Theorem control_header_repeated_label_KeyError :
  normalized_headers "val" (columns csv_lon_twice) = ["LON"; "LON"; "VAL"]
  /\ length (recognized (normalized_headers "val" (columns csv_lon_twice))) = 3
  /\ count_label "LAT" (normalized_headers "val" (columns csv_lon_twice)) = 0
  /\ get_lon_lat_control_values (Some "controls.csv") "val" (world_csv csv_lon_twice)
     = (Raise (KeyErrorNotInIndex ["LAT"]), world_csv csv_lon_twice)
  /\ log (world_csv csv_lon_twice) = []
  /\ get_lon_lat_control_values (Some "controls.csv") "val" (world_csv csv_lon_twice)
     <> (Exit 1, headers_rejected (world_csv csv_lon_twice) "controls.csv"
                   ["LON"; "LON"; "VAL"]).
Proof.
  repeat split; try reflexivity.
  vm_compute. discriminate.
Qed.

(* ================================================================== *)
(** * Score dictionaries                                              *)
(* ================================================================== *)

Lemma dict_get_set (d : pydict) k v k' :
  dict_get (dict_set d k v) k'
  = if String.eqb k k' then Some v else dict_get d k'.
Proof.
  induction d as [| [k0 v0] d IH]; simpl.
  - reflexivity.
  - destruct (String.eqb_spec k0 k) as [-> | Hne]; simpl.
    + destruct (String.eqb k k'); reflexivity.
    + rewrite IH. destruct (String.eqb_spec k0 k') as [-> | Hne'].
      * destruct (String.eqb_spec k k'); [congruence | reflexivity].
      * reflexivity.
Qed.

Lemma dict_get_set_eq (d : pydict) k v : dict_get (dict_set d k v) k = Some v.
Proof. now rewrite dict_get_set, String.eqb_refl. Qed.

Lemma dict_get_set_ne (d : pydict) k v k' :
  k <> k' -> dict_get (dict_set d k v) k' = dict_get d k'.
Proof. intros H. rewrite dict_get_set. now apply String.eqb_neq in H as ->. Qed.

Lemma dict_get_None (d : pydict) k : k ∉ dict_keys d -> dict_get d k = None.
Proof.
  induction d as [| [k0 v0] d IH]; simpl; intros Hk; [reflexivity |].
  apply not_elem_of_cons in Hk as [Hne Hk].
  destruct (String.eqb_spec k0 k); [congruence | auto].
Qed.

Lemma dict_set_keys (d : pydict) k v :
  dict_keys (dict_set d k v)
  = if bool_decide (k ∈ dict_keys d) then dict_keys d else dict_keys d ++ [k].
Proof.
  induction d as [| [k0 v0] d IH]; simpl.
  - reflexivity.
  - destruct (String.eqb_spec k0 k) as [-> | Hne]; simpl.
    + rewrite bool_decide_eq_true_2 by (apply elem_of_cons; now left). reflexivity.
    + rewrite IH. destruct (bool_decide_reflect (k ∈ dict_keys d)) as [Hin | Hin].
      * rewrite bool_decide_eq_true_2 by (apply elem_of_cons; now right). reflexivity.
      * rewrite bool_decide_eq_false_2; [reflexivity |].
        intros [? | ?]%elem_of_cons; congruence.
Qed.

Lemma dict_set_NoDup (d : pydict) k v :
  NoDup (dict_keys d) -> NoDup (dict_keys (dict_set d k v)).
Proof.
  intros Hnd. rewrite dict_set_keys.
  destruct (bool_decide_reflect (k ∈ dict_keys d)); [assumption |].
  apply NoDup_app. split; [assumption |]. split.
  - intros x Hx Hx'. apply list_elem_of_singleton in Hx'. congruence.
  - apply NoDup_singleton.
Qed.

Lemma dict_set_fresh (d : pydict) k v :
  k ∉ dict_keys d -> dict_set d k v = d ++ [(k, v)].
Proof.
  induction d as [| [k0 v0] d IH]; simpl; intros Hk; [reflexivity |].
  apply not_elem_of_cons in Hk as [Hne Hk].
  destruct (String.eqb_spec k0 k); [congruence |]. now rewrite IH.
Qed.

(** [{**a, **b}]: the entries of [b] win. *)
Lemma dict_get_merge (a b : pydict) k :
  NoDup (dict_keys b) ->
  dict_get (dict_merge a b) k
  = match dict_get b k with
    | Some v => Some v
    | None => dict_get a k
    end.
Proof.
  unfold dict_merge. revert a. induction b as [| [k0 v0] b IH]; intros a Hnd; simpl.
  - reflexivity.
  - apply NoDup_cons in Hnd as [Hk0 Hnd]. rewrite IH by assumption.
    destruct (String.eqb_spec k0 k) as [-> | Hne].
    + rewrite (dict_get_None b k Hk0). apply dict_get_set_eq.
    + destruct (dict_get b k); [reflexivity |]. now apply dict_get_set_ne.
Qed.

Section Keyed.

Variable key : nat -> string.
Hypothesis key_inj : forall i j, key i = key j -> i = j.

Lemma keyed_get (f : nat -> pyval) (l : list nat) i :
  i ∈ l -> dict_get (map (fun i => (key i, f i)) l) (key i) = Some (f i).
Proof.
  induction l as [| j l IH]; simpl; intros Hin.
  - now apply elem_of_nil in Hin.
  - destruct (String.eqb_spec (key j) (key i)) as [Heq | Hne].
    + now apply key_inj in Heq as ->.
    + apply elem_of_cons in Hin as [-> | Hin]; [congruence | auto].
Qed.

Lemma keyed_keys (f : nat -> pyval) (l : list nat) :
  dict_keys (map (fun i => (key i, f i)) l) = map key l.
Proof. unfold dict_keys. rewrite map_map. reflexivity. Qed.

Lemma keyed_NoDup (f : nat -> pyval) (l : list nat) :
  NoDup l -> NoDup (dict_keys (map (fun i => (key i, f i)) l)).
Proof.
  intros Hnd. rewrite keyed_keys. apply NoDup_fmap_2; [| assumption].
  intros i j. apply key_inj.
Qed.

Lemma keyed_set (f g : nat -> pyval) (l : list nat) j :
  NoDup l -> j ∈ l -> (forall i, i ∈ l -> i <> j -> g i = f i) ->
  dict_set (map (fun i => (key i, f i)) l) (key j) (g j)
  = map (fun i => (key i, g i)) l.
Proof.
  induction l as [| i l IH]; simpl; intros Hnd Hin Hg.
  - now apply elem_of_nil in Hin.
  - apply NoDup_cons in Hnd as [Hi Hnd].
    destruct (String.eqb_spec (key i) (key j)) as [Heq | Hne].
    + apply key_inj in Heq as ->. f_equal.
      apply map_ext_in. intros i Hil. f_equal. symmetry. apply Hg.
      * apply elem_of_cons. right. now apply list_elem_of_In.
      * intros ->. apply Hi. now apply list_elem_of_In.
    + apply elem_of_cons in Hin as [-> | Hin]; [congruence |].
      rewrite (Hg i); [| apply elem_of_cons; now left | congruence].
      f_equal. apply IH; auto.
      intros i' Hi' Hne'. apply Hg; [apply elem_of_cons; now right | assumption].
Qed.

Lemma keyed_dict_of (f : nat -> pyval) (l : list nat) (d : pydict) :
  NoDup l -> (forall i, i ∈ l -> key i ∉ dict_keys d) ->
  fold_left (fun d kv => dict_set d kv.1 kv.2) (map (fun i => (key i, f i)) l) d
  = d ++ map (fun i => (key i, f i)) l.
Proof.
  revert d. induction l as [| i l IH]; intros d Hnd Hfresh; simpl.
  - now rewrite app_nil_r.
  - apply NoDup_cons in Hnd as [Hi Hnd].
    rewrite dict_set_fresh by (apply Hfresh, elem_of_cons; now left).
    rewrite IH; [now rewrite <- app_assoc | assumption |].
    intros j Hj. unfold dict_keys. rewrite map_app. simpl.
    intros [Hin | Hin]%elem_of_app.
    + apply (Hfresh j); [apply elem_of_cons; now right | exact Hin].
    + apply list_elem_of_singleton in Hin. apply key_inj in Hin as ->. auto.
Qed.

Lemma scored_initial (K : nat) :
  dict_of (map (fun i => (key i, PList [])) (seq 1 K)) = scored key K [].
Proof.
  unfold dict_of. rewrite keyed_dict_of.
  - reflexivity.
  - apply NoDup_seq.
  - intros i _ Hin. now apply elem_of_nil in Hin.
Qed.

Lemma scored_get (K : nat) (ss : list Q) i :
  1 <= i <= K -> dict_get (scored key K ss) (key i) = Some (fold_entry ss i).
Proof.
  intros Hi. unfold scored. apply (keyed_get (fold_entry ss)).
  apply elem_of_seq. lia.
Qed.

Lemma scored_get_other (K : nat) (ss : list Q) k :
  (forall i, key i <> k) -> dict_get (scored key K ss) k = None.
Proof.
  intros Hk. apply dict_get_None. unfold scored. rewrite keyed_keys.
  intros (i & Heq & _)%list_elem_of_fmap. now apply (Hk i).
Qed.

Lemma scored_NoDup (K : nat) (ss : list Q) : NoDup (dict_keys (scored key K ss)).
Proof. apply keyed_NoDup, NoDup_seq. Qed.

(** Appending the score of the next fold. *)
Lemma scored_append (K : nat) (ss : list Q) (x : Q) :
  length ss < K ->
  dict_list_append (scored key K ss) (key (S (length ss))) x
  = Ok (scored key K (ss ++ [x])).
Proof.
  intros Hlen. unfold dict_list_append.
  rewrite scored_get by lia. unfold fold_entry at 1.
  replace (S (length ss) - 1) with (length ss) by lia.
  rewrite (lookup_ge_None_2 ss (length ss)) by lia. cbn [app].
  f_equal. unfold scored.
  replace (PList [x]) with (fold_entry (ss ++ [x]) (S (length ss))).
  - apply (keyed_set (fold_entry ss) (fold_entry (ss ++ [x]))).
    + apply NoDup_seq.
    + apply elem_of_seq. lia.
    + intros i Hi Hne. apply elem_of_seq in Hi. unfold fold_entry.
      destruct (decide (i - 1 < length ss)) as [Hlt | Hge].
      * now rewrite lookup_app_l by assumption.
      * rewrite (lookup_ge_None_2 ss) by lia.
        rewrite lookup_ge_None_2; [reflexivity |].
        rewrite length_app. simpl. lia.
  - unfold fold_entry. replace (S (length ss) - 1) with (length ss) by lia.
    rewrite lookup_app_r by lia. now rewrite Nat.sub_diag.
Qed.

Lemma scored_values (K : nat) (ss : list Q) :
  length ss = K ->
  dict_values (scored key K ss) = map (fun s => PList [s]) ss.
Proof.
  intros Hlen. unfold dict_values, scored. rewrite map_map. cbn [snd].
  subst K. apply list_eq. intros i.
  rewrite !list_lookup_fmap.
  destruct (decide (i < length ss)) as [Hlt | Hge].
  - rewrite lookup_seq_lt by assumption. cbn [fmap option_fmap option_map].
    unfold fold_entry. replace (1 + i - 1) with i by lia.
    destruct (lookup_lt_is_Some_2 ss i Hlt) as (s & ->). reflexivity.
  - rewrite lookup_seq_ge by lia. now rewrite (lookup_ge_None_2 ss) by lia.
Qed.

End Keyed.

Lemma fold_key_inj i j : fold_key i = fold_key j -> i = j.
Proof. unfold fold_key. cbn. intros [= H]. now apply (inj pretty). Qed.

Lemma cnrl_fold_key_inj i j : cnrl_fold_key i = cnrl_fold_key j -> i = j.
Proof. unfold cnrl_fold_key. cbn. intros [= H]. now apply (inj pretty). Qed.

(** The keys of the two series and of the summaries never collide. *)
Ltac distinct_keys := unfold fold_key, cnrl_fold_key; cbn; discriminate.

(** The builtin [min] over one-element lists of floats picks a list whose
    element is a least one. *)
Lemma min_from_singletons (b : Q) (l : list Q) :
  exists m, min_from (PList [b]) (map (fun s => PList [s]) l) = Ok (PList [m])
            /\ m ∈ b :: l /\ forall s, s ∈ b :: l -> (m <= s)%Q.
Proof.
  revert b. induction l as [| s l IH]; intros b; cbn [map min_from].
  - exists b. split; [reflexivity |]. split; [apply elem_of_cons; now left |].
    intros s [-> | Hs]%elem_of_cons; [apply Qle_refl | now apply elem_of_nil in Hs].
  - cbn [pyval_lt list_lt].
    destruct (Qeq_bool s b) eqn:Heq.
    + apply Qeq_bool_iff in Heq.
      destruct (IH b) as (m & Hm & Hin & Hle). exists m. split; [exact Hm |]. split.
      * apply elem_of_cons in Hin as [-> | Hin];
          [apply elem_of_cons; now left | do 2 (apply elem_of_cons; right); exact Hin].
      * intros x [-> | [-> | Hx]%elem_of_cons]%elem_of_cons.
        -- apply Hle, elem_of_cons. now left.
        -- rewrite Heq. apply Hle, elem_of_cons. now left.
        -- apply Hle, elem_of_cons. now right.
    + destruct (Qle_bool b s) eqn:Hbs; cbn [negb].
      * apply Qle_bool_iff in Hbs.
        destruct (IH b) as (m & Hm & Hin & Hle). exists m. split; [exact Hm |]. split.
        -- apply elem_of_cons in Hin as [-> | Hin];
             [apply elem_of_cons; now left | do 2 (apply elem_of_cons; right); exact Hin].
        -- intros x [-> | [-> | Hx]%elem_of_cons]%elem_of_cons.
           ++ apply Hle, elem_of_cons. now left.
           ++ apply Qle_trans with b; [apply Hle, elem_of_cons; now left | exact Hbs].
           ++ apply Hle, elem_of_cons. now right.
      * assert (Hsb : (s <= b)%Q).
        { apply Qlt_le_weak, Qnot_le_lt. intros H. apply Qle_bool_iff in H. congruence. }
        destruct (IH s) as (m & Hm & Hin & Hle). exists m. split; [exact Hm |]. split.
        -- apply elem_of_cons. right. exact Hin.
        -- intros x [-> | Hx]%elem_of_cons.
           ++ apply Qle_trans with s; [apply Hle, elem_of_cons; now left | exact Hsb].
           ++ apply Hle. exact Hx.
Qed.

Lemma py_min_singletons (ss : list Q) :
  ss <> [] ->
  exists m, py_min (map (fun s => PList [s]) ss) = Ok (PList [m])
            /\ m ∈ ss /\ forall s, s ∈ ss -> (m <= s)%Q.
Proof.
  destruct ss as [| b l]; [congruence |]. intros _. apply min_from_singletons.
Qed.

Lemma lift_inv_Ret {A} (r : result A) w a w' :
  lift r w = (Ret a, w') -> r = Ok a /\ w' = w.
Proof. destruct r; cbn; intros [= <- <-]; auto. Qed.

(** The averaging loop: it leaves every key but [total] as it was and
    stores under [total] the float total of the first items of the K fold
    lists, added in fold order; the division by [float(K)] follows. *)
Lemma accumulate_average_loop (d : pydict) total (key : nat -> string) (xs : list Q) w :
  (forall i x, xs !! i = Some x ->
     exists rest, dict_get d (key (S i)) = Some (PList (x :: rest))) ->
  (forall i, key i <> total) ->
  forall n j acc dj,
    j + n = length xs ->
    dict_get dj total = Some (PFloat acc) ->
    (forall k', k' <> total -> dict_get dj k' = dict_get d k') ->
    NoDup (dict_keys dj) ->
    exists d',
      for_each (seq (S j) n)
        (fun i d =>
           let! acc := lift (dict_float d total) in
           let! x := lift (dict_list_first d (key i)) in
           ret (dict_set d total (PFloat (float_add acc x)))) dj w = (Ret d', w)
      /\ dict_get d' total = Some (PFloat (fold_left float_add (drop j xs) acc))
      /\ (forall k', k' <> total -> dict_get d' k' = dict_get d k')
      /\ NoDup (dict_keys d').
Proof.
  intros Hfold Hkey. induction n as [| n IH]; intros j acc dj Hlen Hacc Hrest Hnd.
  - exists dj. rewrite drop_ge by lia. auto.
  - destruct (lookup_lt_is_Some_2 xs j ltac:(lia)) as (x & Hx).
    destruct (Hfold j x Hx) as (rest & Hget).
    cbn [seq for_each]. unfold bind at 1. unfold bind at 1.
    unfold dict_float at 1. rewrite Hacc. cbn [lift ret].
    unfold bind at 1. unfold dict_list_first at 1.
    rewrite Hrest by apply Hkey. rewrite Hget. cbn [lift ret].
    destruct (IH (S j) (float_add acc x)
                (dict_set dj total (PFloat (float_add acc x))))
      as (d' & Hloop & Htotal & Hother & Hnd').
    + lia.
    + apply dict_get_set_eq.
    + intros k' Hk'. rewrite dict_get_set_ne by congruence. now apply Hrest.
    + now apply dict_set_NoDup.
    + exists d'. split; [exact Hloop |]. split; [| auto].
      rewrite Htotal. now rewrite (drop_S xs x j Hx).
Qed.

Lemma accumulate_average_spec (d : pydict) total (key : nat -> string) K (xs : list Q) w :
  K <> 0 -> length xs = K ->
  (forall i x, xs !! i = Some x ->
     exists rest, dict_get d (key (S i)) = Some (PList (x :: rest))) ->
  (forall i, key i <> total) ->
  NoDup (dict_keys d) ->
  exists d',
    accumulate_average d total key K w = (Ret d', w)
    /\ dict_get d' total = Some (PFloat (float_mean xs K))
    /\ (forall k', k' <> total -> dict_get d' k' = dict_get d k')
    /\ NoDup (dict_keys d').
Proof.
  intros HK Hlen Hfold Hkey Hnd. unfold accumulate_average, float_mean. cbv zeta.
  destruct (accumulate_average_loop d total key xs w Hfold Hkey K 0 0%Q
              (dict_set d total (PFloat 0)))
    as (d1 & Hloop & Htotal & Hother & Hnd1).
  - lia.
  - apply dict_get_set_eq.
  - intros k' Hk'. now apply dict_get_set_ne.
  - now apply dict_set_NoDup.
  - unfold bind at 1. rewrite Hloop. unfold bind at 1.
    unfold dict_float. rewrite Htotal. cbn [lift ret].
    destruct (Nat.eqb_spec K 0); [congruence |].
    eexists. split; [reflexivity |]. split; [apply dict_get_set_eq |]. split.
    + intros k' Hk'. rewrite dict_get_set_ne by congruence. now apply Hother.
    + now apply dict_set_NoDup.
Qed.

(* ================================================================== *)
(** * The cross-validation report                                     *)
(* ================================================================== *)

Section Report.

Variable LinearNDInterpolator :
  list Q -> list Q -> list (option Q) -> Q -> result Model.
Variable CloughTocher2DInterpolator :
  list Q -> list Q -> list (option Q) -> Q -> result Model.

Lemma KFold_init_Ok K kf : KFold_init K = Ok kf -> 2 <= K /\ kf = mkKFold K.
Proof.
  unfold KFold_init. destruct (Nat.ltb_spec K 2); [discriminate |].
  intros [= <-]. auto.
Qed.

Lemma KFold_split_length K n splits :
  KFold_split (mkKFold K) n = Ok splits -> length splits = K.
Proof.
  unfold KFold_split. cbn [n_splits]. destruct (n <? K); [discriminate |].
  intros [= <-]. now rewrite length_map, test_ranges_length, fold_sizes_length.
Qed.

Lemma fold_entry_lookup (ss : list Q) i x :
  ss !! i = Some x -> fold_entry ss (S i) = PList [x].
Proof.
  intros H. unfold fold_entry. replace (S i - 1) with i by lia. now rewrite H.
Qed.

(** The entries of one series in a finished score dictionary. *)
Lemma series_summary (key : nat -> string) (best_key avg_key : string)
    (K : nat) (ss : list Q) (w : world) :
  (forall i j, key i = key j -> i = j) ->
  (forall i, key i <> best_key) -> (forall i, key i <> avg_key) ->
  best_key <> avg_key ->
  2 <= K -> length ss = K ->
  exists m d,
    py_min (dict_values (scored key K ss)) = Ok (PList [m])
    /\ accumulate_average (dict_set (scored key K ss) best_key (PList [m]))
         avg_key key K w = (Ret d, w)
    /\ m ∈ ss /\ (forall s, s ∈ ss -> (m <= s)%Q)
    /\ NoDup (dict_keys d)
    /\ (forall i s, ss !! i = Some s -> dict_get d (key (S i)) = Some (PList [s]))
    /\ dict_get d best_key = Some (PList [m])
    /\ dict_get d avg_key = Some (PFloat (float_mean ss K))
    /\ (forall k', (forall i, key i <> k') -> k' <> best_key -> k' <> avg_key ->
                   dict_get d k' = None).
Proof.
  intros Hinj Hbest Havg Hne HK Hlen.
  rewrite (scored_values key K ss Hlen).
  destruct (py_min_singletons ss) as (m & Hmin & Hin & Hle).
  { destruct ss; [simpl in Hlen; lia | discriminate]. }
  assert (Hfold : forall i s, ss !! i = Some s ->
            dict_get (dict_set (scored key K ss) best_key (PList [m])) (key (S i))
            = Some (PList [s])).
  { intros i s Hs. rewrite dict_get_set_ne by (intros Heq; now apply (Hbest (S i))).
    apply lookup_lt_Some in Hs as Hlt.
    rewrite (scored_get key Hinj) by lia. f_equal. now apply fold_entry_lookup. }
  destruct (accumulate_average_spec
              (dict_set (scored key K ss) best_key (PList [m])) avg_key key K ss w)
    as (d & Hd & Hav & Hother & Hnd); try assumption; try lia.
  { intros i x Hx. exists []. now apply Hfold. }
  { apply dict_set_NoDup, (scored_NoDup key Hinj). }
  exists m, d. split; [assumption |]. split; [assumption |].
  split; [assumption |]. split; [assumption |]. split; [assumption |].
  split; [| split; [| split]].
  - intros i s Hs. rewrite Hother by apply Havg. now apply Hfold.
  - rewrite Hother by congruence. apply dict_get_set_eq.
  - exact Hav.
  - intros k' Hk' Hkb Hka. rewrite Hother by assumption.
    rewrite dict_get_set_ne by congruence. now apply scored_get_other.
Qed.


End Report.


(* ================================================================== *)
(** * Further properties of the query adapter                         *)
(* ================================================================== *)

(** With a model at hand the adapter returns exactly when both coordinate
    keys are present and, outside grid mode, LON is at least as long as
    LAT; it then never exits and leaves the log and the store as they were.
    Without a model it logs the error and exits with status 1, whatever the
    coordinates and the mode are. *)
Theorem transform_outcomes
    (adc : gmap string (list Q)) (model : Model) (mode : string) (w : world) :
  ((exists d w', interpolation_model_transform adc (Some model) mode w = (Ret d, w'))
     <-> exists lon lat,
           adc !! "LON" = Some lon /\ adc !! "LAT" = Some lat
           /\ (mode = "grid" \/ length lat <= length lon))
  /\ (forall o w', interpolation_model_transform adc (Some model) mode w = (o, w') ->
        w' = w /\ forall code, o <> Exit code)
  /\ (adc !! "LON" = None ->
        interpolation_model_transform adc (Some model) mode w = (Raise (KeyError "LON"), w))
  /\ (is_Some (adc !! "LON") -> adc !! "LAT" = None ->
        interpolation_model_transform adc (Some model) mode w = (Raise (KeyError "LAT"), w))
  /\ interpolation_model_transform adc None mode w
     = (Exit 1, mkWorld (log w ++ [(ERROR, NoModel)]) (heap w) (fs w)).
Proof.
  assert (Hkeys : forall lon lat, adc !! "LON" = Some lon -> adc !! "LAT" = Some lat ->
            interpolation_model_transform adc (Some model) mode w
            = if String.eqb mode "grid"
              then (Ret (flat_map (fun gy => map (fun gx => grid_row model gx gy) lon) lat), w)
              else if decide (length lat <= length lon)
                   then (Ret (zip_with (grid_row model) lon lat), w)
                   else (Raise IndexError, w)).
  { intros lon lat Hlon Hlat. destruct (String.eqb_spec mode "grid") as [-> | Hmode].
    - now apply transform_grid_eq.
    - now apply transform_points_eq. }
  assert (HnoLON : adc !! "LON" = None ->
            interpolation_model_transform adc (Some model) mode w
            = (Raise (KeyError "LON"), w)).
  { intros H. unfold interpolation_model_transform, dict_getitem. now rewrite H. }
  assert (HnoLAT : is_Some (adc !! "LON") -> adc !! "LAT" = None ->
            interpolation_model_transform adc (Some model) mode w
            = (Raise (KeyError "LAT"), w)).
  { intros [lon Hlon] H. unfold interpolation_model_transform, dict_getitem.
    now rewrite Hlon, H. }
  split; [| split; [| split; [| split]]]; try assumption; try reflexivity.
  - split.
    + intros (d & w' & H).
      destruct (adc !! "LON") as [lon |] eqn:Hlon; [| rewrite HnoLON in H; congruence].
      destruct (adc !! "LAT") as [lat |] eqn:Hlat;
        [| rewrite HnoLAT in H; [congruence | eauto | reflexivity]].
      exists lon, lat. split; [reflexivity |]. split; [reflexivity |].
      rewrite (Hkeys lon lat eq_refl eq_refl) in H.
      destruct (String.eqb_spec mode "grid"); [now left |].
      destruct (decide (length lat <= length lon)); [now right | discriminate].
    + intros (lon & lat & Hlon & Hlat & Hok). rewrite (Hkeys lon lat Hlon Hlat).
      destruct Hok as [-> | Hlen].
      * rewrite String.eqb_refl. eauto.
      * destruct (String.eqb mode "grid"); [eauto |].
        rewrite decide_True by assumption. eauto.
  - intros o w' H.
    destruct (adc !! "LON") as [lon |] eqn:Hlon.
    + destruct (adc !! "LAT") as [lat |] eqn:Hlat.
      * rewrite (Hkeys lon lat eq_refl eq_refl) in H.
        destruct (String.eqb mode "grid"); [| destruct (decide _)];
          injection H as <- <-; split; congruence.
      * rewrite HnoLAT in H by eauto. injection H as <- <-. split; congruence.
    + rewrite HnoLON in H by reflexivity. injection H as <- <-. split; congruence.
Qed.

Lemma zip_with_replicate_r {A B C} (f : A -> B -> C) (l : list A) (b : B) :
  zip_with f l (replicate (length l) b) = map (fun a => f a b) l.
Proof. induction l as [| a l IH]; simpl; [reflexivity | now rewrite IH]. Qed.

Lemma zip_with_expanded_grid {A B C} (f : A -> B -> C) (xs : list A) (ys : list B) :
  zip_with f (flat_map (fun _ => xs) ys)
             (flat_map (fun b => replicate (length xs) b) ys)
  = flat_map (fun b => map (fun a => f a b) xs) ys.
Proof.
  induction ys as [| b ys IH]; simpl; [reflexivity |].
  rewrite zip_with_app by now rewrite length_replicate.
  now rewrite zip_with_replicate_r, IH.
Qed.

(** Grid mode is points mode on the unrolled lattice: the LON axis repeated
    once per latitude, and every latitude repeated len(LON) times. *)
Theorem transform_grid_as_points
    (adc : gmap string (list Q)) (lon lat : list Q) (model : Model) (w : world) :
  adc !! "LON" = Some lon -> adc !! "LAT" = Some lat ->
  interpolation_model_transform adc (Some model) "grid" w
  = interpolation_model_transform
      (lon_lat_dict (flat_map (fun _ => lon) lat)
                    (flat_map (fun gy => replicate (length lon) gy) lat))
      (Some model) "points" w.
Proof.
  intros Hlon Hlat. rewrite (transform_grid_eq adc lon lat) by assumption.
  rewrite (transform_points_eq _ (flat_map (fun _ => lon) lat)
             (flat_map (fun gy => replicate (length lon) gy) lat));
    [| reflexivity | reflexivity | discriminate].
  rewrite decide_True.
  - now rewrite zip_with_expanded_grid.
  - clear. induction lat as [| gy lat IH]; simpl; [lia |].
    rewrite !length_app, length_replicate. lia.
Qed.

Lemma transform_grid_as_points_witness :
  interpolation_model_transform (lon_lat_dict [1; 2; 3] [10; 20])%Q
    (Some plane_model) "grid" world0
  = interpolation_model_transform
      (lon_lat_dict (flat_map (fun _ => [1; 2; 3]%Q) [10; 20]%Q)
                    (flat_map (fun gy => replicate (length [1; 2; 3]%Q) gy) [10; 20]%Q))
      (Some plane_model) "points" world0.
Proof.
  apply (transform_grid_as_points (lon_lat_dict [1; 2; 3] [10; 20])%Q
           [1; 2; 3]%Q [10; 20]%Q plane_model world0); reflexivity.
Defined.

(* ================================================================== *)
(** * Further properties of the interpolation fit                     *)
(* ================================================================== *)

Section FitProperties.

Variable LinearNDInterpolator :
  list Q -> list Q -> list (option Q) -> Q -> result Model.
Variable CloughTocher2DInterpolator :
  list Q -> list Q -> list (option Q) -> Q -> result Model.

(** What the fit does, in every case. *)
Lemma interpolation_model_fit_eq df fill t w :
  interpolation_model_fit LinearNDInterpolator CloughTocher2DInterpolator df fill t w
  = if valid_interpolation_type t then
      match chosen_constructor LinearNDInterpolator CloughTocher2DInterpolator t
              (map LON (dropna df)) (map LAT (dropna df)) (map VAL (dropna df)) fill with
      | Ok model => (Ret model, fit_finished w df)
      | Err e => (Raise (NameError "template"), fit_started w df)
      end
    else (Exit 1,
          mkWorld (log w ++ [(ERROR, NoValidInterpolationType t
                                ["LINEARNDINTERPOLATOR"; "CLOUGHTOCHER2DINTERPOLATOR"])])
                  (heap w) (fs w)).
Proof.
  unfold interpolation_model_fit, valid_interpolation_type, chosen_constructor.
  cbv zeta. unfold bind at 1.
  destruct (mem (str_upper t) _); [| reflexivity].
  cbn [ret]. unfold bind at 1. unfold emit at 1. unfold bind at 1.
  unfold try_except.
  destruct (String.eqb (str_upper t) "LINEARNDINTERPOLATOR").
  - destruct (LinearNDInterpolator _ _ _ _) as [model | e]; cbn.
    + unfold fit_finished. now rewrite <- app_assoc.
    + reflexivity.
  - destruct (CloughTocher2DInterpolator _ _ _ _) as [model | e]; cbn.
    + unfold fit_finished. now rewrite <- app_assoc.
    + reflexivity.
Qed.

(** For a type name in ASCII: the fit returns a model exactly when the
    name, compared without regard to case, is one of the two supported
    names and the constructor chosen by that name builds the model from the
    rows that have a value: rows with a missing VAL never reach the
    constructor.  A name that is not supported ends the run with status 1
    after one error record, and the fit never changes the store. *)
Theorem interpolation_model_fit_returns_iff
    (df : PointFrame) (fill : Q) (t : string) (w : world) :
  is_ascii t = true ->
  (forall model w',
     interpolation_model_fit LinearNDInterpolator CloughTocher2DInterpolator
       df fill t w = (Ret model, w')
     <-> valid_interpolation_type t = true
         /\ chosen_constructor LinearNDInterpolator CloughTocher2DInterpolator t
              (map LON (dropna df)) (map LAT (dropna df)) (map VAL (dropna df)) fill
            = Ok model
         /\ w' = fit_finished w df)
  /\ (exists vs, present (map VAL (dropna df)) = Some vs
                 /\ length vs = length (map LON (dropna df)))
  /\ (valid_interpolation_type t = false ->
        (interpolation_model_fit LinearNDInterpolator CloughTocher2DInterpolator
           df fill t w).1 = Exit 1)
  /\ heap (interpolation_model_fit LinearNDInterpolator CloughTocher2DInterpolator
             df fill t w).2 = heap w.
Proof.
  intros _. rewrite interpolation_model_fit_eq.
  split; [| split; [| split]].
  - intros model w'. destruct (valid_interpolation_type t).
    + destruct (chosen_constructor _ _ _ _ _ _ _) as [m | e].
      * split; [intros [= <- <-]; auto | intros (_ & [= <-] & ->); reflexivity].
      * split; [discriminate | intros (_ & [=] & _)].
    + split; [discriminate | intros ([=] & _)].
  - destruct (present_dropna df) as (vs & Hvs & Hlen). exists vs.
    split; [assumption |]. now rewrite length_map.
  - now intros ->.
  - destruct (valid_interpolation_type t); [| reflexivity].
    now destruct (chosen_constructor _ _ _ _ _ _ _).
Qed.

(** When the chosen constructor raises, the except clause of the fit does
    not log its warning and does not exit: reading [template], a name the
    module never binds, raises NameError, which propagates to the caller. *)
Theorem interpolation_model_fit_constructor_error
    (df : PointFrame) (fill : Q) (t : string) (w : world) (e : exn) :
  valid_interpolation_type t = true ->
  chosen_constructor LinearNDInterpolator CloughTocher2DInterpolator t
    (map LON (dropna df)) (map LAT (dropna df)) (map VAL (dropna df)) fill = Err e ->
  interpolation_model_fit LinearNDInterpolator CloughTocher2DInterpolator df fill t w
  = (Raise (NameError "template"), fit_started w df).
Proof.
  intros Hvalid Herr. now rewrite interpolation_model_fit_eq, Hvalid, Herr.
Qed.

End FitProperties.

Lemma interpolation_model_fit_returns_iff_witness :
  (forall model w',
     interpolation_model_fit node_model raising_constructor
       stations4 0 "LinearNDInterpolator" world0 = (Ret model, w')
     <-> valid_interpolation_type "LinearNDInterpolator" = true
         /\ chosen_constructor node_model raising_constructor "LinearNDInterpolator"
              (map LON (dropna stations4)) (map LAT (dropna stations4))
              (map VAL (dropna stations4)) 0
            = Ok model
         /\ w' = fit_finished world0 stations4)
  /\ (exists vs, present (map VAL (dropna stations4)) = Some vs
                 /\ length vs = length (map LON (dropna stations4)))
  /\ (valid_interpolation_type "LinearNDInterpolator" = false ->
        (interpolation_model_fit node_model raising_constructor
           stations4 0 "LinearNDInterpolator" world0).1 = Exit 1)
  /\ heap (interpolation_model_fit node_model raising_constructor
             stations4 0 "LinearNDInterpolator" world0).2 = heap world0.
Proof.
  apply (interpolation_model_fit_returns_iff node_model raising_constructor
           stations4 0 "LinearNDInterpolator" world0).
  reflexivity.
Defined.

Lemma interpolation_model_fit_constructor_error_witness :
  interpolation_model_fit raising_constructor raising_constructor
    stations4 0 "LinearNDInterpolator" world0
  = (Raise (NameError "template"), fit_started world0 stations4).
Proof.
  apply (interpolation_model_fit_constructor_error raising_constructor
           raising_constructor stations4 0%Q "LinearNDInterpolator" world0
           (ValueError "QhullError")); reflexivity.
Defined.

(* ================================================================== *)
(** * Further properties of the control-point regressor               *)
(* ================================================================== *)

Lemma with_VAL_length controls values :
  length values = length controls -> length (with_VAL controls values) = length controls.
Proof. intros H. unfold with_VAL. rewrite length_zip_with. lia. Qed.

Lemma with_VAL_complete controls values :
  dropna (with_VAL controls values) = with_VAL controls values.
Proof.
  revert values. induction controls as [| p controls IH]; intros [| v values];
    try reflexivity.
  cbn. f_equal. apply IH.
Qed.

(** A call that returns has given a value to every control point: the
    object keeps its rows and their coordinates, none of its VAL cells is
    missing afterwards, and no other object and no file is touched. *)
Theorem knn_fit_populates_every_control
    (src : PointFrame) (l l' : loc) (k : nat) (w w' : world) :
  knn_fit_control_points src l k w = (Ret l', w') ->
  exists controls fitted,
    heap w !! l = Some controls /\ heap w' !! l = Some fitted
    /\ length fitted = length controls
    /\ map coords fitted = map coords controls
    /\ dropna fitted = fitted
    /\ (forall l2, l2 <> l -> heap w' !! l2 = heap w !! l2)
    /\ fs w' = fs w.
Proof.
  intros H. apply knn_fit_returns in H as (controls & values & Hl & Hv & -> & ->).
  pose proof (knn_values_length _ _ _ _ Hv) as Hlen.
  exists controls, (with_VAL controls values). cbn [knn_done heap fs].
  split; [assumption |]. split; [apply lookup_insert_eq |].
  split; [now apply with_VAL_length |]. split; [now apply with_VAL_coords |].
  split; [apply with_VAL_complete |]. split; [| reflexivity].
  intros l2 Hl2. now apply lookup_insert_ne.
Qed.

Lemma knn_fit_populates_every_control_witness :
  exists controls fitted,
    heap world_land !! 1%positive = Some controls
    /\ heap (knn_fit_control_points fold1_train 1%positive 1 world_land).2
         !! 1%positive = Some fitted
    /\ length fitted = length controls
    /\ map coords fitted = map coords controls
    /\ dropna fitted = fitted
    /\ (forall l2, l2 <> 1%positive ->
          heap (knn_fit_control_points fold1_train 1%positive 1 world_land).2 !! l2
          = heap world_land !! l2)
    /\ fs (knn_fit_control_points fold1_train 1%positive 1 world_land).2
       = fs world_land.
Proof.
  apply (knn_fit_populates_every_control fold1_train 1%positive 1%positive 1
           world_land). vm_compute. reflexivity.
Defined.

(** The call never exits the process, and a call that does not return has
    written one log record and nothing else: the control object and every
    other object are as they were. *)
Theorem knn_fit_failure_leaves_store
    (src : PointFrame) (l : loc) (k : nat) (w : world) :
  (forall code, (knn_fit_control_points src l k w).1 <> Exit code)
  /\ ((forall l', (knn_fit_control_points src l k w).1 <> Ret l') ->
        (knn_fit_control_points src l k w).2 = knn_failed w src).
Proof.
  rewrite knn_fit_control_points_eq.
  destruct (heap w !! l) as [controls |]; [| split; [discriminate | reflexivity]].
  destruct (knn_values src k controls) as [values | e]; cbn [fst snd].
  - split; [discriminate |]. intros H. now destruct (H l).
  - split; [discriminate | reflexivity].
Qed.

(* ================================================================== *)
(** * Further properties of the dataset combiner                      *)
(* ================================================================== *)

Lemma positions_length (name : string) (cols : list string) (i : nat) :
  length (positions name cols i) = count_label name cols.
Proof.
  unfold count_label. revert i. induction cols as [| c cols IH]; intros i; simpl.
  - reflexivity.
  - destruct (String.eqb c name); simpl; now rewrite IH.
Qed.

Lemma positions_once (name : string) (cols : list string) :
  count_label name cols = 1 ->
  exists i, positions name cols 0 = [i] /\ index_of name cols = Some i.
Proof.
  intros H. rewrite <- (positions_length name cols 0) in H. unfold index_of.
  destruct (positions name cols 0) as [| i [| j ps]]; try discriminate.
  now exists i.
Qed.

Lemma getitem_columns_projects (df : DataFrame) w :
  each_once (columns df) ->
  getitem_columns df ["LON"; "LAT"; "VAL"] w
  = (Ret (mkDataFrame ["LON"; "LAT"; "VAL"] (projected_rows df)), w).
Proof.
  intros Honce. pose proof Honce as (Hlon & Hlat & Hval).
  destruct (getitem_columns_each_once (columns df) (rows df) w Honce)
    as (out & Hout & Hcols).
  destruct df as [cols rs]. cbn [columns rows] in *. rewrite Hout. f_equal.
  unfold getitem_columns in Hout. cbn [columns rows List.filter] in Hout.
  rewrite (proj2 (mem_count_label "LON" cols)) in Hout by lia.
  rewrite (proj2 (mem_count_label "LAT" cols)) in Hout by lia.
  rewrite (proj2 (mem_count_label "VAL" cols)) in Hout by lia.
  cbn [negb] in Hout. injection Hout as <-. cbn [columns] in Hcols. rewrite Hcols.
  f_equal. unfold projected_rows, cell_at. cbn [columns rows flat_map].
  destruct (positions_once "LON" cols Hlon) as (i & -> & ->).
  destruct (positions_once "LAT" cols Hlat) as (j & -> & ->).
  destruct (positions_once "VAL" cols Hval) as (v & -> & ->).
  reflexivity.
Qed.

Lemma combine_loop_projects (list_dfs : list DataFrame) acc w :
  Forall (fun df => each_once (columns df)) list_dfs ->
  for_each list_dfs
    (fun df filtered_dataframes =>
       let! projected := getitem_columns df ["LON"; "LAT"; "VAL"] in
       ret (filtered_dataframes ++ [projected])) acc w
  = (Ret (acc ++ map (fun df => mkDataFrame ["LON"; "LAT"; "VAL"] (projected_rows df))
                     list_dfs), w).
Proof.
  intros Hall. revert acc. induction Hall as [| df dfs Hdf Hall IH]; intros acc.
  - cbn. now rewrite app_nil_r.
  - cbn [for_each map]. unfold bind at 1. unfold bind at 1.
    rewrite getitem_columns_projects by assumption. cbn [ret].
    rewrite IH. now rewrite <- app_assoc.
Qed.

Lemma flat_map_rows_mkDataFrame (cols : list string) (rss : list (list (list cell))) :
  flat_map rows (map (mkDataFrame cols) rss) = concat rss.
Proof. induction rss as [| rs rss IH]; simpl; [reflexivity | now rewrite IH]. Qed.

Lemma pd_concat_same_columns (cols : list string) (rss : list (list (list cell))) w :
  rss <> [] ->
  pd_concat (map (mkDataFrame cols) rss) w
  = (Ret (mkDataFrame cols (concat rss)), w).
Proof.
  intros Hne. rewrite <- (flat_map_rows_mkDataFrame cols rss).
  destruct rss as [| rs rss]; [congruence |].
  unfold pd_concat. cbn [map columns].
  assert (Hall : forallb (fun f => same_columns (columns f) cols)
                   (mkDataFrame cols rs :: map (mkDataFrame cols) rss) = true).
  { apply forallb_forall. intros f Hin. unfold same_columns.
    apply bool_decide_eq_true.
    destruct Hin as [<- | Hin]; [reflexivity |].
    apply in_map_iff in Hin as (r & <- & _). reflexivity. }
  rewrite Hall. reflexivity.
Qed.

(** When each input frame labels exactly one column LON, one LAT and one
    VAL, the combiner returns the frame with the columns LON, LAT, VAL whose
    rows are the LON, LAT and VAL cells of the input rows, frame after frame
    in the order of the list: every other column is dropped, no row is lost
    or added, and only the opening record is logged.  An empty list is a
    ValueError of [pd.concat]. *)
Theorem combine_stacks_projections (list_dfs : list DataFrame) (w : world) :
  Forall (fun df => each_once (columns df)) list_dfs ->
  combine_datasets_for_interpolation list_dfs w
  = match list_dfs with
    | [] => (Raise (ValueError "No objects to concatenate"), combine_started w 0)
    | _ :: _ =>
        (Ret (mkDataFrame ["LON"; "LAT"; "VAL"] (flat_map projected_rows list_dfs)),
         combine_started w (length list_dfs))
    end
  /\ length (flat_map projected_rows list_dfs)
     = list_sum (map (fun df => length (rows df)) list_dfs).
Proof.
  intros Hall. split.
  - unfold combine_datasets_for_interpolation.
    unfold bind at 1. unfold emit at 1. unfold bind at 1. unfold try_except.
    rewrite combine_loop_projects by assumption. cbn [app].
    destruct list_dfs as [| df dfs]; [reflexivity |].
    rewrite <- (map_map projected_rows (mkDataFrame ["LON"; "LAT"; "VAL"])).
    rewrite pd_concat_same_columns by discriminate.
    unfold combine_started. do 3 f_equal.
    generalize (df :: dfs). clear. intros l.
    induction l as [| x l IH]; simpl; [reflexivity | now rewrite IH].
  - clear. induction list_dfs as [| df dfs IH]; simpl; [reflexivity |].
    rewrite length_app, IH. unfold projected_rows. now rewrite length_map.
Qed.

Lemma combine_stacks_projections_witness :
  combine_datasets_for_interpolation [frame_stations; frame_controls] world0
  = (Ret (mkDataFrame ["LON"; "LAT"; "VAL"]
            (flat_map projected_rows [frame_stations; frame_controls])),
     combine_started world0 (length [frame_stations; frame_controls]))
  /\ length (flat_map projected_rows [frame_stations; frame_controls])
     = list_sum (map (fun df => length (rows df)) [frame_stations; frame_controls]).
Proof.
  apply (combine_stacks_projections [frame_stations; frame_controls] world0).
  repeat constructor.
Defined.

(* ================================================================== *)
(** * Further properties of the cross-validation harness              *)
(* ================================================================== *)

Lemma lift_world {A} (r : result A) w o w' : lift r w = (o, w') -> w' = w.
Proof. destruct r; cbn; now intros [= _ <-]. Qed.

Lemma bind_world {A B} (m : py A) (k : A -> py B) (P : world -> world -> Prop) :
  (forall w, P w w) -> (forall w1 w2 w3, P w1 w2 -> P w2 w3 -> P w1 w3) ->
  (forall w o w', m w = (o, w') -> P w w') ->
  (forall a w o w', k a w = (o, w') -> P w w') ->
  forall w o w', bind m k w = (o, w') -> P w w'.
Proof.
  intros Hrefl Htrans Hm Hk w o w'. unfold bind.
  destruct (m w) as [[a | c | e] w1] eqn:Hmw; intros H.
  - eapply Htrans; [eapply Hm; eauto | eapply Hk; eauto].
  - injection H as <- <-. eapply Hm; eauto.
  - injection H as <- <-. eapply Hm; eauto.
Qed.

Lemma for_each_world {A T} (xs : list A) (body : A -> T -> py T)
    (P : world -> world -> Prop) :
  (forall w, P w w) -> (forall w1 w2 w3, P w1 w2 -> P w2 w3 -> P w1 w3) ->
  (forall x s w o w', body x s w = (o, w') -> P w w') ->
  forall s w o w', for_each xs body s w = (o, w') -> P w w'.
Proof.
  intros Hrefl Htrans Hbody. induction xs as [| x xs IH]; intros s w o w'; cbn [for_each].
  - intros [= <- <-]. apply Hrefl.
  - apply bind_world; auto. intros. eapply Hbody; eauto.
Qed.

Lemma accumulate_average_world d total key K w o w' :
  accumulate_average d total key K w = (o, w') -> w' = w.
Proof.
  unfold accumulate_average. cbv zeta.
  apply (bind_world _ _ (fun w w' => w' = w)); try congruence.
  - apply (for_each_world _ _ (fun w w' => w' = w)); try congruence.
    intros x s. apply (bind_world _ _ (fun w w' => w' = w)); try congruence.
    + intros ? ? ?. apply lift_world.
    + intros acc. apply (bind_world _ _ (fun w w' => w' = w)); try congruence.
      * intros ? ? ?. apply lift_world.
      * intros a w0 o0 w0'. now intros [= _ <-].
  - intros d'. apply (bind_world _ _ (fun w w' => w' = w)); try congruence.
    + intros ? ? ?. apply lift_world.
    + intros acc w0 o0 w0'. destruct (K =? 0); now intros [= _ <-].
Qed.

Lemma transform_world adc (model : Model) mode w o w' :
  interpolation_model_transform adc (Some model) mode w = (o, w') -> w' = w.
Proof.
  destruct (adc !! "LON") as [lon |] eqn:Hlon.
  - destruct (adc !! "LAT") as [lat |] eqn:Hlat.
    + destruct (String.eqb_spec mode "grid") as [-> | Hmode].
      * rewrite (transform_grid_eq adc lon lat) by assumption. now intros [= _ <-].
      * rewrite (transform_points_eq adc lon lat) by assumption.
        destruct (decide _); now intros [= _ <-].
    + unfold interpolation_model_transform, dict_getitem. rewrite Hlon, Hlat.
      now intros [= _ <-].
  - unfold interpolation_model_transform, dict_getitem. rewrite Hlon.
    now intros [= _ <-].
Qed.

Lemma Qsquare_nonneg (x : Q) : (0 <= x * x)%Q.
Proof.
  unfold Qle, Qmult. simpl. rewrite Z.mul_1_r. apply Z.square_nonneg.
Qed.

Lemma Qsum_from_nonneg (l : list Q) (acc : Q) :
  (0 <= acc)%Q -> Forall (fun x => (0 <= x)%Q) l -> (0 <= fold_left Qplus l acc)%Q.
Proof.
  intros Hacc Hall. revert acc Hacc. induction Hall as [| x l Hx Hall IH]; intros acc Hacc.
  - exact Hacc.
  - simpl. apply IH. rewrite <- (Qplus_0_l 0). now apply Qplus_le_compat.
Qed.

Lemma zip_with_squares_nonneg (t p : list Q) :
  Forall (fun x => (0 <= x)%Q) (zip_with (fun a b => ((a - b) * (a - b))%Q) t p).
Proof.
  revert p. induction t as [| a t IH]; intros [| b p]; simpl; constructor.
  - apply Qsquare_nonneg.
  - apply IH.
Qed.

(** A mean squared error is never negative. *)
Lemma mean_squared_error_nonneg y_true y_pred s :
  mean_squared_error y_true y_pred = Ok s -> (0 <= s)%Q.
Proof.
  unfold mean_squared_error.
  destruct (negb _); [discriminate |]. destruct (_ =? 0); [discriminate |].
  destruct (present y_true) as [t |]; [| discriminate].
  destruct (present y_pred) as [p |]; [| discriminate].
  intros [= <-]. unfold Qdiv. apply Qmult_le_0_compat.
  - apply Qsum_from_nonneg; [apply Qle_refl | apply zip_with_squares_nonneg].
  - apply Qinv_le_0_compat. unfold Qnat, Qle. simpl. lia.
Qed.

Lemma pd_concat_points_train_water train water w :
  pd_concat_points
    (match water with
     | Some rows => ([] ++ [Imm train]) ++ [Imm rows]
     | None => [] ++ [Imm train]
     end) w
  = (Ret (train ++ water_rows water), w).
Proof.
  destruct water as [rows |]; cbn; [reflexivity | now rewrite app_nil_r].
Qed.

(** Without land controls the training frame of a fold is the train split
    followed by the water controls, and building it touches no object. *)
Lemma cv_training_set_no_land train test water k w :
  cv_training_set train test None water k w
  = (Ret (train ++ water_rows water, None),
     mkWorld (log w ++ [(INFO, CvNumFrames (match water with Some _ => 2 | None => 1 end))])
             (heap w) (fs w)).
Proof.
  unfold cv_training_set. cbv zeta. rewrite bind_ret_l.
  unfold bind at 1. unfold emit at 1. unfold bind at 1.
  rewrite pd_concat_points_train_water. cbn [ret]. now destruct water.
Qed.

Section HarnessProperties.

Variable LinearNDInterpolator :
  list Q -> list Q -> list (option Q) -> Q -> result Model.
Variable CloughTocher2DInterpolator :
  list Q -> list Q -> list (option Q) -> Q -> result Model.

Lemma fit_heap df fill t w o w' :
  interpolation_model_fit LinearNDInterpolator CloughTocher2DInterpolator df fill t w
  = (o, w') -> heap w' = heap w.
Proof.
  rewrite interpolation_model_fit_eq. destruct (valid_interpolation_type t).
  - destruct (chosen_constructor _ _ _ _ _ _ _); now intros [= _ <-].
  - now intros [= _ <-].
Qed.

(** Everything a pass of the loop that returns has done. *)
Lemma cv_fold_inv df_source_drop land water k train_index test_index
    fold kd kc w st' w' :
  cv_fold LinearNDInterpolator CloughTocher2DInterpolator
    df_source_drop land water k (train_index, test_index) (fold, kd, kc) w
  = (Ret st', w') ->
  exists train test df_Train o w1 s c kd' kc',
    iloc df_source_drop train_index = Ok train
    /\ iloc df_source_drop test_index = Ok test
    /\ cv_training_set train test land water k
         (mkWorld (log w ++ [(PRINT, FoldLine (fold + 1))]) (heap w) (fs w))
       = (Ret (df_Train, o), w1)
    /\ heap w' = heap w1
    /\ (0 <= s)%Q
    /\ match o with
       | None => c = no_control_score
       | Some _ => (0 <= c)%Q
       end
    /\ st' = (fold + 1, kd', kc')
    /\ dict_list_append kd (fold_key (fold + 1)) s = Ok kd'
    /\ dict_list_append kc (cnrl_fold_key (fold + 1)) c = Ok kc'.
Proof.
  unfold cv_fold. cbv zeta. intros H.
  apply bind_inv_Ret in H as ([] & w1 & Hemit & H). injection Hemit as <-.
  apply bind_inv_Ret in H as (train & w2 & Htrain & H).
  apply lift_inv_Ret in Htrain as [Htrain ->].
  apply bind_inv_Ret in H as (test & w3 & Htest & H).
  apply lift_inv_Ret in Htest as [Htest ->].
  apply bind_inv_Ret in H as ([df_Train o] & w4 & Hset & H).
  apply bind_inv_Ret in H as (model & w5 & Hfit & H).
  apply fit_heap in Hfit.
  apply bind_inv_Ret in H as (fitted & w6 & Htr & H).
  apply transform_world in Htr as ->.
  apply bind_inv_Ret in H as (s & w7 & Hmse & H).
  apply lift_inv_Ret in Hmse as [Hmse ->].
  apply bind_inv_Ret in H as (kd' & w8 & Hkd & H).
  apply lift_inv_Ret in Hkd as [Hkd ->].
  apply bind_inv_Ret in H as (c & w9 & Hc & H).
  apply bind_inv_Ret in H as (kc' & w10 & Hkc & H).
  apply lift_inv_Ret in Hkc as [Hkc ->].
  injection H as <- <-.
  exists train, test, df_Train, o, w4, s, c, kd', kc'.
  split; [assumption |]. split; [assumption |]. split; [assumption |].
  assert (Hc' : w9 = w5 /\ match o with
                           | None => c = no_control_score
                           | Some _ => (0 <= c)%Q
                           end).
  { destruct o as [l |].
    - apply bind_inv_Ret in Hc as (land_rows & wa & Hload & Hc).
      unfold load in Hload. destruct (heap w5 !! l); [| discriminate].
      injection Hload as <- <-.
      apply bind_inv_Ret in Hc as (fit_land & wb & Htr & Hc).
      apply transform_world in Htr as ->.
      apply bind_inv_Ret in Hc as (land_rows' & wc & Hload & Hc).
      unfold load in Hload. destruct (heap w5 !! l); [| discriminate].
      injection Hload as <- <-.
      apply lift_inv_Ret in Hc as [Hc ->].
      split; [reflexivity |]. now apply mean_squared_error_nonneg in Hc.
    - injection Hc as <- <-. split; reflexivity. }
  destruct Hc' as [-> Hsign].
  split; [assumption |].
  split; [now apply mean_squared_error_nonneg in Hmse |].
  split; [assumption |]. auto.
Qed.

Lemma with_VAL_coords_only c1 c2 values :
  map coords c1 = map coords c2 -> with_VAL c1 values = with_VAL c2 values.
Proof.
  revert c2 values. induction c1 as [| p c1 IH]; intros [| q c2] values Hc;
    try discriminate; try reflexivity.
  injection Hc as Hlon Hlat Hc. destruct values as [| v values]; [reflexivity |].
  cbn. rewrite Hlon, Hlat. f_equal. now apply IH.
Qed.

(** The scores a run of the loop appends: station scores are mean squared
    errors; control scores are the sentinel when no land controls are
    configured, and then no object is touched, and mean squared errors
    otherwise. *)
Lemma cv_loop_scores df_source_drop land water k K splits :
  forall ss cs w st' w',
    length cs = length ss -> length ss + length splits <= K ->
    for_each splits
      (cv_fold LinearNDInterpolator CloughTocher2DInterpolator
         df_source_drop land water k)
      (length ss, scored fold_key K ss, scored cnrl_fold_key K cs) w
    = (Ret st', w') ->
    exists ss2 cs2,
      length ss2 = length splits /\ length cs2 = length splits
      /\ st' = (length ss + length splits,
                scored fold_key K (ss ++ ss2), scored cnrl_fold_key K (cs ++ cs2))
      /\ Forall (fun s => (0 <= s)%Q) ss2
      /\ (land = None -> Forall (fun c => c = no_control_score) cs2
                         /\ heap w' = heap w)
      /\ (is_Some land -> Forall (fun c => (0 <= c)%Q) cs2).
Proof.
  induction splits as [| [train_index test_index] splits IH];
    intros ss cs w st' w' Hcs Hlen H.
  - injection H as <- <-. exists [], []. rewrite !app_nil_r. simpl.
    rewrite Nat.add_0_r. auto 10.
  - cbn [for_each] in H. cbn [length] in Hlen.
    apply bind_inv_Ret in H as (st1 & w1 & Hfold & H).
    apply cv_fold_inv in Hfold
      as (train & test & df_Train & o & wset & s & c & kd' & kc'
          & _ & _ & Hset & Hheap & Hs & Hc & -> & Hkd & Hkc).
    rewrite Nat.add_1_r in Hkd, Hkc.
    rewrite (scored_append fold_key fold_key_inj) in Hkd by lia.
    rewrite <- Hcs in Hkc.
    rewrite (scored_append cnrl_fold_key cnrl_fold_key_inj) in Hkc by lia.
    injection Hkd as <-. injection Hkc as <-.
    replace (length ss + 1) with (length (ss ++ [s])) in H
      by (rewrite length_app; reflexivity).
    apply IH in H as (ss2 & cs2 & Hss2 & Hcs2 & -> & Hpos & Hnone & Hsome);
      [| rewrite !length_app; simpl; lia | rewrite length_app; simpl; lia].
    exists (s :: ss2), (c :: cs2). cbn [length].
    split; [lia |]. split; [lia |].
    split; [rewrite length_app, <- !app_assoc; cbn; do 2 f_equal; lia |].
    split; [now constructor |]. split.
    + intros ->. rewrite cv_training_set_no_land in Hset.
      injection Hset as <- <- <-. destruct (Hnone eq_refl) as [Hall Hw].
      split; [now constructor |]. rewrite Hw, Hheap. reflexivity.
    + intros [l ->]. constructor; [| apply Hsome; eauto].
      apply cv_training_set_land in Hset as (_ & _ & _ & _ & _ & _ & _ & -> & _).
      exact Hc.
Qed.

(** With land controls, a run of the loop leaves in the shared object the
    values fitted from the test split of the last fold it ran. *)
Lemma cv_loop_land_heap df_source_drop l water k controls splits :
  forall st w st' w' c0,
    splits <> [] ->
    heap w !! l = Some c0 -> map coords c0 = map coords controls ->
    for_each splits
      (cv_fold LinearNDInterpolator CloughTocher2DInterpolator
         df_source_drop (Some l) water k) st w
    = (Ret st', w') ->
    exists train_index test_index test v,
      last splits = Some (train_index, test_index)
      /\ iloc df_source_drop test_index = Ok test
      /\ knn_values test (ktest_of test k) controls = Ok v
      /\ heap w' = <[l := with_VAL controls v]> (heap w).
Proof.
  induction splits as [| [train_index test_index] splits IH];
    intros [[fold kd] kc] w st' w' c0 Hne Hl Hc0 H; [congruence |].
  cbn [for_each] in H.
  apply bind_inv_Ret in H as (st1 & w1 & Hfold & H).
  apply cv_fold_inv in Hfold
    as (train & test & df_Train & o & wset & s & c & kd' & kc'
        & _ & Htest & Hset & Hheap & _ & _ & -> & _ & _).
  apply cv_training_set_land in Hset
    as (c0' & v_train & v & Hl' & _ & Hv & _ & _ & Hwset).
  cbn [heap] in Hl', Hwset. rewrite Hl in Hl'. injection Hl' as <-.
  rewrite (knn_values_coords test _ c0 controls Hc0) in Hv.
  rewrite (with_VAL_coords_only c0 controls v Hc0) in Hwset.
  rewrite Hwset in Hheap.
  destruct splits as [| split' splits'].
  - injection H as <- <-. exists train_index, test_index, test, v. auto.
  - apply (IH _ _ _ _ (with_VAL controls v)) in H
      as (tr & te & test' & v' & Hlast & Htest' & Hv' & Hw');
      [| discriminate | rewrite Hheap; apply lookup_insert_eq
       | apply with_VAL_coords; now apply knn_values_length in Hv].
    exists tr, te, test', v'. split; [exact Hlast |].
    split; [assumption |]. split; [assumption |].
    rewrite Hw', Hheap. apply insert_insert_eq.
Qed.

(** A completed run, taken apart: the loop it ran and the entries of the
    report it returned. *)
Lemma cv_run_inv df_source land water K k w report best_score w' :
  test_interpolation_fit LinearNDInterpolator CloughTocher2DInterpolator
    df_source land water K k w = (Ret (report, best_score), w') ->
  exists splits ss cs w_in,
    2 <= K
    /\ KFold_split (mkKFold K) (length (dropna df_source)) = Ok splits
    /\ length splits = K /\ length ss = K /\ length cs = K
    /\ heap w_in = heap w
    /\ for_each splits
         (cv_fold LinearNDInterpolator CloughTocher2DInterpolator
            (dropna df_source) land water k)
         (0, scored fold_key K [], scored cnrl_fold_key K []) w_in
       = (Ret (K, scored fold_key K ss, scored cnrl_fold_key K cs), w')
    /\ (forall i s, ss !! i = Some s ->
          dict_get report (fold_key (S i)) = Some (PList [s]))
    /\ (forall i c, cs !! i = Some c ->
          dict_get report (cnrl_fold_key (S i)) = Some (PList [c]))
    /\ (exists m, dict_get report "best_cntl" = Some (PList [m]) /\ m ∈ cs)
    /\ Forall (fun s => (0 <= s)%Q) ss
    /\ (land = None -> Forall (fun c => c = no_control_score) cs
                       /\ heap w' = heap w)
    /\ (is_Some land -> Forall (fun c => (0 <= c)%Q) cs).
Proof.
  unfold test_interpolation_fit. cbv zeta. intros H.
  apply bind_inv_Ret in H as ([] & w1 & Hw1 & H). injection Hw1 as <-.
  apply bind_inv_Ret in H as ([] & w2 & Hw2 & H). injection Hw2 as <-.
  apply bind_inv_Ret in H as (kf & w3 & Hkf & H).
  apply lift_inv_Ret in Hkf as [Hkf ->].
  apply KFold_init_Ok in Hkf as [HK ->]. cbn [get_n_splits n_splits] in H.
  apply bind_inv_Ret in H as (splits & w4 & Hsplits & H).
  apply lift_inv_Ret in Hsplits as [Hsplits ->].
  pose proof (KFold_split_length _ _ _ Hsplits) as Hlen.
  apply bind_inv_Ret in H as ([[fold kd] kc] & w5 & Hloop & H).
  rewrite (scored_initial fold_key fold_key_inj) in Hloop.
  rewrite (scored_initial cnrl_fold_key cnrl_fold_key_inj) in Hloop.
  pose proof Hloop as Hloop'.
  apply (cv_loop_scores _ _ _ _ K splits [] []) in Hloop';
    [| reflexivity | simpl; lia].
  destruct Hloop' as (ss & cs & Hss & Hcs & [= -> -> ->] & Hpos & Hnoland & Hland).
  cbn [app] in *. rewrite Hlen in Hss, Hcs. rewrite Hlen in Hloop.
  destruct (series_summary fold_key "best" "avgMSE" K ss w5)
    as (m & kd & Hmin & Havg & Hm & Hmle & _ & Hfold & Hbest & Hmean & _);
    try assumption; try (intros; distinct_keys); try apply fold_key_inj.
  destruct (series_summary cnrl_fold_key "best_cntl" "avgCnrlMSE" K cs w5)
    as (mc & kc & Hminc & Havgc & Hmc & Hmcle & Hnd & Hfoldc & Hbestc & Hmeanc & Hnone);
    try assumption; try (intros; distinct_keys); try apply cnrl_fold_key_inj.
  apply bind_inv_Ret in H as (best & w6 & Hb & H).
  apply lift_inv_Ret in Hb as [Hb ->]. rewrite Hmin in Hb. injection Hb as <-.
  apply bind_inv_Ret in H as (bestc & w7 & Hbc & H).
  apply lift_inv_Ret in Hbc as [Hbc ->]. rewrite Hminc in Hbc. injection Hbc as <-.
  apply bind_inv_Ret in H as (kd' & w8 & Hacc & H).
  rewrite Havg in Hacc. injection Hacc as <- <-.
  apply bind_inv_Ret in H as (kc' & w9 & Haccc & H).
  rewrite Havgc in Haccc. injection Haccc as <- <-.
  injection H as <- <- <-.
  eexists splits, ss, cs, _. split; [assumption |]. split; [exact Hsplits |].
  split; [assumption |]. split; [assumption |]. split; [assumption |].
  split; [| split; [exact Hloop |]].
  { reflexivity. }
  split; [| split].
  - intros i s Hs. rewrite dict_get_merge by assumption.
    rewrite Hnone by (intros; distinct_keys). now apply Hfold.
  - intros i c Hc. rewrite dict_get_merge by assumption.
    now rewrite (Hfoldc i c Hc).
  - split; [| auto].
    exists mc. rewrite dict_get_merge by assumption. rewrite Hbestc. auto.
Qed.

(** In the report of a completed run every station fold score is a mean
    squared error and therefore not negative.  Without land controls every
    control fold score and the best control score are the sentinel -99999,
    and the run has touched no object of the store; with land controls
    every control fold score is a mean squared error as well. *)
Theorem cv_scores_and_sentinel
    (df_source : PointFrame) (land : option loc) (water : option PointFrame)
    (K k : nat) (w w' : world) (report : pydict) (best_score : pyval) :
  test_interpolation_fit LinearNDInterpolator CloughTocher2DInterpolator
    df_source land water K k w = (Ret (report, best_score), w') ->
  exists station_scores control_scores : list Q,
    length station_scores = K /\ length control_scores = K
    /\ (forall i s, station_scores !! i = Some s ->
          dict_get report (fold_key (S i)) = Some (PList [s]))
    /\ (forall i c, control_scores !! i = Some c ->
          dict_get report (cnrl_fold_key (S i)) = Some (PList [c]))
    /\ Forall (fun s => (0 <= s)%Q) station_scores
    /\ (land = None ->
          Forall (fun c => c = no_control_score) control_scores
          /\ dict_get report "best_cntl" = Some (PList [no_control_score])
          /\ heap w' = heap w)
    /\ (is_Some land -> Forall (fun c => (0 <= c)%Q) control_scores).
Proof.
  intros H.
  apply cv_run_inv in H
    as (splits & ss & cs & w_in & HK & Hsplits & Hlen & Hss & Hcs & Hin & Hloop
        & Hfold & Hcntl & (m & Hbest & Hm) & Hpos & Hnoland & Hland).
  exists ss, cs. split; [assumption |]. split; [assumption |].
  split; [assumption |]. split; [assumption |]. split; [assumption |].
  split; [| assumption].
  intros Hnone. destruct (Hnoland Hnone) as [Hall Hheap].
  split; [assumption |]. split; [| assumption].
  rewrite Hbest. do 2 f_equal.
  rewrite Forall_forall in Hall. rewrite (Hall m); [reflexivity | exact Hm].
Qed.

Lemma iloc_seq (df : PointFrame) (a b : nat) :
  a + b <= length df -> iloc df (seq a b) = Ok (take b (drop a df)).
Proof.
  revert a. induction b as [| b IH]; intros a Hlen; [reflexivity |].
  cbn [seq iloc].
  destruct (lookup_lt_is_Some_2 df a ltac:(lia)) as (p & Hp). rewrite Hp.
  rewrite IH by lia. rewrite (drop_S df p a Hp). reflexivity.
Qed.

Lemma test_ranges_last (current : nat) (sizes : list nat) (s : nat) :
  last sizes = Some s ->
  last (test_ranges current sizes)
  = Some (seq (current + list_sum sizes - s) s).
Proof.
  revert current. induction sizes as [| x [| y sizes] IH]; intros current Hlast.
  - discriminate.
  - injection Hlast as ->. cbn. do 2 f_equal. lia.
  - change (last (x :: y :: sizes)) with (last (y :: sizes)) in Hlast.
    change (last (test_ranges current (x :: y :: sizes)))
      with (last (test_ranges (current + x) (y :: sizes))).
    rewrite (IH (current + x) Hlast). do 2 f_equal.
    change (list_sum (x :: y :: sizes)) with (x + list_sum (y :: sizes)). lia.
Qed.

Lemma fold_sizes_last (n k : nat) : 0 < k -> last (fold_sizes n k) = Some (n / k).
Proof.
  intros Hk. destruct k as [| k]; [lia |]. unfold fold_sizes.
  rewrite seq_S, map_app. cbn [map]. rewrite last_snoc. f_equal.
  pose proof (Nat.mod_upper_bound n (S k) ltac:(lia)).
  destruct (Nat.ltb_spec (0 + k) (n mod S k)); [lia | reflexivity].
Qed.

(** The last pair a split yields holds out the last n/k positions. *)
Lemma KFold_split_last (K n : nat) splits :
  0 < K -> KFold_split (mkKFold K) n = Ok splits ->
  K <= n /\ exists train_index,
    last splits = Some (train_index, seq (n - n / K) (n / K)).
Proof.
  intros HK. unfold KFold_split. cbn [n_splits].
  destruct (Nat.ltb_spec n K); [discriminate |]. intros [= <-].
  split; [assumption |]. rewrite fmap_last.
  rewrite (test_ranges_last 0 _ (n / K)) by now apply fold_sizes_last.
  rewrite fold_sizes_sum by assumption. cbn. eauto.
Qed.

Lemma cv_loop_land_store df_source_drop l water k splits st w st' w' :
  splits <> [] ->
  for_each splits
    (cv_fold LinearNDInterpolator CloughTocher2DInterpolator
       df_source_drop (Some l) water k) st w
  = (Ret st', w') ->
  exists controls train_index test_index test v,
    heap w !! l = Some controls
    /\ last splits = Some (train_index, test_index)
    /\ iloc df_source_drop test_index = Ok test
    /\ knn_values test (ktest_of test k) controls = Ok v
    /\ heap w' = <[l := with_VAL controls v]> (heap w).
Proof.
  intros Hne H.
  assert (Hctl : exists controls, heap w !! l = Some controls).
  { destruct splits as [| [train_index test_index] splits]; [congruence |].
    destruct st as [[fold kd] kc]. cbn [for_each] in H.
    apply bind_inv_Ret in H as (st1 & w1 & Hfold & _).
    apply cv_fold_inv in Hfold
      as (train & test & df_Train & o & wset & s & c & kd' & kc'
          & _ & _ & Hset & _).
    apply cv_training_set_land in Hset as (c0 & _ & _ & Hl & _). eauto. }
  destruct Hctl as (controls & Hl).
  destruct (cv_loop_land_heap df_source_drop l water k controls splits
              st w st' w' controls Hne Hl eq_refl H)
    as (tr & te & test & v & Hlast & Htest & Hv & Hw').
  exists controls, tr, te, test, v. auto.
Qed.

(** After a completed run with land controls, the caller's land-control
    object holds the values that were KNN-fitted in the last fold from its
    held-out split: the last N/K complete station rows, with
    min(N/K, nearest_neighbors) neighbors.  Its coordinates and every other
    object are as before the run. *)
Theorem cv_leaves_last_fold_fit
    (df_source : PointFrame) (l : loc) (water : option PointFrame)
    (K k : nat) (w w' : world) (report : pydict) (best_score : pyval) :
  test_interpolation_fit LinearNDInterpolator CloughTocher2DInterpolator
    df_source (Some l) water K k w = (Ret (report, best_score), w') ->
  exists controls v,
    heap w !! l = Some controls
    /\ knn_values
         (drop (length (dropna df_source) - length (dropna df_source) / K)
               (dropna df_source))
         (ktest_of
            (drop (length (dropna df_source) - length (dropna df_source) / K)
                  (dropna df_source)) k)
         controls = Ok v
    /\ heap w' = <[l := with_VAL controls v]> (heap w)
    /\ map coords (with_VAL controls v) = map coords controls.
Proof.
  intros H.
  apply cv_run_inv in H
    as (splits & ss & cs & w_in & HK & Hsplits & Hlen & _ & _ & Hin & Hloop & _).
  apply cv_loop_land_store in Hloop
    as (controls & tr & te & test & v & Hl & Hlast & Htest & Hv & Hw');
    [| destruct splits; [simpl in Hlen; lia | discriminate]].
  apply KFold_split_last in Hsplits as (HKN & train_index & Hlast'); [| lia].
  rewrite Hlast' in Hlast. injection Hlast as <- <-.
  set (N := length (dropna df_source)) in *.
  assert (N / K <= N) by (apply Nat.Div0.div_le_upper_bound; nia).
  rewrite iloc_seq in Htest by (fold N; lia).
  rewrite take_ge in Htest by (rewrite length_drop; fold N; lia).
  injection Htest as <-.
  exists controls, v. rewrite <- Hin. split; [assumption |].
  split; [assumption |]. split; [assumption |].
  apply with_VAL_coords. now apply knn_values_length in Hv.
Qed.

End HarnessProperties.

Lemma cv_scores_and_sentinel_witness :
  exists station_scores control_scores : list Q,
    length station_scores = 2 /\ length control_scores = 2
    /\ (forall i s, station_scores !! i = Some s ->
          dict_get report_2fold_no_land (fold_key (S i)) = Some (PList [s]))
    /\ (forall i c, control_scores !! i = Some c ->
          dict_get report_2fold_no_land (cnrl_fold_key (S i)) = Some (PList [c]))
    /\ Forall (fun s => (0 <= s)%Q) station_scores
    /\ (@None loc = None ->
          Forall (fun c => c = no_control_score) control_scores
          /\ dict_get report_2fold_no_land "best_cntl" = Some (PList [no_control_score])
          /\ heap (test_interpolation_fit node_model node_model stations4 None
                     (Some water1) 2 3 world0).2 = heap world0)
    /\ (is_Some (@None loc) -> Forall (fun c => (0 <= c)%Q) control_scores).
Proof.
  apply (cv_scores_and_sentinel node_model node_model stations4 None (Some water1)
           2 3 world0
           (test_interpolation_fit node_model node_model stations4 None
              (Some water1) 2 3 world0).2
           report_2fold_no_land (PList [5 # 2])).
  vm_compute. reflexivity.
Defined.

Lemma cv_leaves_last_fold_fit_witness :
  exists controls v,
    heap world_land !! 1%positive = Some controls
    /\ knn_values
         (drop (length (dropna stations4) - length (dropna stations4) / 2)
               (dropna stations4))
         (ktest_of
            (drop (length (dropna stations4) - length (dropna stations4) / 2)
                  (dropna stations4)) 1)
         controls = Ok v
    /\ heap (test_interpolation_fit node_model node_model stations4
               (Some 1%positive) None 2 1 world_land).2
       = <[1%positive := with_VAL controls v]> (heap world_land)
    /\ map coords (with_VAL controls v) = map coords controls.
Proof.
  apply (cv_leaves_last_fold_fit node_model node_model stations4 1%positive None
           2 1 world_land
           (test_interpolation_fit node_model node_model stations4
              (Some 1%positive) None 2 1 world_land).2
           report_2fold (PList [5 # 2])).
  vm_compute. reflexivity.
Defined.

Lemma bind_raises {A B} (m : py A) (k : A -> py B) w e w' :
  m w = (Raise e, w') -> bind m k w = (Raise e, w').
Proof. intros H. unfold bind. now rewrite H. Qed.

Lemma filter_outside_prefix (s n : nat) :
  s <= n ->
  List.filter (fun i => negb (memb i (seq 0 s))) (seq 0 n) = seq s (n - s).
Proof.
  intros Hs. replace n with (s + (n - s)) at 1 by lia.
  rewrite seq_app, List.filter_app. cbn [Nat.add].
  assert (Hin : forall l, (forall i, In i l -> i < s) ->
            List.filter (fun i => negb (memb i (seq 0 s))) l = []).
  { induction l as [| i l IH]; intros Hl; [reflexivity |]. cbn [List.filter].
    rewrite (proj2 (memb_elem_of i (seq 0 s)))
      by (apply elem_of_seq; pose proof (Hl i (or_introl eq_refl)); lia).
    cbn [negb]. apply IH. intros j Hj. apply Hl. now right. }
  assert (Hout : forall l, (forall i, In i l -> s <= i) ->
            List.filter (fun i => negb (memb i (seq 0 s))) l = l).
  { induction l as [| i l IH]; intros Hl; [reflexivity |]. cbn [List.filter].
    destruct (memb i (seq 0 s)) eqn:Hm.
    - apply memb_elem_of, elem_of_seq in Hm.
      pose proof (Hl i (or_introl eq_refl)). lia.
    - cbn [negb]. f_equal. apply IH. intros j Hj. apply Hl. now right. }
  rewrite Hin, Hout; [reflexivity | |].
  - intros i Hi. apply in_seq in Hi. lia.
  - intros i Hi. apply in_seq in Hi. lia.
Qed.

Lemma first_fold_size_bounds (n k : nat) :
  2 <= k -> k <= n -> 0 < first_fold_size n k < n.
Proof.
  intros Hk Hn. unfold first_fold_size.
  pose proof (Nat.div_mod_eq n k). pose proof (Nat.mod_upper_bound n k ltac:(lia)).
  assert (0 < n / k) by (apply Nat.div_str_pos; lia).
  destruct (Nat.ltb_spec 0 (n mod k)); nia.
Qed.

(** The first pair a split yields: the first fold is held out, the rows
    after it train. *)
Lemma KFold_split_first (K n : nat) :
  2 <= K -> K <= n ->
  exists rest,
    KFold_split (mkKFold K) n
    = Ok ((seq (first_fold_size n K) (n - first_fold_size n K),
           seq 0 (first_fold_size n K)) :: rest).
Proof.
  intros HK Hn. unfold KFold_split. cbn [n_splits].
  destruct (Nat.ltb_spec n K); [lia |].
  destruct K as [| K]; [lia |]. unfold fold_sizes.
  cbn [seq map test_ranges]. fold (first_fold_size n (S K)).
  rewrite filter_outside_prefix
    by (pose proof (first_fold_size_bounds n (S K) HK Hn); lia).
  eauto.
Qed.

Lemma dropna_complete (df : PointFrame) :
  Forall (fun p => has_val p = true) df -> dropna df = df.
Proof.
  induction 1 as [| p df Hp Hall IH]; [reflexivity |].
  unfold dropna in *. cbn [List.filter]. now rewrite Hp, IH.
Qed.

Lemma dropna_has_val (df : PointFrame) : Forall (fun p => has_val p = true) (dropna df).
Proof.
  apply Forall_forall. intros p Hp. apply list_elem_of_In in Hp.
  now apply filter_In in Hp as [_ Hp].
Qed.

Lemma dropna_drop (n : nat) (df : PointFrame) :
  dropna (drop n (dropna df)) = drop n (dropna df).
Proof. apply dropna_complete, Forall_drop, dropna_has_val. Qed.

Section HarnessFailures.

Variable LinearNDInterpolator :
  list Q -> list Q -> list (option Q) -> Q -> result Model.
Variable CloughTocher2DInterpolator :
  list Q -> list Q -> list (option Q) -> Q -> result Model.

(** A fold count below two, or above the number of station rows that have
    a value, is a ValueError of the splitter: the run ends after its two
    opening log records, before any fold is formed, and the store is as it
    was. *)
Theorem cv_rejects_bad_fold_count
    (df_source : PointFrame) (land : option loc) (water : option PointFrame)
    (K k : nat) (w : world) :
  (K < 2 ->
     test_interpolation_fit LinearNDInterpolator CloughTocher2DInterpolator
       df_source land water K k w
     = (Raise (ValueError "k-fold cross-validation requires at least one train/test split"),
        cv_started w df_source K k))
  /\ (2 <= K -> length (dropna df_source) < K ->
        test_interpolation_fit LinearNDInterpolator CloughTocher2DInterpolator
          df_source land water K k w
        = (Raise (ValueError "Cannot have number of splits greater than the number of samples"),
           cv_started w df_source K k)).
Proof.
  split.
  - intros HK. unfold test_interpolation_fit, cv_started. cbv zeta.
    unfold bind at 1. unfold emit at 1. unfold bind at 1. unfold emit at 1.
    cbn [log heap fs]. rewrite <- app_assoc. cbn [app].
    unfold bind at 1. unfold KFold_init.
    destruct (Nat.ltb_spec K 2); [reflexivity | lia].
  - intros HK HN. unfold test_interpolation_fit, cv_started. cbv zeta.
    unfold bind at 1. unfold emit at 1. unfold bind at 1. unfold emit at 1.
    cbn [log heap fs]. rewrite <- app_assoc. cbn [app].
    unfold bind at 1. unfold KFold_init.
    destruct (Nat.ltb_spec K 2); [lia |]. cbn [lift ret].
    unfold bind at 1. unfold KFold_split. cbn [get_n_splits n_splits].
    destruct (Nat.ltb_spec (length (dropna df_source)) K); [reflexivity | lia].
Qed.

(** With land controls, a run whose first training split has fewer rows
    than [nearest_neighbors] ends in the regressor's ValueError: the harness
    caps the neighbor count for the held-out split only. *)
Theorem cv_small_train_fold_raises
    (df_source : PointFrame) (l : loc) (water : option PointFrame)
    (K k : nat) (w : world) (controls : PointFrame) :
  heap w !! l = Some controls -> controls <> [] ->
  2 <= K -> K <= length (dropna df_source) ->
  length (dropna df_source) - first_fold_size (length (dropna df_source)) K < k ->
  (test_interpolation_fit LinearNDInterpolator CloughTocher2DInterpolator
     df_source (Some l) water K k w).1
  = Raise (ValueError "Expected n_neighbors <= n_samples_fit").
Proof.
  intros Hl Hc HK HN Hk.
  set (D := dropna df_source) in *. set (N := length D) in *.
  pose proof (first_fold_size_bounds N K HK HN) as Hs1.
  set (s1 := first_fold_size N K) in *.
  destruct (KFold_split_first K N HK HN) as (rest & Hsplit). fold s1 in Hsplit.
  unfold test_interpolation_fit. cbv zeta. fold D. fold N.
  unfold bind at 1. unfold emit at 1. unfold bind at 1. unfold emit at 1.
  unfold bind at 1. unfold KFold_init.
  destruct (Nat.ltb_spec K 2); [lia |]. cbn [lift ret get_n_splits n_splits].
  unfold bind at 1. rewrite Hsplit. cbn [lift ret].
  match goal with
  | |- (bind (for_each _ ?body ?st) _ ?w0).1 = _ =>
      assert (Hraise : exists w1,
                for_each ((seq s1 (N - s1), seq 0 s1) :: rest) body st w0
                = (Raise (ValueError "Expected n_neighbors <= n_samples_fit"), w1))
  end.
  { cbn [for_each]. eexists. apply bind_raises.
    unfold cv_fold. cbv zeta.
    unfold bind at 1. unfold emit at 1.
    rewrite (iloc_seq D s1 (N - s1)) by (fold N; lia).
    rewrite (iloc_seq D 0 s1) by (fold N; lia).
    rewrite take_ge by (rewrite length_drop; fold N; lia).
    cbn [lift]. rewrite !bind_ret_l.
    apply bind_raises. unfold cv_training_set. cbv zeta.
    apply bind_raises. apply bind_raises.
    rewrite knn_fit_control_points_eq. cbn [heap]. rewrite Hl.
    rewrite knn_values_too_many; [reflexivity | | assumption |].
    - unfold D. rewrite dropna_drop. fold D.
      intros Hnil. apply (f_equal length) in Hnil.
      rewrite length_drop in Hnil. fold N in Hnil. simpl in Hnil. lia.
    - unfold D. rewrite dropna_drop. fold D. rewrite length_drop. fold N. lia. }
  destruct Hraise as (w1 & Hraise). rewrite (bind_raises _ _ _ _ _ Hraise).
  reflexivity.
Qed.

End HarnessFailures.

Lemma cv_small_train_fold_raises_witness :
  (test_interpolation_fit node_model node_model stations4 (Some 1%positive)
     None 2 3 world_land).1
  = Raise (ValueError "Expected n_neighbors <= n_samples_fit").
Proof.
  apply (cv_small_train_fold_raises node_model node_model stations4 1%positive
           None 2 3 world_land land1);
    [reflexivity | discriminate | simpl; lia | simpl; lia | vm_compute; lia].
Defined.

(* ================================================================== *)
(** * The train and test frames of a fold                             *)
(* ================================================================== *)








(* ================================================================== *)
(** * The values of a one-neighbor fit                                *)
(* ================================================================== *)

Lemma present_Forall (P : Q -> Prop) (a : list (option Q)) (ys : list Q) :
  present a = Some ys ->
  Forall (fun o => forall v, o = Some v -> P v) a -> Forall P ys.
Proof.
  revert ys. induction a as [| [v |] a IH]; intros ys Hp Hall; cbn in Hp.
  - injection Hp as <-. constructor.
  - destruct (present a) as [vs |]; [| discriminate]. injection Hp as <-.
    apply Forall_cons in Hall as [Hv Hall]. constructor; auto.
  - discriminate.
Qed.

Lemma zip_targets_Forall {A} (P : Q -> Prop) (X : list A) (ys : list Q) :
  Forall P ys -> Forall (fun s => P s.2) (zip X ys).
Proof.
  intros Hall. revert X. induction Hall as [| y ys Hy Hall IH]; intros [| x X];
    cbn; constructor; auto.
Qed.

Lemma insert_by_dist_Forall (R : (Q * Q) * Q -> Prop) q x l :
  R x -> Forall R l -> Forall R (insert_by_dist q x l).
Proof.
  intros Hx Hall. induction Hall as [| y l Hy Hall IH]; cbn.
  - constructor; auto.
  - destruct (Qle_bool _ _); repeat constructor; auto.
Qed.

Lemma insert_by_dist_length q x l :
  length (insert_by_dist q x l) = S (length l).
Proof.
  induction l as [| y l IH]; cbn; [reflexivity |].
  destruct (Qle_bool _ _); cbn; [reflexivity | now rewrite IH].
Qed.

Lemma sort_by_dist_Forall (R : (Q * Q) * Q -> Prop) q l :
  Forall R l -> Forall R (sort_by_dist q l).
Proof.
  unfold sort_by_dist. induction 1 as [| x l Hx Hall IH]; cbn; [constructor |].
  now apply insert_by_dist_Forall.
Qed.

Lemma sort_by_dist_length q l : length (sort_by_dist q l) = length l.
Proof.
  unfold sort_by_dist. induction l as [| x l IH]; cbn; [reflexivity |].
  now rewrite insert_by_dist_length, IH.
Qed.

Lemma with_VAL_Forall (P : Q -> Prop) controls values :
  Forall P values ->
  Forall (fun p => exists v, VAL p = Some v /\ P v) (with_VAL controls values).
Proof.
  intros Hall. revert controls. induction Hall as [| v values Hv Hall IH];
    intros [| p controls]; cbn; constructor; eauto.
Qed.

(** With one neighbor a prediction is the target of a training sample. *)
Lemma predict_one_single (R : Q -> Prop) (neigh : KNeighborsRegressor) (q : Q * Q) :
  (forall x y, (x == y)%Q -> R x -> R y) ->
  n_neighbors neigh = 1 -> 1 <= length (fit_samples neigh) ->
  Forall (fun s => R s.2) (fit_samples neigh) ->
  R (predict_one neigh q).
Proof.
  intros Hproper Hk Hlen Hall. unfold predict_one. rewrite Hk.
  pose proof (sort_by_dist_length q (fit_samples neigh)) as Hsl.
  pose proof (sort_by_dist_Forall (fun s => R s.2) q _ Hall) as Hsorted.
  destruct (sort_by_dist q (fit_samples neigh)) as [| x sorted];
    [cbn [length] in Hsl; lia |].
  apply Forall_cons in Hsorted as [Hx _].
  cbn [take map]. apply (Hproper x.2); [| exact Hx].
  unfold Qsum, Qnat. cbn [fold_left]. change (inject_Z (Z.of_nat 1)) with 1%Q.
  rewrite Qplus_0_l. unfold Qdiv. change (/ 1)%Q with 1%Q.
  now rewrite Qmult_1_r.
Qed.

Lemma knn_values_single (R : Q -> Prop) src controls values :
  (forall x y, (x == y)%Q -> R x -> R y) ->
  Forall (fun p => forall v, VAL p = Some v -> R v) src ->
  knn_values src 1 controls = Ok values ->
  Forall R values.
Proof.
  intros Hproper Hsrc. unfold knn_values, KNeighborsRegressor_fit.
  destruct (present (map VAL (dropna src))) as [ys |] eqn:Hys; [| discriminate].
  assert (Hrange : Forall R ys).
  { apply (present_Forall _ _ _ Hys). apply Forall_fmap.
    unfold dropna. apply Forall_forall. intros p Hp.
    apply list_elem_of_In, filter_In in Hp as [Hp _].
    rewrite Forall_forall in Hsrc. intros v Hv.
    apply (Hsrc p); [now apply list_elem_of_In | exact Hv]. }
  destruct (_ =? 0); [discriminate |]. destruct (negb _); [discriminate |].
  cbn [Nat.eqb].
  unfold KNeighborsRegressor_predict. cbn [n_neighbors fit_samples].
  destruct (_ =? 0); [discriminate |].
  destruct (Nat.ltb_spec (length (zip (map coords (dropna src)) ys)) 1) as [| Hle];
    [discriminate |].
  intros [= <-]. apply Forall_fmap, Forall_forall. intros q _. cbn beta.
  apply (predict_one_single R); cbn [n_neighbors fit_samples]; auto.
  now apply (zip_targets_Forall R).
Qed.

(** With [nearest_neighbors] = 1 the fit invents no value: after a call
    that returns, the value of every control row is the value of a station
    row (of the nearest one, as the regressor finds it). *)
Theorem knn_fit_one_neighbor_copies_station_values
    (src : PointFrame) (l l' : loc) (w w' : world) :
  knn_fit_control_points src l 1 w = (Ret l', w') ->
  exists fitted,
    heap w' !! l = Some fitted
    /\ Forall (fun p => exists v,
                 VAL p = Some v
                 /\ exists s vs, s ∈ src /\ VAL s = Some vs /\ (v == vs)%Q)
         fitted.
Proof.
  intros H.
  apply knn_fit_returns in H as (controls & values & Hl & Hv & -> & ->).
  exists (with_VAL controls values). cbn [knn_done heap].
  split; [apply lookup_insert_eq |].
  apply (with_VAL_Forall
           (fun v => exists s vs, s ∈ src /\ VAL s = Some vs /\ (v == vs)%Q)).
  apply (knn_values_single _ src controls values); [| | exact Hv].
  - intros x y Hxy (s & vs & Hs & Hvs & Hx). exists s, vs.
    split; [assumption |]. split; [assumption |]. now rewrite <- Hxy.
  - apply Forall_forall. intros p Hp v Hval. exists p, v.
    split; [assumption |]. split; [assumption | reflexivity].
Qed.

Lemma knn_fit_one_neighbor_copies_station_values_witness :
  exists fitted,
    heap (knn_fit_control_points stations4 1%positive 1 world_land).2 !! 1%positive
    = Some fitted
    /\ Forall (fun p => exists v,
                 VAL p = Some v
                 /\ exists s vs, s ∈ stations4 /\ VAL s = Some vs /\ (v == vs)%Q)
         fitted.
Proof.
  apply (knn_fit_one_neighbor_copies_station_values stations4 1%positive 1%positive
           world_land).
  vm_compute. reflexivity.
Defined.

(* ================================================================== *)
(** * The station-file loader                                         *)
(* ================================================================== *)

Lemma station_recognized_length (cols : list string) :
  length (List.filter is_station_header cols)
  = count_label "STATIONID" cols + count_label "LON" cols
    + count_label "LAT" cols + count_label "VAL" cols.
Proof.
  unfold count_label, is_station_header.
  induction cols as [| c cols IH]; [reflexivity |]. cbn [List.filter].
  destruct (String.eqb_spec c "STATIONID") as [-> | ?]; [cbn; lia |].
  destruct (String.eqb_spec c "LON") as [-> | ?]; [cbn; lia |].
  destruct (String.eqb_spec c "LAT") as [-> | ?]; [cbn; lia |].
  destruct (String.eqb_spec c "VAL") as [-> | ?]; cbn; lia.
Qed.

Lemma positions_lookup (name : string) (cols : list string) (k i : nat) :
  i ∈ positions name cols k <-> exists j, i = k + j /\ cols !! j = Some name.
Proof.
  revert k. induction cols as [| c cols IH]; intros k; cbn [positions].
  - rewrite elem_of_nil. split; [tauto |]. intros (j & _ & H). discriminate H.
  - assert (Htail : i ∈ positions name cols (S k)
                    <-> exists j, i = k + S j /\ cols !! j = Some name).
    { rewrite IH. split; intros (j & -> & H); exists j; split; auto; lia. }
    destruct (String.eqb_spec c name) as [-> | Hne].
    + rewrite elem_of_cons, Htail. split.
      * intros [-> | (j & -> & H)]; [exists 0 | exists (S j)]; split; auto; lia.
      * intros ([| j] & -> & H); [left; lia | right; exists j; auto].
    + rewrite Htail. split.
      * intros (j & -> & H). exists (S j). auto.
      * intros ([| j] & -> & H); [| exists j; auto].
        cbn in H. congruence.
Qed.

Lemma lookup_map {A B} (f : A -> B) (l : list A) (j : nat) :
  map f l !! j = option_map f (l !! j).
Proof.
  revert j. induction l as [| x l IH]; intros [| j]; cbn; auto.
Qed.

(** The column read as [df['STATION']] is the one later named STATIONID. *)
Lemma station_column_kept (header_data : string) (cols : list string) (j : nat) :
  value_renamed header_data cols !! j = Some "STATION" ->
  station_headers header_data cols !! j = Some "STATIONID".
Proof.
  unfold station_headers, normalized_headers, value_renamed. intros H.
  do 3 rewrite lookup_map. rewrite H. reflexivity.
Qed.

Lemma station_headers_length (header_data : string) (cols : list string) :
  length (station_headers header_data cols) = length cols.
Proof.
  unfold station_headers, normalized_headers. now rewrite !length_map.
Qed.

Lemma index_of_lookup (name : string) (cols : list string) (i : nat) :
  index_of name cols = Some i -> cols !! i = Some name.
Proof.
  unfold index_of. intros H.
  assert (Hin : i ∈ positions name cols 0).
  { destruct (positions name cols 0) as [| j ps]; [discriminate |].
    injection H as ->. left. }
  apply positions_lookup in Hin as (j & -> & Hj). exact Hj.
Qed.

Lemma getitem_columns_station cols rs w :
  each_station_header_once cols ->
  exists q a b c,
    positions "STATIONID" cols 0 = [q]
    /\ index_of "LON" cols = Some a /\ index_of "LAT" cols = Some b
    /\ index_of "VAL" cols = Some c
    /\ getitem_columns (mkDataFrame cols rs) ["STATIONID"; "LON"; "LAT"; "VAL"] w
       = (Ret (mkDataFrame ["STATIONID"; "LON"; "LAT"; "VAL"]
                 (map (fun r => map (fun i => nth i r NaN) [q; a; b; c]) rs)), w).
Proof.
  intros (Hs & Hlon & Hlat & Hval). unfold getitem_columns.
  cbn [columns rows List.filter].
  rewrite (proj2 (mem_count_label "STATIONID" cols)) by lia.
  rewrite (proj2 (mem_count_label "LON" cols)) by lia.
  rewrite (proj2 (mem_count_label "LAT" cols)) by lia.
  rewrite (proj2 (mem_count_label "VAL" cols)) by lia.
  cbn [negb flat_map]. rewrite app_nil_r.
  pose proof (positions_labels "STATIONID" [] cols) as Ls.
  pose proof (positions_labels "LON" [] cols) as Llon.
  pose proof (positions_labels "LAT" [] cols) as Llat.
  pose proof (positions_labels "VAL" [] cols) as Lval.
  cbn [app length] in Ls, Llon, Llat, Lval.
  rewrite Hs in Ls. rewrite Hlon in Llon. rewrite Hlat in Llat. rewrite Hval in Lval.
  destruct (positions_once "STATIONID" cols Hs) as (q & Eq & _).
  destruct (positions_once "LON" cols Hlon) as (a & Ea & Ia).
  destruct (positions_once "LAT" cols Hlat) as (b & Eb & Ib).
  destruct (positions_once "VAL" cols Hval) as (c & Ec & Ic).
  rewrite Eq in Ls |- *. rewrite Ea in Llon |- *.
  rewrite Eb in Llat |- *. rewrite Ec in Lval |- *.
  cbn [map replicate] in Ls, Llon, Llat, Lval.
  injection Ls as Ls. injection Llon as Llon.
  injection Llat as Llat. injection Lval as Lval.
  exists q, a, b, c. split; [reflexivity |].
  split; [assumption |]. split; [assumption |]. split; [assumption |].
  cbn [app map]. rewrite Ls, Llon, Llat, Lval. reflexivity.
Qed.

Lemma getitem_columns_station_present cols rs w out w' :
  getitem_columns (mkDataFrame cols rs) ["STATIONID"; "LON"; "LAT"; "VAL"] w
  = (Ret out, w') ->
  0 < count_label "STATIONID" cols /\ 0 < count_label "LON" cols
  /\ 0 < count_label "LAT" cols /\ 0 < count_label "VAL" cols.
Proof.
  unfold getitem_columns. cbn [columns List.filter]. rewrite <- !mem_count_label.
  destruct (mem "STATIONID" cols), (mem "LON" cols), (mem "LAT" cols),
    (mem "VAL" cols); cbn [negb]; intros H; try discriminate H. auto.
Qed.

Section StationProperties.

Variable py_str : cell -> string.
Variable no_station_file : message.
Variable station_headers_missing : string -> list string -> message.

Let loader := get_station_values py_str no_station_file station_headers_missing.

(** What the loader does with a file it can read. *)
Lemma get_station_values_eq fname header_data w df :
  fs w !! fname = Some df ->
  loader (Some fname) header_data w
  = match positions "STATION" (value_renamed header_data (columns df)) 0 with
    | [] => (Raise (KeyError "STATION"), w)
    | p :: ps =>
        if negb (length (List.filter is_station_header
                           (station_headers header_data (columns df))) =? 4)
        then (Exit 1,
              mkWorld (log w ++ [(INFO, station_headers_missing fname
                                          (station_headers header_data (columns df)))])
                (heap w) (fs w))
        else
          bind (getitem_columns
                  (mkDataFrame (station_headers header_data (columns df))
                     (map (imap (fun i c => if memb i (p :: ps)
                                            then Str (py_str c) else c))
                          (rows df)))
                  ["STATIONID"; "LON"; "LAT"; "VAL"])
               (fun df => set_index df "STATIONID") w
    end.
Proof.
  intros Hf. unfold loader, get_station_values.
  unfold bind at 1. unfold read_csv. rewrite Hf. cbv zeta.
  unfold bind at 1. unfold astype_str_column.
  cbn [rename_columns columns rows]. fold (value_renamed header_data (columns df)).
  destruct (positions "STATION" (value_renamed header_data (columns df)) 0)
    as [| p ps]; [reflexivity |].
  unfold ret at 1. cbn [set_columns rename_columns columns rows].
  rewrite collect_is_filter. cbn [app].
  unfold value_renamed.
  fold (normalized_headers header_data (columns df)).
  fold (station_headers header_data (columns df)).
  destruct (negb _); reflexivity.
Qed.

(** A station file in which no column is headed exactly STATION (once the
    value column has been renamed) is not loaded: the conversion of the
    STATION column, which comes before the removal of spaces and the
    upper-casing, ends the call with KeyError, and nothing is logged. *)
Theorem station_loader_needs_raw_STATION
    (fname header_data : string) (w : world) (df : DataFrame) :
  fs w !! fname = Some df ->
  count_label "STATION" (value_renamed header_data (columns df)) = 0 ->
  loader (Some fname) header_data w = (Raise (KeyError "STATION"), w).
Proof.
  intros Hf H0. rewrite (get_station_values_eq fname header_data w df Hf).
  rewrite <- (positions_length _ _ 0) in H0.
  destruct (positions "STATION" _ 0); [reflexivity | discriminate H0].
Qed.

(** For a station file with ASCII column labels that has a column headed
    STATION: the loader returns exactly when each of STATIONID, LON, LAT,
    VAL labels one and only one column after normalization; the frame it
    returns is indexed by STATIONID and has the columns LON, LAT, VAL, and
    nothing is logged; its index holds, row by row, the string of the cell
    under STATION and its rows hold the cells under the LON, LAT and VAL
    columns of the file; whenever the number of recognized labels, counted
    with repetitions, is not four it logs the header and exits with
    status 1. *)
Theorem station_headers_each_once
    (fname header_data : string) (w : world) (df : DataFrame) :
  fs w !! fname = Some df ->
  Forall (fun c => is_ascii c = true) (columns df) ->
  0 < count_label "STATION" (value_renamed header_data (columns df)) ->
  ((exists out w', loader (Some fname) header_data w = (Ret out, w'))
     <-> each_station_header_once (station_headers header_data (columns df)))
  /\ (forall out w',
        loader (Some fname) header_data w = (Ret out, w') ->
        w' = w /\ index_name out = "STATIONID"
        /\ columns (body out) = ["LON"; "LAT"; "VAL"]
        /\ length (index out) = length (rows df)
        /\ length (rows (body out)) = length (rows df)
        /\ exists p a b c,
             value_renamed header_data (columns df) !! p = Some "STATION"
             /\ index_of "LON" (station_headers header_data (columns df)) = Some a
             /\ index_of "LAT" (station_headers header_data (columns df)) = Some b
             /\ index_of "VAL" (station_headers header_data (columns df)) = Some c
             /\ (Forall (fun r => length r = length (columns df)) (rows df) ->
                 index out = map (fun r => Str (py_str (nth p r NaN))) (rows df)
                 /\ rows (body out)
                    = map (fun r => [nth a r NaN; nth b r NaN; nth c r NaN])
                        (rows df)))
  /\ (length (List.filter is_station_header
                (station_headers header_data (columns df))) <> 4 ->
        loader (Some fname) header_data w
        = (Exit 1,
           mkWorld (log w ++ [(INFO, station_headers_missing fname
                                       (station_headers header_data (columns df)))])
             (heap w) (fs w))).
Proof.
  intros Hf _ Hraw. rewrite (get_station_values_eq fname header_data w df Hf).
  set (cols := station_headers header_data (columns df)).
  pose proof (station_recognized_length cols) as Hlen.
  rewrite <- (positions_length _ _ 0) in Hraw.
  remember (positions "STATION" (value_renamed header_data (columns df)) 0)
    as raw eqn:Eraw.
  destruct raw as [| p ps]; [cbn in Hraw; lia |].
  set (g := fun (i : nat) (c : cell) =>
              if memb i (p :: ps) then Str (py_str c) else c).
  set (rs := map (imap g) (rows df)).
  assert (Hps : forall i, i ∈ p :: ps ->
                  value_renamed header_data (columns df) !! i = Some "STATION").
  { intros i Hin. rewrite Eraw in Hin.
    apply positions_lookup in Hin as (j & -> & Hj). exact Hj. }
  assert (Hp : cols !! p = Some "STATIONID").
  { apply station_column_kept, Hps. left. }
  assert (Hgood : each_station_header_once cols ->
            exists a b c,
              index_of "LON" cols = Some a /\ index_of "LAT" cols = Some b
              /\ index_of "VAL" cols = Some c
              /\ bind (getitem_columns (mkDataFrame cols rs)
                         ["STATIONID"; "LON"; "LAT"; "VAL"])
                      (fun df => set_index df "STATIONID") w
                 = (Ret (mkIndexed "STATIONID" (map (fun r => nth p r NaN) rs)
                           (mkDataFrame ["LON"; "LAT"; "VAL"]
                              (map (fun r => [nth a r NaN; nth b r NaN; nth c r NaN])
                                 rs))), w)).
  { intros Honce.
    destruct (getitem_columns_station cols rs w Honce)
      as (q & a & b & c & Eq & Ia & Ib & Ic & Hget).
    assert (q = p) as ->.
    { assert (Hin : p ∈ positions "STATIONID" cols 0)
        by (apply positions_lookup; exists p; auto).
      rewrite Eq in Hin. apply list_elem_of_singleton in Hin. auto. }
    exists a, b, c. split; [assumption |]. split; [assumption |].
    split; [assumption |]. unfold bind. rewrite Hget. unfold set_index.
    cbn [columns rows positions String.eqb Ascii.eqb Bool.eqb].
    cbn. unfold ret. do 2 f_equal. f_equal.
    - rewrite map_map. reflexivity.
    - f_equal. rewrite map_map. reflexivity. }
  assert (Hret : forall out w',
             (if negb (length (List.filter is_station_header cols) =? 4)
              then (Exit 1,
                    mkWorld (log w ++ [(INFO, station_headers_missing fname cols)])
                      (heap w) (fs w))
              else bind (getitem_columns (mkDataFrame cols rs)
                           ["STATIONID"; "LON"; "LAT"; "VAL"])
                        (fun df => set_index df "STATIONID") w)
             = (Ret out, w') -> each_station_header_once cols).
  { intros out w'.
    destruct (Nat.eqb_spec (length (List.filter is_station_header cols)) 4)
      as [H4 | H4]; cbn [negb]; [| discriminate].
    unfold bind.
    destruct (getitem_columns (mkDataFrame cols rs) _ w) as [[sel | code | e] w1]
      eqn:Hget; try discriminate.
    intros _. apply getitem_columns_station_present in Hget.
    unfold each_station_header_once. lia. }
  split; [split |].
  - intros (out & w' & H). eauto.
  - intros Honce. pose proof Honce as (Hs & Hlon & Hlat & Hval).
    destruct (Nat.eqb_spec (length (List.filter is_station_header cols)) 4)
      as [H4 | H4]; [| lia].
    cbn [negb]. destruct (Hgood Honce) as (a & b & c & _ & _ & _ & ->). eauto.
  - split.
    + intros out w' H. pose proof (Hret out w' H) as Honce.
      pose proof Honce as (Hs & Hlon & Hlat & Hval).
      destruct (Nat.eqb_spec (length (List.filter is_station_header cols)) 4)
        as [H4 | H4]; [| lia].
      cbn [negb] in H. destruct (Hgood Honce) as (a & b & c & Ia & Ib & Ic & Hout).
      rewrite Hout in H. injection H as <- <-.
      cbn [index_name body columns rows index].
      split; [reflexivity |]. split; [reflexivity |]. split; [reflexivity |].
      split; [unfold rs; now rewrite !length_map |].
      split; [unfold rs; now rewrite !length_map |].
      exists p, a, b, c. split; [apply Hps; left |].
      split; [assumption |]. split; [assumption |]. split; [assumption |].
      intros Hrect. rewrite Forall_forall in Hrect.
      assert (Hwidth : forall r i name,
                 r ∈ rows df -> cols !! i = Some name -> i < length r).
      { intros r i name Hr Hi. rewrite (Hrect r Hr).
        rewrite <- (station_headers_length header_data).
        eapply lookup_lt_Some. exact Hi. }
      assert (Hkeep : forall r i name,
                 r ∈ rows df -> index_of name cols = Some i -> name <> "STATIONID" ->
                 nth i (imap g r) NaN = nth i r NaN).
      { intros r i name Hr Hi Hne. apply index_of_lookup in Hi.
        destruct (lookup_lt_is_Some_2 r i (Hwidth r i name Hr Hi)) as (x & Hx).
        rewrite !nth_lookup, list_lookup_imap, Hx. cbn. unfold g.
        destruct (memb i (p :: ps)) eqn:Hm; [| reflexivity].
        apply memb_elem_of, Hps, (station_column_kept header_data) in Hm.
        fold cols in Hm. congruence. }
      unfold rs. rewrite !map_map. split.
      * apply map_ext_in. intros r Hr. apply list_elem_of_In in Hr.
        destruct (lookup_lt_is_Some_2 r p (Hwidth r p _ Hr Hp)) as (x & Hx).
        rewrite !nth_lookup, list_lookup_imap, Hx. cbn. unfold g.
        cbn [memb existsb]. rewrite Nat.eqb_refl. reflexivity.
      * apply map_ext_in. intros r Hr. apply list_elem_of_In in Hr.
        rewrite (Hkeep r a "LON"), (Hkeep r b "LAT"), (Hkeep r c "VAL");
          auto; discriminate.
    + intros H4.
      destruct (Nat.eqb_spec (length (List.filter is_station_header cols)) 4);
        [lia | reflexivity].
Qed.

End StationProperties.

(** Concrete runs: [show_cell] stands for [str], and the two open log
    records are instantiated with those of the control-file loader. *)
Lemma station_loader_needs_raw_STATION_witness :
  get_station_values show_cell NoControlFile ControlHeadersMissing
    (Some "controls.csv") "mean" (world_csv csv_station_spaced)
  = (Raise (KeyError "STATION"), world_csv csv_station_spaced).
Proof.
  apply (station_loader_needs_raw_STATION show_cell NoControlFile
           ControlHeadersMissing "controls.csv" "mean"
           (world_csv csv_station_spaced) csv_station_spaced).
  - reflexivity.
  - reflexivity.
Defined.

Lemma station_headers_each_once_witness :
  ((exists out w',
      get_station_values show_cell NoControlFile ControlHeadersMissing
        (Some "controls.csv") "mean" (world_csv csv_station_plain) = (Ret out, w'))
     <-> each_station_header_once
           (station_headers "mean" (columns csv_station_plain)))
  /\ (forall out w',
        get_station_values show_cell NoControlFile ControlHeadersMissing
          (Some "controls.csv") "mean" (world_csv csv_station_plain) = (Ret out, w') ->
        w' = world_csv csv_station_plain /\ index_name out = "STATIONID"
        /\ columns (body out) = ["LON"; "LAT"; "VAL"]
        /\ length (index out) = length (rows csv_station_plain)
        /\ length (rows (body out)) = length (rows csv_station_plain)
        /\ exists p a b c,
             value_renamed "mean" (columns csv_station_plain) !! p = Some "STATION"
             /\ index_of "LON" (station_headers "mean" (columns csv_station_plain))
                = Some a
             /\ index_of "LAT" (station_headers "mean" (columns csv_station_plain))
                = Some b
             /\ index_of "VAL" (station_headers "mean" (columns csv_station_plain))
                = Some c
             /\ (Forall (fun r => length r = length (columns csv_station_plain))
                   (rows csv_station_plain) ->
                 index out
                 = map (fun r => Str (show_cell (nth p r NaN)))
                     (rows csv_station_plain)
                 /\ rows (body out)
                    = map (fun r => [nth a r NaN; nth b r NaN; nth c r NaN])
                        (rows csv_station_plain)))
  /\ (length (List.filter is_station_header
                (station_headers "mean" (columns csv_station_plain))) <> 4 ->
        get_station_values show_cell NoControlFile ControlHeadersMissing
          (Some "controls.csv") "mean" (world_csv csv_station_plain)
        = (Exit 1,
           mkWorld (log (world_csv csv_station_plain)
                    ++ [(INFO, ControlHeadersMissing "controls.csv"
                                 (station_headers "mean" (columns csv_station_plain)))])
             (heap (world_csv csv_station_plain)) (fs (world_csv csv_station_plain)))).
Proof.
  apply (station_headers_each_once show_cell NoControlFile ControlHeadersMissing
           "controls.csv" "mean" (world_csv csv_station_plain) csv_station_plain).
  - reflexivity.
  - repeat constructor.
  - vm_compute. lia.
Defined.

(* ================================================================== *)
(** * The folds of a cross-validation run                             *)
(* ================================================================== *)

Lemma transform_points_VAL (model : Model) (df : PointFrame) :
  map VAL (zip_with (grid_row model) (map LON df) (map LAT df))
  = predictions model df.
Proof.
  unfold predictions. induction df as [| p df IH]; cbn; [reflexivity |].
  now rewrite IH.
Qed.

Lemma bind_ext {A B} (m : py A) (k1 k2 : A -> py B) w :
  (forall a w1, k1 a w1 = k2 a w1) -> bind m k1 w = bind m k2 w.
Proof.
  intros Hk. unfold bind. destruct (m w) as [[a | code | e] w1]; auto.
Qed.

Section HarnessFolds.

Variable LinearNDInterpolator :
  list Q -> list Q -> list (option Q) -> Q -> result Model.
Variable CloughTocher2DInterpolator :
  list Q -> list Q -> list (option Q) -> Q -> result Model.

(** The model of a fold is the one the linear constructor builds from the
    rows of the training frame that have a value. *)
Lemma fit_linear df w model w' :
  interpolation_model_fit LinearNDInterpolator CloughTocher2DInterpolator
    df 0 "LinearNDInterpolator" w = (Ret model, w') ->
  LinearNDInterpolator (map LON (dropna df)) (map LAT (dropna df))
    (map VAL (dropna df)) 0 = Ok model.
Proof.
  rewrite interpolation_model_fit_eq.
  change (valid_interpolation_type "LinearNDInterpolator") with true.
  change (chosen_constructor LinearNDInterpolator CloughTocher2DInterpolator
            "LinearNDInterpolator") with LinearNDInterpolator.
  cbv iota.
  destruct (LinearNDInterpolator _ _ _ _); [| discriminate].
  now intros [= <- _].
Qed.

(** The points-mode query of a model at the coordinates of a frame. *)
Lemma transform_frame (adc : gmap string (list Q)) (model : Model) df w :
  adc !! "LON" = Some (map LON df) -> adc !! "LAT" = Some (map LAT df) ->
  interpolation_model_transform adc (Some model) "points" w
  = (Ret (zip_with (grid_row model) (map LON df) (map LAT df)), w).
Proof.
  intros Hlon Hlat.
  rewrite (transform_points_eq adc _ _ model "points" w Hlon Hlat) by discriminate.
  destruct (decide _) as [_ | Hn]; [reflexivity |].
  rewrite !length_map in Hn. lia.
Qed.

(** A pass of the loop that returns has scored its fold. *)
Lemma cv_fold_scored df_source_drop land water k train_index test_index
    fold kd kc w st' w' :
  cv_fold LinearNDInterpolator CloughTocher2DInterpolator
    df_source_drop land water k (train_index, test_index) (fold, kd, kc) w
  = (Ret st', w') ->
  exists s c kd' kc',
    fold_scored LinearNDInterpolator df_source_drop land
      (train_index, test_index) s c
    /\ st' = (fold + 1, kd', kc')
    /\ dict_list_append kd (fold_key (fold + 1)) s = Ok kd'
    /\ dict_list_append kc (cnrl_fold_key (fold + 1)) c = Ok kc'.
Proof.
  unfold cv_fold. cbv zeta. intros H.
  apply bind_inv_Ret in H as ([] & w1 & _ & H).
  apply bind_inv_Ret in H as (train & w2 & Htrain & H).
  apply lift_inv_Ret in Htrain as [Htrain ->].
  apply bind_inv_Ret in H as (test & w3 & Htest & H).
  apply lift_inv_Ret in Htest as [Htest ->].
  apply bind_inv_Ret in H as ([df_Train o] & w4 & Hset & H).
  apply bind_inv_Ret in H as (model & w5 & Hfit & H).
  apply fit_linear in Hfit.
  apply bind_inv_Ret in H as (fitted & w6 & Htr & H).
  rewrite (transform_frame _ model test) in Htr;
    [| now rewrite lookup_insert_ne, lookup_insert_eq by discriminate
     | now rewrite lookup_insert_eq].
  injection Htr as <- <-.
  apply bind_inv_Ret in H as (s & w7 & Hmse & H).
  apply lift_inv_Ret in Hmse as [Hmse ->].
  rewrite transform_points_VAL in Hmse.
  apply bind_inv_Ret in H as (kd' & w8 & Hkd & H).
  apply lift_inv_Ret in Hkd as [Hkd ->].
  apply bind_inv_Ret in H as (c & w9 & Hc & H).
  apply bind_inv_Ret in H as (kc' & w10 & Hkc & H).
  apply lift_inv_Ret in Hkc as [Hkc ->].
  injection H as <- <-.
  exists s, c, kd', kc'. split; [| auto].
  assert (Hrest : exists rest, df_Train = train ++ rest
                               /\ match land with
                                  | None => o = None
                                  | Some l => o = Some l
                                  end).
  { destruct land as [l |].
    - apply cv_training_set_land in Hset
        as (controls & v_train & v_test & _ & _ & _ & -> & -> & _). eauto.
    - rewrite cv_training_set_no_land in Hset. injection Hset as <- <- _. eauto. }
  destruct Hrest as (rest & -> & Ho).
  exists train, test, rest, model. cbn [fst snd].
  split; [assumption |]. split; [assumption |]. split; [assumption |].
  split; [assumption |].
  destruct land as [l |]; subst o.
  - apply bind_inv_Ret in Hc as (land_rows & wa & Hload & Hc).
    unfold load in Hload. destruct (heap w5 !! l) as [rows |] eqn:Hl; [| discriminate].
    injection Hload as <- <-.
    apply bind_inv_Ret in Hc as (fit_land & wb & Htr & Hc).
    rewrite (transform_frame _ model rows) in Htr;
      [| now rewrite lookup_insert_eq
       | now rewrite lookup_insert_ne, lookup_insert_eq by discriminate].
    injection Htr as <- <-.
    apply bind_inv_Ret in Hc as (land_rows' & wc & Hload & Hc).
    unfold load in Hload. rewrite Hl in Hload. injection Hload as <- <-.
    apply lift_inv_Ret in Hc as [Hc _].
    rewrite transform_points_VAL in Hc. now exists rows.
  - now injection Hc as <- _.
Qed.

(** The scores a run of the loop appends, fold by fold. *)
Lemma cv_loop_folds df_source_drop land water k K splits :
  forall ss cs w st' w',
    length cs = length ss -> length ss + length splits <= K ->
    for_each splits
      (cv_fold LinearNDInterpolator CloughTocher2DInterpolator
         df_source_drop land water k)
      (length ss, scored fold_key K ss, scored cnrl_fold_key K cs) w
    = (Ret st', w') ->
    exists ss2 cs2,
      length ss2 = length splits /\ length cs2 = length splits
      /\ st' = (length ss + length splits,
                scored fold_key K (ss ++ ss2), scored cnrl_fold_key K (cs ++ cs2))
      /\ (forall i split s c,
            splits !! i = Some split -> ss2 !! i = Some s -> cs2 !! i = Some c ->
            fold_scored LinearNDInterpolator df_source_drop land split s c).
Proof.
  induction splits as [| [train_index test_index] splits IH];
    intros ss cs w st' w' Hcs Hlen H.
  - injection H as <- <-. exists [], []. rewrite !app_nil_r. simpl.
    rewrite Nat.add_0_r. repeat split; auto. intros i split s c Hi. discriminate Hi.
  - cbn [for_each] in H. cbn [length] in Hlen.
    apply bind_inv_Ret in H as (st1 & w1 & Hfold & H).
    apply cv_fold_scored in Hfold as (s & c & kd' & kc' & Hsc & -> & Hkd & Hkc).
    rewrite Nat.add_1_r in Hkd, Hkc.
    rewrite (scored_append fold_key fold_key_inj) in Hkd by lia.
    rewrite <- Hcs in Hkc.
    rewrite (scored_append cnrl_fold_key cnrl_fold_key_inj) in Hkc by lia.
    injection Hkd as <-. injection Hkc as <-.
    replace (length ss + 1) with (length (ss ++ [s])) in H
      by (rewrite length_app; reflexivity).
    apply IH in H as (ss2 & cs2 & Hss2 & Hcs2 & -> & Hall);
      [| rewrite !length_app; simpl; lia | rewrite length_app; simpl; lia].
    exists (s :: ss2), (c :: cs2). cbn [length].
    split; [lia |]. split; [lia |].
    split; [rewrite length_app, <- !app_assoc; cbn; do 2 f_equal; lia |].
    intros [| i] split s' c' Hsplit Hs Hc.
    + cbn in Hsplit, Hs, Hc. injection Hsplit as <-. injection Hs as <-.
      injection Hc as <-. exact Hsc.
    + cbn in Hsplit, Hs, Hc. eauto.
Qed.

(** A completed run, taken apart: the pairs of the splitter, the two
    scores of every fold, and the entries of the report. *)
Lemma cv_run_folds df_source land water K k w report best_score w' :
  test_interpolation_fit LinearNDInterpolator CloughTocher2DInterpolator
    df_source land water K k w = (Ret (report, best_score), w') ->
  exists splits ss cs,
    2 <= K
    /\ KFold_split (mkKFold K) (length (dropna df_source)) = Ok splits
    /\ length splits = K /\ length ss = K /\ length cs = K
    /\ (forall i split s c,
          splits !! i = Some split -> ss !! i = Some s -> cs !! i = Some c ->
          fold_scored LinearNDInterpolator (dropna df_source) land split s c)
    /\ (forall i s, ss !! i = Some s ->
          dict_get report (fold_key (S i)) = Some (PList [s]))
    /\ (forall i c, cs !! i = Some c ->
          dict_get report (cnrl_fold_key (S i)) = Some (PList [c]))
    /\ dict_get report "avgMSE" = Some (PFloat (float_mean ss K))
    /\ dict_get report "avgCnrlMSE" = Some (PFloat (float_mean cs K))
    /\ (exists m, dict_get report "best" = Some (PList [m])
                  /\ best_score = PList [m]
                  /\ m ∈ ss /\ forall s, s ∈ ss -> (m <= s)%Q)
    /\ (exists m, dict_get report "best_cntl" = Some (PList [m])
                  /\ m ∈ cs /\ forall c, c ∈ cs -> (m <= c)%Q).
Proof.
  unfold test_interpolation_fit. cbv zeta. intros H.
  apply bind_inv_Ret in H as ([] & w1 & _ & H).
  apply bind_inv_Ret in H as ([] & w2 & _ & H).
  apply bind_inv_Ret in H as (kf & w3 & Hkf & H).
  apply lift_inv_Ret in Hkf as [Hkf _].
  apply KFold_init_Ok in Hkf as [HK ->]. cbn [get_n_splits n_splits] in H.
  apply bind_inv_Ret in H as (splits & w4 & Hsplits & H).
  apply lift_inv_Ret in Hsplits as [Hsplits _].
  pose proof (KFold_split_length _ _ _ Hsplits) as Hlen.
  apply bind_inv_Ret in H as ([[fold kd] kc] & w5 & Hloop & H).
  rewrite (scored_initial fold_key fold_key_inj) in Hloop.
  rewrite (scored_initial cnrl_fold_key cnrl_fold_key_inj) in Hloop.
  apply (cv_loop_folds _ _ _ _ K splits [] []) in Hloop;
    [| reflexivity | simpl; lia].
  destruct Hloop as (ss & cs & Hss & Hcs & [= -> -> ->] & Hall).
  cbn [app] in *. rewrite Hlen in Hss, Hcs.
  destruct (series_summary fold_key "best" "avgMSE" K ss w5)
    as (m & kd & Hmin & Havg & Hm & Hmle & _ & Hfold & Hbest & Hmean & _);
    try assumption; try (intros; distinct_keys); try apply fold_key_inj.
  destruct (series_summary cnrl_fold_key "best_cntl" "avgCnrlMSE" K cs w5)
    as (mc & kc & Hminc & Havgc & Hmc & Hmcle & Hnd & Hfoldc & Hbestc & Hmeanc & Hnone);
    try assumption; try (intros; distinct_keys); try apply cnrl_fold_key_inj.
  apply bind_inv_Ret in H as (best & w6 & Hb & H).
  apply lift_inv_Ret in Hb as [Hb ->]. rewrite Hmin in Hb. injection Hb as <-.
  apply bind_inv_Ret in H as (bestc & w7 & Hbc & H).
  apply lift_inv_Ret in Hbc as [Hbc ->]. rewrite Hminc in Hbc. injection Hbc as <-.
  apply bind_inv_Ret in H as (kd' & w8 & Hacc & H).
  rewrite Havg in Hacc. injection Hacc as <- <-.
  apply bind_inv_Ret in H as (kc' & w9 & Haccc & H).
  rewrite Havgc in Haccc. injection Haccc as <- <-.
  injection H as <- <- <-.
  exists splits, ss, cs. split; [assumption |]. split; [assumption |].
  split; [assumption |]. split; [assumption |]. split; [assumption |].
  split; [assumption |].
  split; [| split; [| split; [| split; [| split]]]].
  - intros i s Hs. rewrite dict_get_merge by assumption.
    rewrite Hnone by (intros; distinct_keys). now apply Hfold.
  - intros i c Hc. rewrite dict_get_merge by assumption.
    now rewrite (Hfoldc i c Hc).
  - rewrite dict_get_merge by assumption.
    rewrite Hnone by (intros; distinct_keys). exact Hmean.
  - rewrite dict_get_merge by assumption. now rewrite Hmeanc.
  - exists m. rewrite dict_get_merge by assumption.
    rewrite Hnone by (intros; distinct_keys). auto.
  - exists mc. rewrite dict_get_merge by assumption. rewrite Hbestc. auto.
Qed.

(** With an accepted fold count the run is its two opening records, the
    loop over the pairs of the splitter, and the summary. *)
Lemma test_interpolation_fit_eq df_source land water K k w splits :
  KFold_init K = Ok (mkKFold K) ->
  KFold_split (mkKFold K) (length (dropna df_source)) = Ok splits ->
  test_interpolation_fit LinearNDInterpolator CloughTocher2DInterpolator
    df_source land water K k w
  = bind (for_each splits
            (cv_fold LinearNDInterpolator CloughTocher2DInterpolator
               (dropna df_source) land water k)
            (0, dict_of (map (fun i => (fold_key i, PList [])) (seq 1 K)),
                dict_of (map (fun i => (cnrl_fold_key i, PList [])) (seq 1 K))))
         (cv_summary K) (cv_started w df_source K k).
Proof.
  intros Hinit Hsplit. unfold test_interpolation_fit, cv_started. cbv zeta.
  unfold bind at 1. unfold emit at 1. unfold bind at 1. unfold emit at 1.
  cbn [log heap fs]. rewrite <- app_assoc. cbn [app].
  unfold bind at 1. rewrite Hinit. cbn [lift ret get_n_splits n_splits].
  unfold bind at 1. rewrite Hsplit. cbn [lift ret].
  apply bind_ext. intros [[fold kd] kc] w1. reflexivity.
Qed.

(** C5: for a station set with N rows left after the removal of missing
    values and 2 <= K <= N, the run of the harness is its two opening
    records, one pass of the fold body for each of K (train, test) pairs in
    turn, and the summary; every test fold of these pairs is a non-empty run
    of consecutive positions, the test folds laid end to end are exactly
    0, 1, ..., N-1 (so each position is in one and only one test fold and
    no two folds overlap), a fold's train positions are the positions
    outside its test fold, and in a run that completes the score reported
    for fold f is the error over the rows of test fold f. *)
Theorem cv_test_folds_partition
    (df_source : PointFrame) (land : option loc) (water : option PointFrame)
    (K k : nat) (w : world) :
  2 <= K -> K <= length (dropna df_source) ->
  exists splits : list (list nat * list nat),
    length splits = K
    /\ test_interpolation_fit LinearNDInterpolator CloughTocher2DInterpolator
         df_source land water K k w
       = bind (for_each splits
                 (cv_fold LinearNDInterpolator CloughTocher2DInterpolator
                    (dropna df_source) land water k)
                 (0, dict_of (map (fun i => (fold_key i, PList [])) (seq 1 K)),
                     dict_of (map (fun i => (cnrl_fold_key i, PList [])) (seq 1 K))))
              (cv_summary K) (cv_started w df_source K k)
    /\ concat (map snd splits) = seq 0 (length (dropna df_source))
    /\ (forall f test, map snd splits !! f = Some test ->
          test <> [] /\ exists start, test = seq start (length test))
    /\ (forall i, i < length (dropna df_source) ->
          exists f test, map snd splits !! f = Some test /\ i ∈ test)
    /\ (forall f g tf tg i,
          f <> g -> map snd splits !! f = Some tf -> map snd splits !! g = Some tg ->
          i ∈ tf -> i ∉ tg)
    /\ (forall train test i,
          (train, test) ∈ splits ->
          (i ∈ train <-> i < length (dropna df_source) /\ i ∉ test))
    /\ (forall report best_score w',
          test_interpolation_fit LinearNDInterpolator CloughTocher2DInterpolator
            df_source land water K k w = (Ret (report, best_score), w') ->
          forall f train test,
            splits !! f = Some (train, test) ->
            exists s c,
              dict_get report (fold_key (S f)) = Some (PList [s])
              /\ fold_scored LinearNDInterpolator (dropna df_source) land
                   (train, test) s c).
Proof.
  intros HK HN.
  destruct (KFold_split_partition df_source K HK HN)
    as (kf & splits & Hinit & Hsplit & Hlen & Hcat & Hrun & Hcover & Hdisj & Htrain).
  pose proof (KFold_init_Ok K kf Hinit) as [_ ->].
  exists splits. split; [assumption |].
  split; [now apply test_interpolation_fit_eq |].
  split; [assumption |]. split; [assumption |]. split; [assumption |].
  split; [assumption |]. split; [assumption |].
  intros report best_score w' H f train test Hf.
  apply cv_run_folds in H
    as (splits' & ss & cs & _ & Hsplit' & _ & Hss & Hcs & Hall & Hfold & _).
  rewrite Hsplit in Hsplit'. injection Hsplit' as <-.
  pose proof (lookup_lt_Some _ _ _ Hf) as Hlt.
  destruct (lookup_lt_is_Some_2 ss f ltac:(lia)) as (s & Hs).
  destruct (lookup_lt_is_Some_2 cs f ltac:(lia)) as (c & Hc).
  exists s, c. split; [now apply Hfold | now apply (Hall f)].
Qed.



End HarnessFolds.

Lemma cv_test_folds_partition_witness :
  exists splits : list (list nat * list nat),
    length splits = 2
    /\ test_interpolation_fit node_model node_model stations4 None None 2 1 world0
       = bind (for_each splits
                 (cv_fold node_model node_model (dropna stations4) None None 1)
                 (0, dict_of (map (fun i => (fold_key i, PList [])) (seq 1 2)),
                     dict_of (map (fun i => (cnrl_fold_key i, PList [])) (seq 1 2))))
              (cv_summary 2) (cv_started world0 stations4 2 1)
    /\ concat (map snd splits) = seq 0 (length (dropna stations4))
    /\ (forall f test, map snd splits !! f = Some test ->
          test <> [] /\ exists start, test = seq start (length test))
    /\ (forall i, i < length (dropna stations4) ->
          exists f test, map snd splits !! f = Some test /\ i ∈ test)
    /\ (forall f g tf tg i,
          f <> g -> map snd splits !! f = Some tf -> map snd splits !! g = Some tg ->
          i ∈ tf -> i ∉ tg)
    /\ (forall train test i,
          (train, test) ∈ splits ->
          (i ∈ train <-> i < length (dropna stations4) /\ i ∉ test))
    /\ (forall report best_score w',
          test_interpolation_fit node_model node_model stations4 None None 2 1 world0
          = (Ret (report, best_score), w') ->
          forall f train test,
            splits !! f = Some (train, test) ->
            exists s c,
              dict_get report (fold_key (S f)) = Some (PList [s])
              /\ fold_scored node_model (dropna stations4) None (train, test) s c).
Proof.
  apply (cv_test_folds_partition node_model node_model stations4 None None 2 1 world0).
  - lia.
  - vm_compute. lia.
Defined.



